(** * Leaderboard / log analytics core: normalisation and metrics

    A shallow embedding of the TypeScript core of the leaderboard viewer:

    - [parseGenericInstanceName]          (utils/commonParserUtils.ts)
    - [parseLogEntries]                   (utils/logParser.ts)
    - [parseLeaderboardHtmlToUnifiedData] (utils/leaderboardParser.ts)
    - [calculateUnifiedMetrics], [groupUnifiedDataByInstance]
                                          (utils/unifiedAnalysis.ts)
    - [findProblemOutliers]               (components/UnifiedInsights.tsx)
    - [handleDataUpdate], [handleDataCleared]  (app/page.tsx)
    - [uniqueOwners], the visibility effect, [toggleOwnerVisibility],
      [visibleData]                       (app/page.tsx)
    - [processFile]                       (components/CombinedFileUploader.tsx)
    - the insights of [UnifiedInsights]   (components/UnifiedInsights.tsx)
    - the comparison and pie data of [UnifiedPerformanceChart]
                                  (components/UnifiedPerformanceChart.tsx)

    The first part of the file holds the definitions: the JavaScript
    built-ins the code calls (module [JS]), then one module per source
    file.  The second part holds the lemmas and the theorems; the third
    part holds further properties of the same code.

    Conventions of the embedding.

    - A JavaScript string is a [string]; every [ascii] stands for the
      code unit of the same number (0..255).  Code units above 255 are
      outside the model.
    - A JavaScript number is a [JSNumber]: [NaN], an infinity, or a
      finite value kept as an exact rational.  Comparison ([<], [===])
      is the one of IEEE 754; the rounding of binary64 arithmetic (and
      with it overflow, underflow and the sign of zero) is not modelled.
    - [null] is [None] in a field of type [T | null].
    - Exceptions are explicit ([Exc]); [uuidv4()] draws from a counter
      that is threaded through the parsers (monad [M]).
    - [console.warn] / [console.error] have no effect on any value the
      code returns and are left out. *)

From Stdlib Require Import String Ascii List Bool Arith ZArith QArith Lia.
From Stdlib Require Import Qabs DecimalString Sorting.Sorted.
Import ListNotations.

Local Close Scope Q_scope.
Local Open Scope string_scope.
Local Open Scope list_scope.
Local Open Scope nat_scope.

(* ================================================================== *)
(** * Part I: definitions *)
(* ================================================================== *)

(** ** JavaScript built-ins used by the code *)

Module JS.

(** *** Strings *)

Definition charCode (c : ascii) : nat := nat_of_ascii c.

(** [WhiteSpace] and [LineTerminator] of ECMAScript, as far as they are
    code units below 256: TAB, LF, VT, FF, CR, SP and NBSP.  This is the
    set that [String.prototype.trim], [parseInt], [parseFloat] and the
    regular-expression class [\s] use. *)
Definition isWhiteSpace (c : ascii) : bool :=
  let n := charCode c in
  ((9 <=? n) && (n <=? 13)) || (n =? 32) || (n =? 160).

(** The regular-expression class [\d]. *)
Definition isDigit (c : ascii) : bool :=
  let n := charCode c in (48 <=? n) && (n <=? 57).

Fixpoint trimStart (s : string) : string :=
  match s with
  | EmptyString => EmptyString
  | String c r => if isWhiteSpace c then trimStart r else s
  end.

Fixpoint rev_append (s acc : string) : string :=
  match s with
  | EmptyString => acc
  | String c r => rev_append r (String c acc)
  end.

Definition reverse (s : string) : string := rev_append s EmptyString.

Definition trimEnd (s : string) : string := reverse (trimStart (reverse s)).

(** [s.trim()] *)
Definition trim (s : string) : string := trimEnd (trimStart s).

(** [s.split(sep)] for a separator of one character: never the empty
    list; [split sep ""] is [[""]]. *)
Fixpoint split (sep : ascii) (s : string) : list string :=
  match s with
  | EmptyString => [EmptyString]
  | String c r =>
      if Ascii.eqb c sep then EmptyString :: split sep r
      else match split sep r with
           | x :: xs => String c x :: xs
           | [] => [String c EmptyString]
           end
  end.

(** [parts.join(sep)] *)
Definition join (sep : string) (parts : list string) : string :=
  String.concat sep parts.

(** [s.lastIndexOf(c)] for a single character: [-1] when [c] does not
    occur. *)
Fixpoint lastIndexOf (c : ascii) (s : string) : Z :=
  match s with
  | EmptyString => (-1)%Z
  | String a r =>
      let k := lastIndexOf c r in
      if (0 <=? k)%Z then (k + 1)%Z
      else if Ascii.eqb a c then 0%Z else (-1)%Z
  end.

Definition strlen (s : string) : Z := Z.of_nat (String.length s).

(** [s.substring(from, to)] for [0 <= from <= to <= s.length] (the only
    way the code calls it). *)
Definition substring (from to : Z) (s : string) : string :=
  String.substring (Z.to_nat from) (Z.to_nat (to - from)) s.

(** [s.substring(from)] *)
Definition substringFrom (from : Z) (s : string) : string :=
  substring from (strlen s) s.

(** [s.startsWith(p)] *)
Definition startsWith (p s : string) : bool := String.prefix p s.

(** ASCII case folding, which is what the flag [i] amounts to for the
    letters of a pattern made of ASCII letters. *)
Definition toLowerAscii (c : ascii) : ascii :=
  let n := charCode c in
  if (65 <=? n) && (n <=? 90) then ascii_of_nat (n + 32) else c.

Fixpoint lowerAscii (s : string) : string :=
  match s with
  | EmptyString => EmptyString
  | String c r => String (toLowerAscii c) (lowerAscii r)
  end.

(** [s] ends with [suffix], letters compared without case. *)
Definition endsWithNoCase (suffix s : string) : bool :=
  String.prefix (reverse (lowerAscii suffix)) (reverse (lowerAscii s)).

(** *** Integers read from text *)

Definition digitValue (c : ascii) : Z := Z.of_nat (charCode c) - 48.

(** The longest prefix of decimal digits, and what follows it. *)
Fixpoint spanDigits (s : string) : string * string :=
  match s with
  | EmptyString => (EmptyString, EmptyString)
  | String c r =>
      if isDigit c then let (d, rest) := spanDigits r in (String c d, rest)
      else (EmptyString, s)
  end.

Fixpoint decimalValueFrom (acc : Z) (digits : string) : Z :=
  match digits with
  | EmptyString => acc
  | String c r => decimalValueFrom (10 * acc + digitValue c) r
  end.

Definition decimalValue (digits : string) : Z := decimalValueFrom 0 digits.

(** An optional sign in front of a numeral: whether it is [-], and the
    text after it. *)
Definition splitSign (s : string) : bool * string :=
  match s with
  | String c r =>
      if Ascii.eqb c "-" then (true, r)
      else if Ascii.eqb c "+" then (false, r)
      else (false, s)
  | EmptyString => (false, s)
  end.

(** [parseInt(s, 10)]: leading white space is skipped, one sign is
    accepted, then the longest run of digits is read and whatever follows
    is ignored.  [None] is [NaN] (no digit was found).  The result is the
    exact integer (JavaScript would round an integer beyond 2^53). *)
Definition parseInt (s : string) : option Z :=
  let '(negative, s2) := splitSign (trimStart s) in
  let (digits, _) := spanDigits s2 in
  match digits with
  | EmptyString => None
  | String _ _ =>
      Some (if negative then - decimalValue digits else decimalValue digits)%Z
  end.

(** [isNaN(x)] on the result of [parseInt]. *)
Definition isNaN_int (x : option Z) : bool :=
  match x with None => true | Some _ => false end.

(** The text of an integer inside a template literal. *)
Definition intToString (z : Z) : string := NilZero.string_of_int (Z.to_int z).

(** *** Numbers *)

Inductive JSNumber : Type :=
| NaN
| PosInfinity
| NegInfinity
| Finite (q : Q).

(** [a < b] *)
Definition num_ltb (a b : JSNumber) : bool :=
  match a, b with
  | NaN, _ | _, NaN => false
  | PosInfinity, _ => false
  | _, NegInfinity => false
  | NegInfinity, _ => true
  | Finite _, PosInfinity => true
  | Finite x, Finite y => negb (Qle_bool y x)
  end.

(** [a > b] *)
Definition num_gtb (a b : JSNumber) : bool := num_ltb b a.

(** [a === b] on numbers *)
Definition num_eqb (a b : JSNumber) : bool :=
  match a, b with
  | PosInfinity, PosInfinity => true
  | NegInfinity, NegInfinity => true
  | Finite x, Finite y => Qeq_bool x y
  | _, _ => false
  end.

(** [a + b] *)
Definition num_add (a b : JSNumber) : JSNumber :=
  match a, b with
  | NaN, _ | _, NaN => NaN
  | PosInfinity, NegInfinity | NegInfinity, PosInfinity => NaN
  | PosInfinity, _ | _, PosInfinity => PosInfinity
  | NegInfinity, _ | _, NegInfinity => NegInfinity
  | Finite x, Finite y => Finite (Qred (x + y))
  end.

Definition num_neg (a : JSNumber) : JSNumber :=
  match a with
  | NaN => NaN
  | PosInfinity => NegInfinity
  | NegInfinity => PosInfinity
  | Finite x => Finite (Qred (- x))
  end.

(** [a - b] *)
Definition num_sub (a b : JSNumber) : JSNumber := num_add a (num_neg b).

Definition zero : JSNumber := Finite 0.

Definition num_sign_negative (a : JSNumber) : bool := num_ltb a zero.

(** [a / b].  A zero divisor is read as [+0]; the code divides only by
    numbers it has tested to be positive. *)
Definition num_div (a b : JSNumber) : JSNumber :=
  match a, b with
  | NaN, _ | _, NaN => NaN
  | Finite x, Finite y =>
      if Qeq_bool y 0 then
        if Qeq_bool x 0 then NaN
        else if Qle_bool x 0 then NegInfinity else PosInfinity
      else Finite (Qred (x / y))
  | Finite _, _ => zero
  | _, Finite y =>
      if xorb (num_sign_negative a) (negb (Qle_bool 0 y))
      then NegInfinity else PosInfinity
  | _, _ => NaN
  end.

(** A counter ([solvedCount], [count]) used as a number. *)
Definition num_of_nat (n : nat) : JSNumber := Finite (inject_Z (Z.of_nat n)).

(** [m * 10^k] *)
Definition decimal (m k : Z) : Q :=
  if (0 <=? k)%Z then inject_Z (m * 10 ^ k)
  else Qmake m (Z.to_pos (10 ^ (- k))).

(** [parseFloat(s)] on a string: leading white space is skipped, then the
    longest prefix that is a [StrDecimalLiteral] is read (a sign, then
    [Infinity], or digits with an optional fraction and an optional
    exponent); [NaN] when there is none. *)
Definition parseFloatString (s : string) : JSNumber :=
  let '(negative, s2) := splitSign (trimStart s) in
  if String.prefix "Infinity" s2
  then (if negative then NegInfinity else PosInfinity)
  else
    let (intDigits, r1) := spanDigits s2 in
    let (fracDigits, r2) :=
      match r1 with
      | String "." r => spanDigits r
      | _ => (EmptyString, r1)
      end in
    match (intDigits ++ fracDigits)%string with
    | EmptyString => NaN
    | mantissa =>
        let exponent :=
          match r2 with
          | String c r =>
              if Ascii.eqb c "e" || Ascii.eqb c "E" then
                let '(negExp, r') := splitSign r in
                let (expDigits, _) := spanDigits r' in
                match expDigits with
                | EmptyString => 0%Z
                | _ => if negExp then (- decimalValue expDigits)%Z
                       else decimalValue expDigits
                end
              else 0%Z
          | EmptyString => 0%Z
          end in
        let m := decimalValue mantissa in
        Finite (Qred (decimal (if negative then - m else m)%Z
                              (exponent - strlen fracDigits)))
    end.

(** The decimal digits of a positive rational: [Some (s, e)] with
    [x = s * 10^e] when [x] is a decimal fraction. *)
Fixpoint scaleToInteger (fuel : nat) (num den e : Z) : option (Z * Z) :=
  if (num mod den =? 0)%Z then Some (num / den, e)%Z
  else match fuel with
       | O => None
       | S f => scaleToInteger f (num * 10)%Z den (e - 1)%Z
       end.

Fixpoint stripZeros (fuel : nat) (s e : Z) : Z * Z :=
  match fuel with
  | O => (s, e)
  | S f => if (s =? 0)%Z then (s, e)
           else if (s mod 10 =? 0)%Z then stripZeros f (s / 10)%Z (e + 1)%Z
           else (s, e)
  end.

Definition decimalDigits (x : Q) : Z * Z :=
  let x := Qred x in
  let num := Qnum x in
  let den := Zpos (Qden x) in
  let '(s, e) :=
    match scaleToInteger (S (Z.to_nat (Z.log2 den))) num den 0 with
    | Some se => se
    | None => ((num * 10 ^ 20) / den, -20)%Z
    end in
  stripZeros (S (Z.to_nat (Z.log2 s))) s e.

Fixpoint zeros (n : nat) : string :=
  match n with O => EmptyString | S k => String "0" (zeros k) end.

(** [Number.prototype.toString()] in radix 10, on the exact digits of the
    value (a rational that is no decimal fraction, which only a division
    produces, is cut after 20 places). *)
Definition positiveToString (x : Q) : string :=
  let '(s, e) := decimalDigits x in
  let digits := intToString s in
  let k := strlen digits in
  let n := (k + e)%Z in
  if (k <=? n)%Z && (n <=? 21)%Z then
    (digits ++ zeros (Z.to_nat (n - k)))%string
  else if (0 <? n)%Z && (n <=? 21)%Z then
    (substring 0 n digits ++ "." ++ substringFrom n digits)%string
  else if (-6 <? n)%Z && (n <=? 0)%Z then
    ("0." ++ zeros (Z.to_nat (- n)) ++ digits)%string
  else
    let exponent := (n - 1)%Z in
    let signText := if (exponent <? 0)%Z then "-" else "+" in
    let mantissa :=
      if (k =? 1)%Z then digits
      else (substring 0 1 digits ++ "." ++ substringFrom 1 digits)%string in
    (mantissa ++ "e" ++ signText ++ intToString (Z.abs exponent))%string.

Definition numberToString (a : JSNumber) : string :=
  match a with
  | NaN => "NaN"
  | PosInfinity => "Infinity"
  | NegInfinity => "-Infinity"
  | Finite x =>
      if Qeq_bool x 0 then "0"
      else if Qle_bool x 0 then ("-" ++ positiveToString (- x))%string
      else positiveToString x
  end.

(** [x.toFixed(2)] for a magnitude below 10^21 (above it JavaScript
    switches to [toString]): the value is rounded to the nearest
    hundredth, ties away from zero. *)
Definition toFixed2 (a : JSNumber) : string :=
  match a with
  | Finite x =>
      let negative := negb (Qle_bool 0 x) in
      let ax := Qabs x in
      let n := ((2 * Qnum ax * 100 + Zpos (Qden ax)) / (2 * Zpos (Qden ax)))%Z in
      let whole := intToString (n / 100) in
      let cents := intToString (n mod 100) in
      let body :=
        (whole ++ "." ++ (if (n mod 100 <? 10)%Z then "0" else "") ++ cents)%string in
      if negative then ("-" ++ body)%string else body
  | other => numberToString other
  end.

(** *** Exceptions and the id counter *)

Inductive JSError : Type := SyntaxError | TypeError.

Inductive Exc (A : Type) : Type :=
| Ok (a : A)
| Throw (e : JSError).
Arguments Ok {A} a.
Arguments Throw {A} e.

Definition exc_bind {A B : Type} (c : Exc A) (k : A -> Exc B) : Exc B :=
  match c with
  | Ok a => k a
  | Throw e => Throw e
  end.

(** A computation that may draw ids and may throw; the counter survives
    an exception. *)
Definition M (A : Type) : Type := nat -> Exc A * nat.

Definition ret {A : Type} (a : A) : M A := fun n => (Ok a, n).

Definition bind {A B : Type} (c : M A) (k : A -> M B) : M B :=
  fun n =>
    match c n with
    | (Ok a, n') => k a n'
    | (Throw e, n') => (Throw e, n')
    end.

Definition liftExc {A : Type} (c : Exc A) : M A := fun n => (c, n).

Definition throw {A : Type} (e : JSError) : M A := liftExc (Throw e).

(** [try { c } catch (error) { handler }] *)
Definition tryCatch {A : Type} (c : M A) (handler : JSError -> M A) : M A :=
  fun n =>
    match c n with
    | (Ok a, n') => (Ok a, n')
    | (Throw e, n') => handler e n'
    end.

(** *** Values *)

#[warning="-register-all"]
Inductive JSValue : Type :=
| JUndefined
| JNull
| JBool (b : bool)
| JNum (n : JSNumber)
| JStr (s : string)
| JArr (items : list JSValue)
| JObj (props : list (string * JSValue)).

Fixpoint lookup {A : Type} (key : string) (props : list (string * A)) : option A :=
  match props with
  | [] => None
  | (k, v) :: rest => if String.eqb k key then Some v else lookup key rest
  end.

(** [v.key] and [v[key]] for the values a JSON text decodes to.  Reading
    a property of [null] or [undefined] throws; an object answers with
    its own property.  Members that a value inherits from a built-in
    prototype, and the index and [length] members of arrays and strings,
    are not modelled: they read as [undefined] here. *)
Definition getProp (v : JSValue) (key : string) : Exc JSValue :=
  match v with
  | JUndefined | JNull => Throw TypeError
  | JObj props =>
      match lookup key props with
      | Some x => Ok x
      | None => Ok JUndefined
      end
  | _ => Ok JUndefined
  end.

(** Truthiness, as [!v], [v && _] and [v || _] test it. *)
Definition truthy (v : JSValue) : bool :=
  match v with
  | JUndefined | JNull => false
  | JBool b => b
  | JNum NaN => false
  | JNum (Finite x) => negb (Qeq_bool x 0)
  | JNum _ => true
  | JStr s => negb (String.eqb s "")
  | JArr _ | JObj _ => true
  end.

(** [String(v)] / [ToString(v)].  An array joins its elements with a
    comma, [null] and [undefined] elements giving the empty text.  A
    decoded object has no callable member, so one that carries its own
    [toString] cannot be converted and throws. *)
Fixpoint ToString (v : JSValue) : Exc string :=
  match v with
  | JUndefined => Ok "undefined"
  | JNull => Ok "null"
  | JBool true => Ok "true"
  | JBool false => Ok "false"
  | JNum n => Ok (numberToString n)
  | JStr s => Ok s
  | JArr items =>
      (fix joinItems (l : list JSValue) : Exc string :=
         match l with
         | [] => Ok EmptyString
         | x :: rest =>
             exc_bind
               (match x with
                | JUndefined | JNull => Ok EmptyString
                | _ => ToString x
                end)
               (fun a =>
                  match rest with
                  | [] => Ok a
                  | _ => exc_bind (joinItems rest)
                           (fun b => Ok (a ++ "," ++ b)%string)
                  end)
         end) items
  | JObj props =>
      match lookup "toString" props with
      | Some _ => Throw TypeError
      | None => Ok "[object Object]"
      end
  end.

(** [parseFloat(v)]: the argument is converted to a string first. *)
Definition parseFloat (v : JSValue) : Exc JSNumber :=
  exc_bind (ToString v) (fun s => Ok (parseFloatString s)).

(** [v === "text"] *)
Definition strictEqualsString (v : JSValue) (text : string) : bool :=
  match v with
  | JStr s => String.eqb s text
  | _ => false
  end.

(** *** [Map]

    A [Map] keeps its keys in insertion order; [set] on a key that is
    present replaces the value in place. *)
Section MapOps.
Context {K V : Type} (eqb : K -> K -> bool).

Fixpoint map_get (key : K) (m : list (K * V)) : option V :=
  match m with
  | [] => None
  | (k, v) :: rest => if eqb k key then Some v else map_get key rest
  end.

Definition map_has (key : K) (m : list (K * V)) : bool :=
  match map_get key m with Some _ => true | None => false end.

Fixpoint map_set (key : K) (v : V) (m : list (K * V)) : list (K * V) :=
  match m with
  | [] => [(key, v)]
  | (k, old) :: rest =>
      if eqb k key then (k, v) :: rest else (k, old) :: map_set key v rest
  end.

End MapOps.

(** *** What the host provides

    [JSON.parse] ([None]: it throws a [SyntaxError]) and the n-th
    identifier that [uuidv4()] hands out. *)
Class Host : Type := {
  JSON_parse : string -> option JSValue;
  uuidv4 : nat -> string
}.

Definition jsonParse `{Host} (text : string) : Exc JSValue :=
  match JSON_parse text with
  | Some v => Ok v
  | None => Throw SyntaxError
  end.

Definition newId `{Host} : M string := fun n => (Ok (uuidv4 n), S n).

End JS.

Notation "x <- c ;; k" := (JS.bind c (fun x => k))
  (at level 61, c at next level, right associativity).

(** ** utils/commonParserUtils.ts *)

Module InstanceName.
Import JS.

(** [ParsedInstanceNameDetails] (types/unified.ts). *)
Record ParsedInstanceNameDetails : Type := mkParsed {
  numCustomers : option Z;
  numVehicles : option Z;
  problemVariant : option string;
  baseInstanceName : string
}.

Definition knownExtensions : list string := [".vrp"; ".txt"; ".log"; ".html"].

(** [instanceName.replace(/\.(vrp|txt|log|html)$/i, '')] *)
Definition stripExtension (instanceName : string) : string :=
  match find (fun ext => endsWithNoCase ext instanceName) knownExtensions with
  | Some ext => substring 0 (strlen instanceName - strlen ext) instanceName
  | None => instanceName
  end.

(** The two returns after the integer attempt (lines 27-47). *)
Definition fallbackName (nameWithoutExtension : string)
  : ParsedInstanceNameDetails :=
  let lastUnderscoreIndex := lastIndexOf "_" nameWithoutExtension in
  if negb (lastUnderscoreIndex =? -1)%Z
     && (lastUnderscoreIndex <? strlen nameWithoutExtension - 1)%Z
  then
    {| numCustomers := None;
       numVehicles := None;
       problemVariant :=
         Some (substringFrom (lastUnderscoreIndex + 1) nameWithoutExtension);
       baseInstanceName := substring 0 lastUnderscoreIndex nameWithoutExtension |}
  else
    {| numCustomers := None;
       numVehicles := None;
       problemVariant := Some "default";
       baseInstanceName := nameWithoutExtension |}.

(** [parts[i]] followed by [parseInt(_, 10)]: an index past the end reads
    [undefined], whose text has no digit. *)
Definition parseIntAt (parts : list string) (i : nat) : option Z :=
  match nth_error parts i with
  | Some p => parseInt p
  | None => None
  end.

Definition parseGenericInstanceName (instanceName : string)
  : ParsedInstanceNameDetails :=
  let nameWithoutExtension := stripExtension instanceName in
  let parts := split "_" nameWithoutExtension in
  if (2 <=? length parts)%nat
     && negb (isNaN_int (parseIntAt parts 0))
     && negb (isNaN_int (parseIntAt parts 1))
  then
    match parseIntAt parts 0, parseIntAt parts 1 with
    | Some numCustomers, Some numVehicles =>
        {| numCustomers := Some numCustomers;
           numVehicles := Some numVehicles;
           problemVariant :=
             Some (if (3 <=? length parts)%nat
                   then join "_" (skipn 2 parts) else "default");
           baseInstanceName :=
             (intToString numCustomers ++ "_" ++ intToString numVehicles)%string |}
    | _, _ => fallbackName nameWithoutExtension
    end
  else fallbackName nameWithoutExtension.

End InstanceName.


(** ** types/unified.ts *)

Module Unified.
Import JS.

Inductive SourceType : Type := leaderboard | log.

(** [UnifiedDataItem].  [solutionString] holds whatever the log line
    carried under [Solution]; [null] for a leaderboard cell. *)
Record UnifiedDataItem : Type := mkItem {
  id : string;
  sourceName : string;
  entryOwner : string;
  instance : string;
  numCustomers : option Z;
  numVehicles : option Z;
  problemVariant : option string;
  baseInstanceName : string;
  score : option JSNumber;
  time : option JSNumber;
  solutionString : JSValue;
  isUnsolved : bool;
  sourceType : SourceType
}.

Definition UnifiedData : Type := list UnifiedDataItem.

End Unified.

(** ** utils/logParser.ts *)

Module LogParser.
Import JS Unified.

Definition newline : ascii := "010"%char.

(** [logContent.trim().split('\n')] *)
Definition logLines (logContent : string) : list string :=
  split newline (trim logContent).

(** [parseGenericInstanceName(v)] called on a decoded value: the first
    thing the function does is [v.replace(...)], which only a string
    answers; on any other value the call throws a [TypeError]. *)
Definition parseGenericInstanceNameOf (v : JSValue)
  : Exc (string * InstanceName.ParsedInstanceNameDetails) :=
  match v with
  | JStr name => Ok (name, InstanceName.parseGenericInstanceName name)
  | _ => Throw TypeError
  end.

Section WithHost.
Context `{Host}.

(** The body of the [try] block for one line (lines 10-39): the array
    after the line, or an exception. *)
Definition lineBody (logFilename line : string)
    (unifiedItems : list UnifiedDataItem) : M (list UnifiedDataItem) :=
  if String.eqb (trim line) "" then ret unifiedItems
  else
    logLineEntry <- liftExc (jsonParse line) ;;
    instanceValue <- liftExc (getProp logLineEntry "Instance") ;;
    parsed <- liftExc (parseGenericInstanceNameOf instanceValue) ;;
    let '(instanceName, parsedNameDetails) := parsed in
    scoreStr <- liftExc (getProp logLineEntry "Result") ;;
    timeStr <- liftExc (getProp logLineEntry "Time") ;;
    let isUnsolved :=
      strictEqualsString scoreStr "--" || strictEqualsString timeStr "--" in
    score <- (if isUnsolved then ret None
              else x <- liftExc (parseFloat scoreStr) ;; ret (Some x)) ;;
    time <- (if isUnsolved then ret None
             else x <- liftExc (parseFloat timeStr) ;; ret (Some x)) ;;
    itemId <- newId ;;
    solution <- liftExc (getProp logLineEntry "Solution") ;;
    let item :=
      {| id := itemId;
         sourceName := logFilename;
         entryOwner := logFilename;
         instance := instanceName;
         numCustomers := InstanceName.numCustomers parsedNameDetails;
         numVehicles := InstanceName.numVehicles parsedNameDetails;
         problemVariant := InstanceName.problemVariant parsedNameDetails;
         baseInstanceName := InstanceName.baseInstanceName parsedNameDetails;
         score := score;
         time := time;
         solutionString := solution;
         isUnsolved := isUnsolved;
         sourceType := log |} in
    ret (unifiedItems ++ [item]).

(** [for (const line of lines) { try { ... } catch (error) { ... } }] *)
Fixpoint forLines (logFilename : string) (lines : list string)
    (unifiedItems : list UnifiedDataItem) : M (list UnifiedDataItem) :=
  match lines with
  | [] => ret unifiedItems
  | line :: rest =>
      unifiedItems' <-
        tryCatch (lineBody logFilename line unifiedItems)
                 (fun _ => ret unifiedItems) ;;
      forLines logFilename rest unifiedItems'
  end.

Definition parseLogEntries (logContent logFilename : string)
  : M (list UnifiedDataItem) :=
  forLines logFilename (logLines logContent) [].

End WithHost.
End LogParser.

(** ** utils/leaderboardParser.ts *)

Module LeaderboardParser.
Import JS Unified.

Fixpoint spanClass (inClass : ascii -> bool) (s : string) : string * string :=
  match s with
  | EmptyString => (EmptyString, EmptyString)
  | String c r =>
      if inClass c
      then let (run, rest) := spanClass inClass r in (String c run, rest)
      else (EmptyString, s)
  end.

(** The class [[\d.]] *)
Definition isDigitOrDot (c : ascii) : bool := isDigit c || Ascii.eqb c ".".

(** The class [[\d.-]] *)
Definition isScoreChar (c : ascii) : bool :=
  isDigit c || Ascii.eqb c "." || Ascii.eqb c "-".

(** [--\s*\[([\d.]+)\]] matched at the start of [s]: group 1. *)
Definition unsolvedTimeAt (s : string) : option string :=
  match s with
  | String "-" (String "-" r) =>
      match trimStart r with
      | String "[" r1 =>
          let (digits, r2) := spanClass isDigitOrDot r1 in
          match digits, r2 with
          | String _ _, String "]" _ => Some digits
          | _, _ => None
          end
      | _ => None
      end
  | _ => None
  end.

(** [s.match(/--\s*\[([\d.]+)\]/)]: group 1 of the leftmost match. *)
Fixpoint matchUnsolvedTime (s : string) : option string :=
  match unsolvedTimeAt s with
  | Some g => Some g
  | None =>
      match s with
      | EmptyString => None
      | String _ r => matchUnsolvedTime r
      end
  end.

(** [s.match(/^([\d.-]+)(?:\s*\[([\d.]+)\])?$/)]: groups 1 and 2. *)
Definition matchScoreTime (s : string) : option (string * option string) :=
  let (g1, r) := spanClass isScoreChar s in
  match g1 with
  | EmptyString => None
  | String _ _ =>
      match r with
      | EmptyString => Some (g1, None)
      | String _ _ =>
          match trimStart r with
          | String "[" r1 =>
              let (digits, r2) := spanClass isDigitOrDot r1 in
              match digits, r2 with
              | String _ _, String "]" EmptyString => Some (g1, Some digits)
              | _, _ => None
              end
          | _ => None
          end
      end
  end.

(** The three variables a cell sets (lines 80-109). *)
Record CellOutcome : Type := mkCell {
  cellScore : option JSNumber;
  cellTime : option JSNumber;
  cellIsUnsolved : bool
}.

Definition parseCell (cellContentStr : string) : CellOutcome :=
  if String.eqb cellContentStr "--" || String.eqb cellContentStr ""
     || startsWith "-- [" cellContentStr
  then
    {| cellScore := None;
       cellTime :=
         match matchUnsolvedTime cellContentStr with
         | Some g => Some (parseFloatString g)
         | None => None
         end;
       cellIsUnsolved := true |}
  else
    match matchScoreTime cellContentStr with
    | Some (g1, g2) =>
        {| cellScore := Some (parseFloatString g1);
           cellTime :=
             match g2 with
             | Some g => Some (parseFloatString g)
             | None => None
             end;
           cellIsUnsolved := false |}
    | None =>
        {| cellScore := None; cellTime := None; cellIsUnsolved := true |}
    end.

Definition knownNonProblemColumns : list string :=
  ["Total time"; "Rank"; "Submission Name"; "Avg Time"; "Submissions";
   "Problems Solved"; "name"; "assignment_submission_id"].

(** [knownNonProblemColumns.includes(v)] *)
Definition includesValue (l : list string) (v : JSValue) : bool :=
  match v with
  | JStr s => existsb (String.eqb s) l
  | _ => false
  end.

(** [entryOwner] is a string in [UnifiedDataItem]; the interface of a
    leaderboard entry declares [name: string].  A decoded name that is
    truthy and of another type is kept by the code as it is; the model
    keeps its text. *)
Definition ownerText (participantName : JSValue) : string :=
  match ToString participantName with
  | Ok text => text
  | Throw _ => "[object Object]"
  end.

Fixpoint mapExc {A B : Type} (f : A -> Exc B) (l : list A) : Exc (list B) :=
  match l with
  | [] => Ok []
  | x :: rest =>
      exc_bind (f x) (fun y => exc_bind (mapExc f rest) (fun ys => Ok (y :: ys)))
  end.

(** The selector [div[data-react-class="Leaderboard"]]. *)
Definition leaderboardSelector : string :=
  ("div[data-react-class=" ++ String "034" "Leaderboard" ++ String "034" "]")%string.

(** The document interface: [querySelector html sel] is
    [new DOMParser().parseFromString(html, "text/html").querySelector(sel)]. *)
Class Dom : Type := {
  Element : Type;
  querySelector : string -> string -> option Element;
  getAttribute : Element -> string -> option string
}.

Section WithHost.
Context `{Host}.

(** The callback of the inner [forEach] (lines 73-127) for one column. *)
Definition cellBody (sourceFileName : string) (participantName entry : JSValue)
    (problemInstance : JSValue) (unifiedItems : list UnifiedDataItem)
  : M (list UnifiedDataItem) :=
  key <- liftExc (ToString problemInstance) ;;
  cellContent <- liftExc (getProp entry key) ;;
  match cellContent with
  | JUndefined | JNull => ret unifiedItems
  | _ =>
      parsed <- liftExc (LogParser.parseGenericInstanceNameOf problemInstance) ;;
      let '(instanceName, parsedNameDetails) := parsed in
      text <- liftExc (ToString cellContent) ;;
      let cellContentStr := trim text in
      let outcome := parseCell cellContentStr in
      itemId <- newId ;;
      let item :=
        {| id := itemId;
           sourceName := sourceFileName;
           entryOwner := ownerText participantName;
           instance := instanceName;
           numCustomers := InstanceName.numCustomers parsedNameDetails;
           numVehicles := InstanceName.numVehicles parsedNameDetails;
           problemVariant := InstanceName.problemVariant parsedNameDetails;
           baseInstanceName := InstanceName.baseInstanceName parsedNameDetails;
           score := cellScore outcome;
           time := cellTime outcome;
           solutionString := JNull;
           isUnsolved := cellIsUnsolved outcome;
           sourceType := leaderboard |} in
      ret (unifiedItems ++ [item])
  end.

(** [problemInstanceColumns.forEach(...)] *)
Fixpoint forColumns (sourceFileName : string) (participantName entry : JSValue)
    (problemInstanceColumns : list JSValue)
    (unifiedItems : list UnifiedDataItem) : M (list UnifiedDataItem) :=
  match problemInstanceColumns with
  | [] => ret unifiedItems
  | problemInstance :: rest =>
      unifiedItems' <-
        cellBody sourceFileName participantName entry problemInstance
                 unifiedItems ;;
      forColumns sourceFileName participantName entry rest unifiedItems'
  end.

(** [entries.forEach(...)] *)
Fixpoint forEntries (sourceFileName : string)
    (problemInstanceColumns : list JSValue) (entries : list JSValue)
    (unifiedItems : list UnifiedDataItem) : M (list UnifiedDataItem) :=
  match entries with
  | [] => ret unifiedItems
  | entry :: rest =>
      nameValue <- liftExc (getProp entry "name") ;;
      let participantName :=
        if truthy nameValue then nameValue else JStr "Unknown Participant" in
      unifiedItems' <-
        forColumns sourceFileName participantName entry
                   problemInstanceColumns unifiedItems ;;
      forEntries sourceFileName problemInstanceColumns rest unifiedItems'
  end.

(** Lines 48-130: from the text of the [data-react-props] attribute on. *)
Definition parseLeaderboardProps (reactPropsJson sourceFileName : string)
  : M (list UnifiedDataItem) :=
  match JSON_parse reactPropsJson with
  | None => ret []
  | Some leaderboardData =>
      columns <- liftExc (getProp leaderboardData "columns") ;;
      entries <- liftExc (getProp leaderboardData "entries") ;;
      match columns, entries with
      | JArr columns, JArr entries =>
          names <- liftExc (mapExc (fun col => getProp col "name") columns) ;;
          let problemInstanceColumns :=
            filter (fun name =>
                      truthy name
                      && negb (includesValue knownNonProblemColumns name))
                   names in
          forEntries sourceFileName problemInstanceColumns entries []
      | _, _ => ret []
      end
  end.

Context `{Dom}.

(** [sourceFileName] is an optional parameter with a default. *)
Definition parseLeaderboardHtmlToUnifiedData (html : string)
    (sourceFileName : option string) : M (list UnifiedDataItem) :=
  let sourceFileName :=
    match sourceFileName with
    | Some name => name
    | None => "leaderboard.html"
    end in
  match querySelector html leaderboardSelector with
  | None => ret []
  | Some leaderboardDiv =>
      match getAttribute leaderboardDiv "data-react-props" with
      | None => ret []
      | Some reactPropsJson =>
          if String.eqb reactPropsJson "" then ret []
          else parseLeaderboardProps reactPropsJson sourceFileName
      end
  end.

End WithHost.
End LeaderboardParser.

(** ** utils/unifiedAnalysis.ts *)

Module UnifiedAnalysis.
Import JS Unified.

(** The value type of [bySize]: [{ score, count }]. *)
Record SizeStats : Type := mkSizeStats {
  sizeScore : JSNumber;
  sizeCount : nat
}.

Record OwnerMetrics : Type := mkMetrics {
  totalScore : JSNumber;
  avgScore : JSNumber;
  solvedCount : nat;
  totalProblems : nat;
  bestSolutions : nat;
  bySize : list (Z * SizeStats)
}.

Definition OwnerMap : Type := list (string * OwnerMetrics).
Definition BestMap : Type := list (string * JSNumber).

Definition newOwnerMetrics : OwnerMetrics :=
  {| totalScore := zero; avgScore := zero; solvedCount := 0;
     totalProblems := 0; bestSolutions := 0; bySize := [] |}.

(** [!item.isUnsolved && item.score !== null], with the score it then
    reads. *)
Definition solvedScore (item : UnifiedDataItem) : option JSNumber :=
  if negb (isUnsolved item) then score item else None.

(** Lines 57-66: the size bucket of a solved record. *)
Definition addToSize (item : UnifiedDataItem) (itemScore : JSNumber)
    (sizes : list (Z * SizeStats)) : list (Z * SizeStats) :=
  match Unified.numCustomers item with
  | Some size =>
      let sizes :=
        if negb (map_has Z.eqb size sizes)
        then map_set Z.eqb size {| sizeScore := zero; sizeCount := 0 |} sizes
        else sizes in
      match map_get Z.eqb size sizes with
      | Some sizeStats =>
          map_set Z.eqb size
            {| sizeScore := num_add (sizeScore sizeStats) itemScore;
               sizeCount := S (sizeCount sizeStats) |} sizes
      | None => sizes
      end
  | None => sizes
  end.

(** Lines 52-55: the running best score of an instance. *)
Definition updateBest (inst : string) (itemScore : JSNumber)
    (instanceBestScores : BestMap) : BestMap :=
  if negb (map_has String.eqb inst instanceBestScores)
     || match map_get String.eqb inst instanceBestScores with
        | Some best => num_ltb itemScore best
        | None => false
        end
  then map_set String.eqb inst itemScore instanceBestScores
  else instanceBestScores.

(** What one record does to the metrics object of its owner (lines
    45-51 and 57-66). *)
Definition accumulate (item : UnifiedDataItem) (performance : OwnerMetrics)
  : OwnerMetrics :=
  match solvedScore item with
  | Some itemScore =>
      {| totalScore := num_add (totalScore performance) itemScore;
         avgScore := avgScore performance;
         solvedCount := S (solvedCount performance);
         totalProblems := S (totalProblems performance);
         bestSolutions := bestSolutions performance;
         bySize := addToSize item itemScore (bySize performance) |}
  | None =>
      {| totalScore := totalScore performance;
         avgScore := avgScore performance;
         solvedCount := solvedCount performance;
         totalProblems := S (totalProblems performance);
         bestSolutions := bestSolutions performance;
         bySize := bySize performance |}
  end.

(** The body of the first loop (lines 28-68).  The metrics object is
    mutated in place in the source; here it is written back under its
    key, which keeps its position in the map. *)
Definition firstPassStep (st : OwnerMap * BestMap) (item : UnifiedDataItem)
  : OwnerMap * BestMap :=
  let '(ownerPerformance, instanceBestScores) := st in
  let owner := entryOwner item in
  let inst := instance item in
  let ownerPerformance :=
    if negb (map_has String.eqb owner ownerPerformance)
    then map_set String.eqb owner newOwnerMetrics ownerPerformance
    else ownerPerformance in
  let performance :=
    match map_get String.eqb owner ownerPerformance with
    | Some performance => performance
    | None => newOwnerMetrics
    end in
  (map_set String.eqb owner (accumulate item performance) ownerPerformance,
   match solvedScore item with
   | Some itemScore => updateBest inst itemScore instanceBestScores
   | None => instanceBestScores
   end).

Definition firstPass (data : UnifiedData) : OwnerMap * BestMap :=
  fold_left firstPassStep data ([], []).

(** Lines 81-86: one iteration of the inner loop of the second pass. *)
Definition countIfBest (instanceBestScores : BestMap) (owner : string)
    (count : nat) (item : UnifiedDataItem) : nat :=
  if String.eqb (entryOwner item) owner then
    match solvedScore item with
    | Some itemScore =>
        match map_get String.eqb (instance item) instanceBestScores with
        | Some best => if num_eqb itemScore best then S count else count
        | None => count
        end
    | None => count
    end
  else count.

(** The body of the second loop (lines 71-88) for one owner. *)
Definition secondPassStep (data : UnifiedData) (instanceBestScores : BestMap)
    (entry : string * OwnerMetrics) : string * OwnerMetrics :=
  let '(owner, performance) := entry in
  (owner,
   {| totalScore := totalScore performance;
      avgScore :=
        if 0 <? solvedCount performance
        then num_div (totalScore performance)
                     (num_of_nat (solvedCount performance))
        else PosInfinity;
      solvedCount := solvedCount performance;
      totalProblems := totalProblems performance;
      bestSolutions :=
        fold_left (countIfBest instanceBestScores owner) data
                  (bestSolutions performance);
      bySize := bySize performance |}).

Definition calculateUnifiedMetrics (data : UnifiedData) : OwnerMap :=
  let '(ownerPerformance, instanceBestScores) := firstPass data in
  map (secondPassStep data instanceBestScores) ownerPerformance.

Definition GroupedByInstance : Type :=
  list (string * list (string * UnifiedDataItem)).

Definition groupStep (groupedData : GroupedByInstance) (item : UnifiedDataItem)
  : GroupedByInstance :=
  let inst := instance item in
  let owner := entryOwner item in
  let groupedData :=
    if negb (map_has String.eqb inst groupedData)
    then map_set String.eqb inst [] groupedData
    else groupedData in
  match map_get String.eqb inst groupedData with
  | Some ownerMap =>
      map_set String.eqb inst (map_set String.eqb owner item ownerMap)
              groupedData
  | None => groupedData
  end.

Definition groupUnifiedDataByInstance (data : UnifiedData) : GroupedByInstance :=
  fold_left groupStep data [].

End UnifiedAnalysis.

(** ** components/UnifiedInsights.tsx: [findProblemOutliers] *)

Module UnifiedInsights.
Import JS Unified.

Record Outlier : Type := mkOutlier {
  outlierInstance : string;
  observation : string
}.

(** Lines 181-190: who solved the instance (with which score), who did
    not. *)
Definition splitOwners (ownerMap : list (string * UnifiedDataItem))
  : list (string * JSNumber) * list string :=
  fold_left
    (fun (acc : list (string * JSNumber) * list string)
         (entry : string * UnifiedDataItem) =>
       let '(solvedScores, unsolvedOwners) := acc in
       let '(owner, data) := entry in
       match (if isUnsolved data then None else score data) with
       | None => (solvedScores, unsolvedOwners ++ [owner])
       | Some itemScore =>
           (map_set String.eqb owner itemScore solvedScores, unsolvedOwners)
       end)
    ownerMap ([], []).

(** Lines 203-217: best and worst score with their owners. *)
Definition bestAndWorst (solvedScores : list (string * JSNumber))
  : (JSNumber * string) * (JSNumber * string) :=
  fold_left
    (fun (acc : (JSNumber * string) * (JSNumber * string))
         (entry : string * JSNumber) =>
       let '((bestResult, bestOwner), (worstResult, worstOwner)) := acc in
       let '(owner, itemScore) := entry in
       let best' := if num_ltb itemScore bestResult
                    then (itemScore, owner) else (bestResult, bestOwner) in
       let worst' := if num_gtb itemScore worstResult
                     then (itemScore, owner) else (worstResult, worstOwner) in
       (best', worst'))
    solvedScores ((PosInfinity, EmptyString), (NegInfinity, EmptyString)).

(** The body of the loop over [instanceMap.entries()] (lines 177-229):
    the observation pushed for one instance, if any. *)
Definition observe (inst : string) (ownerMap : list (string * UnifiedDataItem))
  : option Outlier :=
  if length ownerMap <? 2 then None
  else
    let '(solvedScores, unsolvedOwners) := splitOwners ownerMap in
    if (0 <? length solvedScores) && (0 <? length unsolvedOwners) then
      Some {| outlierInstance := inst;
              observation :=
                ("Solved by: " ++ join ", " (map fst solvedScores)
                 ++ ". Unsolved by: " ++ join ", " unsolvedOwners ++ ".")%string |}
    else if (length solvedScores =? length ownerMap)
            && (1 <? length solvedScores) then
      let '((bestResult, bestOwner), (worstResult, worstOwner)) :=
        bestAndWorst solvedScores in
      let gap :=
        if num_gtb bestResult zero
        then num_div (num_sub worstResult bestResult) bestResult
        else if num_gtb worstResult zero then PosInfinity else zero in
      if num_gtb gap (Finite (1 # 5))
         || (num_eqb bestResult zero && num_gtb worstResult (Finite 10))
      then
        Some {| outlierInstance := inst;
                observation :=
                  (bestOwner ++ " (Score: " ++ toFixed2 bestResult
                   ++ ") performed significantly better than " ++ worstOwner
                   ++ " (Score: " ++ toFixed2 worstResult ++ ").")%string |}
      else None
    else None.

Fixpoint collect (instanceMap : UnifiedAnalysis.GroupedByInstance)
  : list Outlier :=
  match instanceMap with
  | [] => []
  | (inst, ownerMap) :: rest =>
      match observe inst ownerMap with
      | Some o => o :: collect rest
      | None => collect rest
      end
  end.

(** The grouping loop (lines 168-173) is the one of
    [groupUnifiedDataByInstance]. *)
Definition findProblemOutliers (unifiedData : UnifiedData)
    (owners : list string) : list Outlier :=
  let instanceMap := fold_left UnifiedAnalysis.groupStep unifiedData [] in
  let outliers := collect instanceMap in
  firstn 5 outliers.

End UnifiedInsights.

(** ** components/UnifiedInsights.tsx: the four insights *)

Module Insights.
Import JS Unified UnifiedAnalysis.

(** The variables that the loop over the metrics updates (lines 21-28). *)
Record Selection : Type := mkSelection {
  bestQualitySolver : string;
  bestAvgScore : JSNumber;
  mostBestSolutionsSolver : string;
  highestBestSolutionsCount : Z;
  bestLargeSolver : string;
  bestLargeScore : JSNumber;
  bestSmallSolver : string;
  bestSmallScore : JSNumber
}.

Definition initialSelection : Selection :=
  {| bestQualitySolver := "";
     bestAvgScore := PosInfinity;
     mostBestSolutionsSolver := "";
     highestBestSolutionsCount := (-1)%Z;
     bestLargeSolver := "";
     bestLargeScore := PosInfinity;
     bestSmallSolver := "";
     bestSmallScore := PosInfinity |}.

Definition largeThreshold : Z := 200.
Definition smallThreshold : Z := 50.

(** Lines 46-59: score total and count over the large sizes, and over
    the small ones. *)
Definition sizeTotals (sizes : list (Z * SizeStats))
  : (JSNumber * nat) * (JSNumber * nat) :=
  fold_left
    (fun (acc : (JSNumber * nat) * (JSNumber * nat)) (entry : Z * SizeStats) =>
       let '((largeScoreTotal, largeCount), (smallScoreTotal, smallCount)) :=
         acc in
       let '(size, stats) := entry in
       if (largeThreshold <=? size)%Z then
         ((num_add largeScoreTotal (sizeScore stats),
           largeCount + sizeCount stats),
          (smallScoreTotal, smallCount))
       else if (size <? smallThreshold)%Z then
         ((largeScoreTotal, largeCount),
          (num_add smallScoreTotal (sizeScore stats),
           smallCount + sizeCount stats))
       else acc)
    sizes ((zero, 0), (zero, 0)).

(** The callback of [metrics.forEach] (lines 32-75). *)
Definition selectStep (sel : Selection) (entry : string * OwnerMetrics)
  : Selection :=
  let '(owner, data) := entry in
  let quality := num_ltb (avgScore data) (bestAvgScore sel) in
  let most :=
    (highestBestSolutionsCount sel <? Z.of_nat (bestSolutions data))%Z in
  let '((largeScoreTotal, largeCount), (smallScoreTotal, smallCount)) :=
    sizeTotals (bySize data) in
  let avgLarge := num_div largeScoreTotal (num_of_nat largeCount) in
  let avgSmall := num_div smallScoreTotal (num_of_nat smallCount) in
  let large := (0 <? largeCount) && num_ltb avgLarge (bestLargeScore sel) in
  let small := (0 <? smallCount) && num_ltb avgSmall (bestSmallScore sel) in
  {| bestQualitySolver := if quality then owner else bestQualitySolver sel;
     bestAvgScore := if quality then avgScore data else bestAvgScore sel;
     mostBestSolutionsSolver :=
       if most then owner else mostBestSolutionsSolver sel;
     highestBestSolutionsCount :=
       if most then Z.of_nat (bestSolutions data)
       else highestBestSolutionsCount sel;
     bestLargeSolver := if large then owner else bestLargeSolver sel;
     bestLargeScore := if large then avgLarge else bestLargeScore sel;
     bestSmallSolver := if small then owner else bestSmallSolver sel;
     bestSmallScore := if small then avgSmall else bestSmallScore sel |}.

Definition select (metrics : OwnerMap) : Selection :=
  fold_left selectStep metrics initialSelection.

Record Insight : Type := mkInsight {
  title : string;
  description : string;
  detail : string
}.

(** Lines 77-104.  A solver name is tested by truthiness. *)
Definition calculatedInsights (sel : Selection) : list Insight :=
  [ {| title := "Best Overall Solution Quality";
       description :=
         if negb (String.eqb (bestQualitySolver sel) "") then
           (bestQualitySolver sel ++ " has the lowest average score ("
            ++ toFixed2 (bestAvgScore sel) ++ ").")%string
         else "N/A";
       detail := "This participant/solver produced the best quality solutions on average." |};
    {| title := "Most Best Solutions";
       description :=
         if negb (String.eqb (mostBestSolutionsSolver sel) "") then
           (mostBestSolutionsSolver sel ++ " found the most best solutions ("
            ++ intToString (highestBestSolutionsCount sel) ++ ").")%string
         else "N/A";
       detail := "This participant/solver most frequently found the optimal solution among all competitors." |};
    {| title := ("Best on Large Problems (>=" ++ intToString largeThreshold
                 ++ " Cust.)")%string;
       description :=
         if negb (String.eqb (bestLargeSolver sel) "") then
           (bestLargeSolver sel
            ++ " performs best on large problems (avg. score: "
            ++ toFixed2 (bestLargeScore sel) ++ ").")%string
         else "No data available for large problems.";
       detail := "Comparing average solution quality only on large instances." |};
    {| title := ("Best on Small Problems (<" ++ intToString smallThreshold
                 ++ " Cust.)")%string;
       description :=
         if negb (String.eqb (bestSmallSolver sel) "") then
           (bestSmallSolver sel
            ++ " performs best on small problems (avg. score: "
            ++ toFixed2 (bestSmallScore sel) ++ ").")%string
         else "No data available for small problems.";
       detail := "Comparing average solution quality only on small instances." |} ].

(** The [insights] of the component (lines 13-16 and 109). *)
Definition insights (unifiedData : UnifiedData) : list Insight :=
  let metrics := calculateUnifiedMetrics unifiedData in
  if length metrics =? 0 then []
  else calculatedInsights (select metrics).

End Insights.

(** ** app/page.tsx: the record store *)

Module Page.
Import JS Unified.

(** The three pieces of state of [Home].  The record store is
    [masterData]; the effect hook that adds the owners of new records to
    [ownerVisibility] after a render is not part of the two handlers. *)
Record State : Type := mkState {
  masterData : list UnifiedDataItem;
  error : option string;
  ownerVisibility : list (string * bool)
}.

Definition initialState : State :=
  {| masterData := []; error := None; ownerVisibility := [] |}.

Definition handleDataUpdate (newData : list UnifiedDataItem) (st : State)
  : State :=
  {| masterData := masterData st ++ newData;
     error := None;
     ownerVisibility := ownerVisibility st |}.

(** [sourceNameToClear?: string]: [None] is a call without argument.
    The test [if (sourceNameToClear)] is one of truthiness, which the
    empty string fails as [undefined] does. *)
Definition handleDataCleared (sourceNameToClear : option string) (st : State)
  : State :=
  match sourceNameToClear with
  | Some name =>
      if negb (String.eqb name "") then
        {| masterData :=
             filter (fun item => negb (String.eqb (sourceName item) name))
                    (masterData st);
           error := None;
           ownerVisibility := ownerVisibility st |}
      else {| masterData := []; error := None; ownerVisibility := [] |}
  | None => {| masterData := []; error := None; ownerVisibility := [] |}
  end.

End Page.

(** ** app/page.tsx: the owners and their visibility *)

Module PageView.
Import JS Unified Page.

(** [new Set(xs)] keeps the first occurrence of each value, in order;
    [Array.from] lists them. *)
Definition setAdd (s : list string) (x : string) : list string :=
  if existsb (String.eqb x) s then s else s ++ [x].

Definition arrayFromSet (xs : list string) : list string :=
  fold_left setAdd xs [].

(** [xs.sort()] without a comparator orders strings by their code
    units.  The values sorted here are pairwise distinct, so the result
    is the same for every sorting algorithm; insertion is used. *)
Fixpoint insertSorted (x : string) (l : list string) : list string :=
  match l with
  | [] => [x]
  | y :: rest =>
      if String.leb x y then x :: l else y :: insertSorted x rest
  end.

Definition sort (l : list string) : list string :=
  fold_right insertSorted [] l.

(** Lines 69-72. *)
Definition uniqueOwners (masterData : list UnifiedDataItem) : list string :=
  sort (arrayFromSet (map entryOwner masterData)).

(** The updater of the effect (lines 75-86): owners without an entry
    are added as visible, entries that exist are kept. *)
Definition addNewOwners (uniqueOwners : list string)
    (prevVisibility : list (string * bool)) : list (string * bool) :=
  fold_left
    (fun newVisibility owner =>
       if negb (map_has String.eqb owner newVisibility)
       then map_set String.eqb owner true newVisibility
       else newVisibility)
    uniqueOwners prevVisibility.

(** The state once the effect that follows a change of [masterData] has
    run.  The effect depends on [uniqueOwners] only, and running it
    again changes nothing. *)
Definition afterEffect (st : State) : State :=
  {| masterData := masterData st;
     error := error st;
     ownerVisibility :=
       addNewOwners (uniqueOwners (masterData st)) (ownerVisibility st) |}.

(** [!prev.get(owner)]: an owner without entry reads [undefined]. *)
Definition notFlag (flag : option bool) : bool :=
  match flag with
  | Some b => negb b
  | None => true
  end.

(** The updater of [toggleOwnerVisibility] (lines 112-116). *)
Definition toggleFlag (owner : string) (prev : list (string * bool))
  : list (string * bool) :=
  map_set String.eqb owner (notFlag (map_get String.eqb owner prev)) prev.

Definition toggleOwnerVisibility (owner : string) (st : State) : State :=
  {| masterData := masterData st;
     error := error st;
     ownerVisibility := toggleFlag owner (ownerVisibility st) |}.

(** [ownerVisibility.get(owner) !== false] *)
Definition notHidden (ownerVisibility : list (string * bool)) (owner : string)
  : bool :=
  match map_get String.eqb owner ownerVisibility with
  | Some false => false
  | _ => true
  end.

(** Lines 119-126. *)
Definition visibleData (masterData : list UnifiedDataItem)
    (ownerVisibility : list (string * bool)) (uniqueOwners : list string)
  : list UnifiedDataItem :=
  if (length ownerVisibility =? 0) && (0 <? length uniqueOwners)
  then masterData
  else filter (fun item => notHidden ownerVisibility (entryOwner item))
              masterData.

(** What the page hands to [UnifiedAnalysisDisplay] in a state. *)
Definition shown (st : State) : list UnifiedDataItem :=
  visibleData (masterData st) (ownerVisibility st)
              (uniqueOwners (masterData st)).

End PageView.

(** ** components/CombinedFileUploader.tsx: [processFile] *)

Module Uploader.
Import JS Unified.

(** [s.endsWith(suffix)] *)
Definition endsWith (suffix s : string) : bool :=
  String.prefix (reverse suffix) (reverse s).

(** ['log' | 'html' | 'unknown'] *)
Inductive SourceKind : Type := kindLog | kindHtml | kindUnknown.

(** ['pending' | 'parsing' | 'success' | 'error'] *)
Inductive Status : Type := pending | parsing | success | error.

(** A [File] as far as [processFile] uses it: its name, and what
    [file.text()] resolves to, or the error it rejects with. *)
Record File : Type := mkFile {
  name : string;
  text : Exc string
}.

Record UploadedSource : Type := mkSource {
  file : File;
  status : Status;
  type : SourceKind;
  data : list UnifiedDataItem;
  errorMessage : option string
}.

(** [error instanceof Error ? error.message : String(error)]: the text
    of an error is the host's. *)
Class ErrorText : Type := {
  messageOf : JSError -> string
}.

(** [errorMessage ? _ : _]: [undefined] and the empty text are falsy. *)
Definition truthyText (t : option string) : bool :=
  match t with
  | Some s => negb (String.eqb s "")
  | None => false
  end.

Section WithHost.
Context `{Host} `{LeaderboardParser.Dom} `{ErrorText}.

(** One of the two [try] blocks (lines 35-43 and 46-54): the values of
    [data] and [errorMessage] after it.  When the parser throws, [data]
    keeps its initial value. *)
Definition tryParse (parse : string -> M (list UnifiedDataItem))
    (emptyMessage : string) (file : File)
  : M (list UnifiedDataItem * option string) :=
  tryCatch
    (content <- liftExc (text file) ;;
     data <- parse content ;;
     ret (data, if length data =? 0 then Some emptyMessage else None))
    (fun e => ret ([], Some ("Failed to parse: " ++ messageOf e)%string)).

(** Lines 27-66. *)
Definition processFile (file : File) : M UploadedSource :=
  let sourceName := name file in
  if endsWith ".log" sourceName then
    r <- tryParse (fun content => LogParser.parseLogEntries content sourceName)
                  "No valid entries found" file ;;
    ret {| file := file;
           status := if truthyText (snd r) then error else success;
           type := kindLog;
           data := fst r;
           errorMessage := snd r |}
  else if endsWith ".html" sourceName || endsWith ".htm" sourceName then
    r <- tryParse
           (fun content =>
              LeaderboardParser.parseLeaderboardHtmlToUnifiedData
                content (Some sourceName))
           "No valid leaderboard data found" file ;;
    ret {| file := file;
           status := if truthyText (snd r) then error else success;
           type := kindHtml;
           data := fst r;
           errorMessage := snd r |}
  else
    ret {| file := file;
           status := if truthyText (Some "Unsupported file type")
                     then error else success;
           type := kindUnknown;
           data := [];
           errorMessage := Some "Unsupported file type" |}.

End WithHost.
End Uploader.

(** ** components/UnifiedPerformanceChart.tsx: the data of the charts *)

Module Chart.
Import JS Unified.

(** [a * b] *)
Definition num_mul (a b : JSNumber) : JSNumber :=
  match a, b with
  | NaN, _ | _, NaN => NaN
  | Finite x, Finite y => Finite (Qred (x * y))
  | Finite x, other | other, Finite x =>
      if Qeq_bool x 0 then NaN
      else if xorb (num_sign_negative other) (negb (Qle_bool 0 x))
           then NegInfinity else PosInfinity
  | PosInfinity, PosInfinity | NegInfinity, NegInfinity => PosInfinity
  | PosInfinity, NegInfinity | NegInfinity, PosInfinity => NegInfinity
  end.

(** One row of [solverComparisonData] (lines 73-86). *)
Record ComparisonRow : Type := mkRow {
  owner : string;
  avgScore : option JSNumber;
  solvedCount : nat;
  totalProblems : nat;
  solvedRatio : JSNumber;
  bestSolutions : nat;
  bestSolutionsPercent : JSNumber
}.

(** [(part / whole) * 100] when [whole > 0], else [0]. *)
Definition percent (part whole : nat) : JSNumber :=
  if 0 <? whole
  then num_mul (num_div (num_of_nat part) (num_of_nat whole)) (Finite 100)
  else zero.

Definition comparisonRow (ownerName : string)
    (data : UnifiedAnalysis.OwnerMetrics) : ComparisonRow :=
  {| owner := ownerName;
     avgScore :=
       if num_eqb (UnifiedAnalysis.avgScore data) PosInfinity then None
       else Some (UnifiedAnalysis.avgScore data);
     solvedCount := UnifiedAnalysis.solvedCount data;
     totalProblems := UnifiedAnalysis.totalProblems data;
     solvedRatio :=
       percent (UnifiedAnalysis.solvedCount data)
               (UnifiedAnalysis.totalProblems data);
     bestSolutions := UnifiedAnalysis.bestSolutions data;
     bestSolutionsPercent :=
       percent (UnifiedAnalysis.bestSolutions data)
               (UnifiedAnalysis.solvedCount data) |}.

(** [metricsData.get(owner)!]: the assertion has no effect at run time,
    a member read on [undefined] throws. *)
Definition metricsOf (metricsData : UnifiedAnalysis.OwnerMap)
    (ownerName : string) : Exc UnifiedAnalysis.OwnerMetrics :=
  match map_get String.eqb ownerName metricsData with
  | Some data => Ok data
  | None => Throw TypeError
  end.

(** [Array.from(metricsData.keys()).sort()] *)
Definition sortedOwners (metricsData : UnifiedAnalysis.OwnerMap) : list string :=
  PageView.sort (map fst metricsData).

(** [solverComparisonData].  (For empty metrics the component returns
    early with the same empty array.) *)
Definition comparison (metricsData : UnifiedAnalysis.OwnerMap)
  : Exc (list ComparisonRow) :=
  LeaderboardParser.mapExc
    (fun ownerName =>
       exc_bind (metricsOf metricsData ownerName)
                (fun data => Ok (comparisonRow ownerName data)))
    (sortedOwners metricsData).

(** Lines 27-33. *)
Definition colors : list string :=
  ["#8884d8"; "#82ca9d"; "#ffc658"; "#ff8042"; "#0088fe";
   "#00c49f"; "#ffbb28"; "#ff8042"; "#a4de6c"; "#d0ed57"].

Definition generateColor (index : nat) : string :=
  nth (index mod length colors) colors "".

(** One slice of the pie of best solutions. *)
Record Slice : Type := mkSlice {
  sliceName : string;
  sliceValue : nat;
  sliceColor : string
}.

(** [bestSolutionsData] (lines 89-93): one slice per owner, in the order
    of [owners] and with the colour of its index there; slices without
    best solution are then taken out. *)
Definition bestSolutionsData (metricsData : UnifiedAnalysis.OwnerMap)
  : Exc (list Slice) :=
  exc_bind
    (LeaderboardParser.mapExc
       (fun indexed : string * nat =>
          exc_bind (metricsOf metricsData (fst indexed))
                   (fun data =>
                      Ok {| sliceName := fst indexed;
                            sliceValue := UnifiedAnalysis.bestSolutions data;
                            sliceColor := generateColor (snd indexed) |}))
       (combine (sortedOwners metricsData)
                (seq 0 (length (sortedOwners metricsData)))))
    (fun slices => Ok (filter (fun d => 0 <? sliceValue d) slices)).

End Chart.

(** ** A host to run the parsers on: a JSON decoder and a counter of ids *)

Module RefHost.
Import JS.

Definition quote : ascii := "034"%char.

Definition isJsonSpace (c : ascii) : bool :=
  let n := charCode c in (n =? 32) || (n =? 9) || (n =? 10) || (n =? 13).

Fixpoint skipSpace (s : string) : string :=
  match s with
  | EmptyString => EmptyString
  | String c r => if isJsonSpace c then skipSpace r else s
  end.

Definition hexValue (c : ascii) : option nat :=
  let n := charCode c in
  if (48 <=? n) && (n <=? 57) then Some (n - 48)
  else if (65 <=? n) && (n <=? 70) then Some (n - 55)
  else if (97 <=? n) && (n <=? 102) then Some (n - 87)
  else None.

Definition hex4 (a b c d : ascii) : option nat :=
  match hexValue a, hexValue b, hexValue c, hexValue d with
  | Some x, Some y, Some z, Some w => Some (((x * 16 + y) * 16 + z) * 16 + w)
  | _, _, _, _ => None
  end.

Definition consTo (c : ascii) (r : option (string * string))
  : option (string * string) :=
  match r with
  | Some (body, rest) => Some (String c body, rest)
  | None => None
  end.

(** The characters of a string literal after its opening quote, and the
    text after its closing quote.  An escape above [ÿ] names a code
    unit outside the model and is refused. *)
Fixpoint stringBody (s : string) : option (string * string) :=
  match s with
  | EmptyString => None
  | String c r =>
      if Ascii.eqb c quote then Some (EmptyString, r)
      else if Ascii.eqb c "\" then
        match r with
        | String e r' =>
            if Ascii.eqb e quote then consTo quote (stringBody r')
            else if Ascii.eqb e "\" then consTo "\" (stringBody r')
            else if Ascii.eqb e "/" then consTo "/" (stringBody r')
            else if Ascii.eqb e "b" then consTo "008" (stringBody r')
            else if Ascii.eqb e "f" then consTo "012" (stringBody r')
            else if Ascii.eqb e "n" then consTo "010" (stringBody r')
            else if Ascii.eqb e "r" then consTo "013" (stringBody r')
            else if Ascii.eqb e "t" then consTo "009" (stringBody r')
            else if Ascii.eqb e "u" then
              match r' with
              | String h1 (String h2 (String h3 (String h4 r''))) =>
                  match hex4 h1 h2 h3 h4 with
                  | Some n => if n <? 256
                              then consTo (ascii_of_nat n) (stringBody r'')
                              else None
                  | None => None
                  end
              | _ => None
              end
            else None
        | EmptyString => None
        end
      else if charCode c <? 32 then None
      else consTo c (stringBody r)
  end.

Definition startsWithZero (digits : string) : bool :=
  match digits with
  | String "0" (String _ _) => true
  | _ => false
  end.

(** A JSON number: [-? int frac? exp?]. *)
Definition numberLiteral (s : string) : option (JSNumber * string) :=
  let '(negative, s1) :=
    match s with
    | String "-" r => (true, r)
    | _ => (false, s)
    end in
  let (intDigits, r1) := spanDigits s1 in
  if String.eqb intDigits "" || startsWithZero intDigits then None
  else
    let frac :=
      match r1 with
      | String "." r =>
          let (d, r2) := spanDigits r in
          if String.eqb d "" then None else Some (d, r2)
      | _ => Some (EmptyString, r1)
      end in
    match frac with
    | None => None
    | Some (fracDigits, r2) =>
        let expo :=
          match r2 with
          | String c r =>
              if Ascii.eqb c "e" || Ascii.eqb c "E" then
                let '(negExp, r') := splitSign r in
                let (d, r3) := spanDigits r' in
                if String.eqb d "" then None
                else Some ((if negExp then - decimalValue d
                            else decimalValue d)%Z, r3)
              else Some (0%Z, r2)
          | EmptyString => Some (0%Z, r2)
          end in
        match expo with
        | None => None
        | Some (exponent, r3) =>
            let m := decimalValue (intDigits ++ fracDigits)%string in
            Some (Finite (Qred (decimal (if negative then - m else m)%Z
                                        (exponent - strlen fracDigits))), r3)
        end
    end.

(** A key that occurs twice keeps its first place and its last value. *)
Fixpoint setProp (key : string) (v : JSValue) (props : list (string * JSValue))
  : list (string * JSValue) :=
  match props with
  | [] => [(key, v)]
  | (k, old) :: rest =>
      if String.eqb k key then (k, v) :: rest
      else (k, old) :: setProp key v rest
  end.

Fixpoint value (fuel : nat) (s : string) : option (JSValue * string) :=
  match fuel with
  | O => None
  | S f =>
      match skipSpace s with
      | String c r =>
          if Ascii.eqb c "{" then
            match skipSpace r with
            | String "}" r' => Some (JObj [], r')
            | r0 => members f r0 []
            end
          else if Ascii.eqb c "[" then
            match skipSpace r with
            | String "]" r' => Some (JArr [], r')
            | r0 => elements f r0 []
            end
          else if Ascii.eqb c quote then
            match stringBody r with
            | Some (body, r') => Some (JStr body, r')
            | None => None
            end
          else if String.prefix "true" (String c r)
          then Some (JBool true, substringFrom 4 (String c r))
          else if String.prefix "false" (String c r)
          then Some (JBool false, substringFrom 5 (String c r))
          else if String.prefix "null" (String c r)
          then Some (JNull, substringFrom 4 (String c r))
          else
            match numberLiteral (String c r) with
            | Some (n, r') => Some (JNum n, r')
            | None => None
            end
      | EmptyString => None
      end
  end
with elements (fuel : nat) (s : string) (acc : list JSValue)
  : option (JSValue * string) :=
  match fuel with
  | O => None
  | S f =>
      match value f s with
      | Some (v, r) =>
          match skipSpace r with
          | String "," r' => elements f r' (acc ++ [v])
          | String "]" r' => Some (JArr (acc ++ [v]), r')
          | _ => None
          end
      | None => None
      end
  end
with members (fuel : nat) (s : string) (acc : list (string * JSValue))
  : option (JSValue * string) :=
  match fuel with
  | O => None
  | S f =>
      match skipSpace s with
      | String c r =>
          if Ascii.eqb c quote then
            match stringBody r with
            | Some (key, r1) =>
                match skipSpace r1 with
                | String ":" r2 =>
                    match value f r2 with
                    | Some (v, r3) =>
                        match skipSpace r3 with
                        | String "," r4 => members f r4 (setProp key v acc)
                        | String "}" r4 => Some (JObj (setProp key v acc), r4)
                        | _ => None
                        end
                    | None => None
                    end
                | _ => None
                end
            | None => None
            end
          else None
      | EmptyString => None
      end
  end.

(** [JSON.parse(text)]; [None] for a syntax error. *)
Definition decode (text : string) : option JSValue :=
  match value (2 * String.length text + 2) text with
  | Some (v, rest) =>
      match skipSpace rest with
      | EmptyString => Some v
      | _ => None
      end
  | None => None
  end.

Definition natToString (n : nat) : string := intToString (Z.of_nat n).

#[export] Instance host : Host := {
  JSON_parse := decode;
  uuidv4 := fun n => ("id-" ++ natToString n)%string
}.

(** JSON text is written below with an apostrophe where the text has a
    double quote: [q "{'a':1}"] is the text [{"a":1}]. *)
Fixpoint q (s : string) : string :=
  match s with
  | EmptyString => EmptyString
  | String c r => String (if Ascii.eqb c "'" then quote else c) (q r)
  end.

Definition nl : string := String "010" EmptyString.

End RefHost.

(** ** A page and error texts to run the uploader on *)

Module RefPage.
Import JS.

(** The document interface for a page that consists of the Leaderboard
    element alone, the page being given by the text of the element's
    [data-react-props] attribute; no other selector matches. *)
#[export] Instance propsOnly : LeaderboardParser.Dom :=
  {| LeaderboardParser.Element := string;
     LeaderboardParser.querySelector :=
       fun html selector =>
         if String.eqb selector LeaderboardParser.leaderboardSelector
         then Some html else None;
     LeaderboardParser.getAttribute :=
       fun element attribute =>
         if String.eqb attribute "data-react-props" then Some element
         else None |}.

(** Error texts: the name of the error. *)
#[export] Instance errorNames : Uploader.ErrorText :=
  {| Uploader.messageOf :=
       fun e => match e with
                | SyntaxError => "SyntaxError"
                | TypeError => "TypeError"
                end |}.

End RefPage.

(** ** The properties, as predicates on the definitions above *)

Module Props.
Import JS Unified.

(** What a parser call hands back to its caller: the array it returns,
    nothing when it throws. *)
Definition returned {A : Type} (r : Exc (list A) * nat) : list A :=
  match fst r with
  | Ok items => items
  | Throw _ => []
  end.

(** The line is one that [JSON.parse] accepts. *)
Definition decodable `{Host} (line : string) : bool :=
  match JSON_parse line with Some _ => true | None => false end.

(** A record without its identifier. *)
Definition eraseId (item : UnifiedDataItem) : UnifiedDataItem :=
  {| id := "";
     sourceName := sourceName item;
     entryOwner := entryOwner item;
     instance := instance item;
     numCustomers := numCustomers item;
     numVehicles := numVehicles item;
     problemVariant := problemVariant item;
     baseInstanceName := baseInstanceName item;
     score := score item;
     time := time item;
     solutionString := solutionString item;
     isUnsolved := isUnsolved item;
     sourceType := sourceType item |}.

(** The records that one line of a log gives when it is parsed on its
    own: one record, or none when the line is blank or the body throws. *)
Definition lineRecords `{Host} (logFilename line : string)
  : list UnifiedDataItem :=
  map eraseId (returned (LogParser.lineBody logFilename line [] 0)).

(** The body of the loop of [parseLogEntries] throws on the line, be it
    a [SyntaxError] of [JSON.parse] or a [TypeError] on what it decoded. *)
Definition rejected `{Host} (logFilename line : string) : bool :=
  match fst (LogParser.lineBody logFilename line [] 0) with
  | Throw _ => true
  | Ok _ => false
  end.

(** A record is unsolved without a score, or solved with a number as
    score (any number: [NaN] and the infinities included). *)
Definition Consistent (item : UnifiedDataItem) : Prop :=
  (isUnsolved item = true /\ score item = None)
  \/ (isUnsolved item = false /\ exists n, score item = Some n).

(** The same with a finite score in the second case. *)
Definition ConsistentFinite (item : UnifiedDataItem) : Prop :=
  (isUnsolved item = true /\ score item = None)
  \/ (isUnsolved item = false /\ exists x, score item = Some (Finite x)).

(** A plain non-negative integer literal: digits and nothing else. *)
Fixpoint allDigits (s : string) : bool :=
  match s with
  | EmptyString => true
  | String c r => isDigit c && allDigits r
  end.

Definition isPlainNat (s : string) : bool :=
  negb (String.eqb s "") && allDigits s.

(** A text that [parseInt] reads a number from: white space, then an
    optional sign, then a digit, then anything. *)
Inductive IntegerPrefixed : string -> Prop :=
| IP_space (c : ascii) (s : string) :
    isWhiteSpace c = true -> IntegerPrefixed s -> IntegerPrefixed (String c s)
| IP_sign (c d : ascii) (s : string) :
    c = "-"%char \/ c = "+"%char -> isDigit d = true ->
    IntegerPrefixed (String c (String d s))
| IP_digit (d : ascii) (s : string) :
    isDigit d = true -> IntegerPrefixed (String d s).

(** [^--\s*\[([\d.]+)\]$]: group 1 when the whole text matches. *)
Definition matchUnsolvedWithTime (s : string) : option string :=
  match s with
  | String a (String b r) =>
      if Ascii.eqb a "-" && Ascii.eqb b "-" then
        match trimStart r with
        | String c r1 =>
            if Ascii.eqb c "[" then
              let (digits, r2) := LeaderboardParser.spanClass
                                    LeaderboardParser.isDigitOrDot r1 in
              if negb (String.eqb digits "") && String.eqb r2 "]"
              then Some digits else None
            else None
        | EmptyString => None
        end
      else None
  | _ => None
  end.

(** [a <= b] *)
Definition num_leb (a b : JSNumber) : bool := num_ltb a b || num_eqb a b.

(** The scores of the solved records of an instance, in input order. *)
Definition scoresOf (data : UnifiedData) (inst : string) : list JSNumber :=
  flat_map
    (fun item =>
       if String.eqb (instance item) inst then
         match UnifiedAnalysis.solvedScore item with
         | Some s => [s]
         | None => []
         end
       else [])
    data.

(** [item] is solved and no solved record of its instance has a lower
    score: its score is the global minimum of the instance. *)
Definition attainsBest (data : UnifiedData) (item : UnifiedDataItem) : bool :=
  match UnifiedAnalysis.solvedScore item with
  | Some s => forallb (num_leb s) (scoresOf data (instance item))
  | None => false
  end.

(** The records of [owner] whose score is the global minimum of their
    instance. *)
Definition bestRecordsOf (data : UnifiedData) (owner : string)
  : list UnifiedDataItem :=
  filter (fun item => String.eqb (entryOwner item) owner && attainsBest data item)
         data.

(** The distinct instances on which [owner] holds the global minimum. *)
Definition bestInstancesOf (data : UnifiedData) (owner : string) : list string :=
  nodup string_dec (map instance (bestRecordsOf data owner)).





(** The running minimum that the first pass keeps for one instance. *)
Definition stepBest (best : option JSNumber) (s : JSNumber) : option JSNumber :=
  match best with
  | None => Some s
  | Some b => if num_ltb s b then Some s else Some b
  end.

(** The effect of one record on the metrics of the owner [owner]. *)
Definition ownerStep (owner : string) (acc : option UnifiedAnalysis.OwnerMetrics)
    (item : UnifiedDataItem) : option UnifiedAnalysis.OwnerMetrics :=
  if String.eqb (entryOwner item) owner then
    Some (UnifiedAnalysis.accumulate item
            (match acc with
             | Some p => p
             | None => UnifiedAnalysis.newOwnerMetrics
             end))
  else acc.

(** The test of the second pass: the record is one that adds to the
    [bestSolutions] of [owner]. *)
Definition counted (best : UnifiedAnalysis.BestMap) (owner : string)
    (item : UnifiedDataItem) : bool :=
  String.eqb (entryOwner item) owner
  && match UnifiedAnalysis.solvedScore item with
     | Some s =>
         match map_get String.eqb (instance item) best with
         | Some b => num_eqb s b
         | None => false
         end
     | None => false
     end.

End Props.

(** ** Sample data for the worked instances below *)

Module Samples.
Import JS Unified.

Definition unsolvedRecord (source owner inst : string) : UnifiedDataItem :=
  {| id := inst; sourceName := source; entryOwner := owner; instance := inst;
     numCustomers := None; numVehicles := None; problemVariant := None;
     baseInstanceName := inst; score := None; time := None;
     solutionString := JNull; isUnsolved := true; sourceType := log |}.

Definition solvedRecord (source owner inst : string) (s : Q) : UnifiedDataItem :=
  {| id := inst; sourceName := source; entryOwner := owner; instance := inst;
     numCustomers := None; numVehicles := None; problemVariant := None;
     baseInstanceName := inst; score := Some (Finite s); time := None;
     solutionString := JNull; isUnsolved := false; sourceType := leaderboard |}.


(** Two participants tie on [1_1_1.vrp]; a third did not solve it. *)
Definition tieData : UnifiedData :=
  [solvedRecord "lb.html" "Ann" "1_1_1.vrp" 5;
   solvedRecord "lb.html" "Bob" "1_1_1.vrp" 5;
   unsolvedRecord "lb.html" "Cy" "1_1_1.vrp";
   solvedRecord "lb.html" "Bob" "2_1_1.vrp" 7].

(** One line of a solver log, and a log that holds it twice. *)
Definition logLine : string :=
  RefHost.q "{'Instance':'50_5_1.vrp','Time':'12.3','Result':'100.5','Solution':'x'}".

Definition repeatedLog : string := (logLine ++ RefHost.nl ++ logLine)%string.

(** A line for an instance that the solver did not solve. *)
Definition unsolvedLine : string :=
  RefHost.q "{'Instance':'50_5_2.vrp','Time':'--','Result':'--','Solution':''}".

End Samples.

(** ** Further predicates on the definitions above *)

Module Shapes.
Import JS Unified.

(** The four name fields of a record are the ones that
    [parseGenericInstanceName] gives for its [instance]. *)
Definition NamedByInstance (item : UnifiedDataItem) : Prop :=
  let parsed := InstanceName.parseGenericInstanceName (instance item) in
  numCustomers item = InstanceName.numCustomers parsed
  /\ numVehicles item = InstanceName.numVehicles parsed
  /\ problemVariant item = InstanceName.problemVariant parsed
  /\ baseInstanceName item = InstanceName.baseInstanceName parsed.

(** A record as [parseLogEntries] builds it for the file [logFilename]. *)
Definition FromLog (logFilename : string) (item : UnifiedDataItem) : Prop :=
  sourceName item = logFilename
  /\ entryOwner item = logFilename
  /\ sourceType item = log
  /\ NamedByInstance item.

(** A line that is not blank and decodes to an object with texts under
    [Instance], [Result] and [Time]. *)
Definition WellFormedLine `{Host} (line : string)
    (fields : string * string * string) : Prop :=
  let '(name, result, elapsed) := fields in
  String.eqb (trim line) "" = false
  /\ exists props,
       JSON_parse line = Some (JObj props)
       /\ lookup "Instance" props = Some (JStr name)
       /\ lookup "Result" props = Some (JStr result)
       /\ lookup "Time" props = Some (JStr elapsed).

(** What a record shows of the line it was read from. *)
Definition readings (item : UnifiedDataItem)
  : string * option JSNumber * option JSNumber * bool :=
  (instance item, score item, time item, isUnsolved item).

(** The same, computed from the three texts of the line. *)
Definition expectedReadings (fields : string * string * string)
  : string * option JSNumber * option JSNumber * bool :=
  let '(name, result, elapsed) := fields in
  let unsolved := String.eqb result "--" || String.eqb elapsed "--" in
  (name,
   if unsolved then None else Some (parseFloatString result),
   if unsolved then None else Some (parseFloatString elapsed),
   unsolved).

(** The record of a line of the log [logFilename] that decodes to an
    object [props] with the texts [name], [result] and [elapsed] under
    [Instance], [Result] and [Time], without its identifier. *)
Definition logRecord (logFilename : string) (props : list (string * JSValue))
    (name result elapsed : string) : UnifiedDataItem :=
  let parsed := InstanceName.parseGenericInstanceName name in
  let unsolved := String.eqb result "--" || String.eqb elapsed "--" in
  {| id := "";
     sourceName := logFilename;
     entryOwner := logFilename;
     instance := name;
     numCustomers := InstanceName.numCustomers parsed;
     numVehicles := InstanceName.numVehicles parsed;
     problemVariant := InstanceName.problemVariant parsed;
     baseInstanceName := InstanceName.baseInstanceName parsed;
     score := if unsolved then None else Some (parseFloatString result);
     time := if unsolved then None else Some (parseFloatString elapsed);
     solutionString :=
       match lookup "Solution" props with
       | Some v => v
       | None => JUndefined
       end;
     isUnsolved := unsolved;
     sourceType := log |}.

(** What a line of a log is to give: nothing when it is blank, fails
    to decode, or makes the body of the loop throw for another reason;
    its one record when it is well formed. *)
Definition LineGives `{Host} (logFilename line : string)
    (records : list UnifiedDataItem) : Prop :=
  ((String.eqb (trim line) "" = true
    \/ JSON_parse line = None
    \/ Props.rejected logFilename line = true)
   /\ records = [])
  \/ (exists props name result elapsed,
        String.eqb (trim line) "" = false
        /\ JSON_parse line = Some (JObj props)
        /\ lookup "Instance" props = Some (JStr name)
        /\ lookup "Result" props = Some (JStr result)
        /\ lookup "Time" props = Some (JStr elapsed)
        /\ records = [logRecord logFilename props name result elapsed]).

(** The text holds no line feed. *)
Fixpoint oneLine (s : string) : bool :=
  match s with
  | EmptyString => true
  | String c r => negb (Ascii.eqb c LogParser.newline) && oneLine r
  end.

(** A record as [parseLeaderboardHtmlToUnifiedData] builds it for the
    file [sourceFileName]: its instance is a column name that passed
    the filter of line 68; its score, time and flag are what [parseCell]
    read in some cell. *)
Definition FromLeaderboard (sourceFileName : string) (item : UnifiedDataItem)
  : Prop :=
  sourceName item = sourceFileName
  /\ sourceType item = leaderboard
  /\ solutionString item = JNull
  /\ NamedByInstance item
  /\ instance item <> ""
  /\ ~ In (instance item) LeaderboardParser.knownNonProblemColumns
  /\ exists cellContentStr,
       score item = LeaderboardParser.cellScore
                      (LeaderboardParser.parseCell cellContentStr)
       /\ time item = LeaderboardParser.cellTime
                        (LeaderboardParser.parseCell cellContentStr)
       /\ isUnsolved item = LeaderboardParser.cellIsUnsolved
                              (LeaderboardParser.parseCell cellContentStr).

(** A column name that passes the filter of line 68. *)
Definition problemColumn (name : JSValue) : bool :=
  truthy name
  && negb (LeaderboardParser.includesValue
             LeaderboardParser.knownNonProblemColumns name).

(** The records of an owner, in input order. *)
Definition recordsOf (data : UnifiedData) (owner : string) : UnifiedData :=
  filter (fun item => String.eqb (entryOwner item) owner) data.

(** The scores of the records that the engine takes as solved. *)
Definition solvedScores (records : UnifiedData) : list JSNumber :=
  flat_map (fun item => match UnifiedAnalysis.solvedScore item with
                        | Some s => [s]
                        | None => []
                        end) records.

(** [0 + s1 + s2 + ...], added from the left. *)
Definition sumScores (scores : list JSNumber) : JSNumber :=
  fold_left num_add scores zero.

(** The record is one of an instance with [size] customers. *)
Definition ofSize (size : Z) (item : UnifiedDataItem) : bool :=
  match numCustomers item with
  | Some c => Z.eqb c size
  | None => false
  end.

(** The solved records of an owner on instances of one size. *)
Definition recordsOfSize (data : UnifiedData) (owner : string) (size : Z)
  : UnifiedData :=
  filter (fun item => ofSize size item
                      && match UnifiedAnalysis.solvedScore item with
                         | Some _ => true
                         | None => false
                         end)
         (recordsOf data owner).

(** The bucket of one size after one more solved record. *)
Definition addScore (stats : option UnifiedAnalysis.SizeStats) (s : JSNumber)
  : option UnifiedAnalysis.SizeStats :=
  Some {| UnifiedAnalysis.sizeScore :=
            num_add (match stats with
                     | Some st => UnifiedAnalysis.sizeScore st
                     | None => zero
                     end) s;
          UnifiedAnalysis.sizeCount :=
            S (match stats with
               | Some st => UnifiedAnalysis.sizeCount st
               | None => 0
               end) |}.

(** [groupedData.get(inst)?.get(owner)] *)
Definition recordOf (groupedData : UnifiedAnalysis.GroupedByInstance)
    (inst owner : string) : option UnifiedDataItem :=
  match map_get String.eqb inst groupedData with
  | Some ownerMap => map_get String.eqb owner ownerMap
  | None => None
  end.

(** The record is one of [owner] for [inst]. *)
Definition isFor (inst owner : string) (item : UnifiedDataItem) : bool :=
  String.eqb (instance item) inst && String.eqb (entryOwner item) owner.

(** The last record of [owner] for [inst] in the list. *)
Definition lastRecordFor (data : UnifiedData) (inst owner : string)
  : option UnifiedDataItem :=
  find (isFor inst owner) (rev data).

(** The keys of the two levels of a grouping are pairwise distinct, and
    no inner map is empty. *)
Definition distinctKeys (groupedData : UnifiedAnalysis.GroupedByInstance)
  : Prop :=
  NoDup (map fst groupedData)
  /\ forall inst ownerMap,
       In (inst, ownerMap) groupedData ->
       NoDup (map fst ownerMap) /\ ownerMap <> [].

(** Strictly increasing in the order of code units. *)
Definition below (a b : string) : Prop :=
  String.leb a b = true /\ a <> b.

(** A number between 0 and 100. *)
Definition isPercentage (x : JSNumber) : Prop :=
  exists q, x = Finite q /\ (0 <= q)%Q /\ (q <= 100)%Q.

(** The metrics of an owner that is listed, fresh metrics otherwise. *)
Definition metricsOr (metricsData : UnifiedAnalysis.OwnerMap) (owner : string)
  : UnifiedAnalysis.OwnerMetrics :=
  match map_get String.eqb owner metricsData with
  | Some data => data
  | None => UnifiedAnalysis.newOwnerMetrics
  end.



(** The name is one of a file that [processFile] reads: it ends with
    [.log], [.html] or [.htm] (lines 33 and 44). *)
Definition readableName (sourceName : string) : bool :=
  Uploader.endsWith ".log" sourceName
  || (Uploader.endsWith ".html" sourceName
      || Uploader.endsWith ".htm" sourceName).

End Shapes.

(* ================================================================== *)
(** * Part II: lemmas and theorems *)
(* ================================================================== *)

Import JS Unified Props.

(** ** The outlier analyzer *)

Module InsightFacts.
Import UnifiedInsights.

(** C10.  The list of observations is a function of the records alone:
    two calls of [findProblemOutliers] on the same records give the same
    list whatever the two [owners] arguments are. *)
Theorem findProblemOutliers_ignores_owners :
  forall (unifiedData : UnifiedData) (owners1 owners2 : list string),
    findProblemOutliers unifiedData owners1
    = findProblemOutliers unifiedData owners2.
Proof.
  intros unifiedData owners1 owners2. unfold findProblemOutliers. reflexivity.
Qed.

End InsightFacts.

(** ** Lists *)

Module ListFacts.

Lemma filter_keeps_all {A : Type} (f : A -> bool) (l : list A) :
  (forall x, In x l -> f x = true) -> filter f l = l.
Proof.
  induction l as [| a l IH]; intros Hall; simpl.
  - reflexivity.
  - rewrite (Hall a (or_introl eq_refl)). f_equal. apply IH.
    intros x Hx. apply Hall. right. exact Hx.
Qed.

Lemma filter_drops_all {A : Type} (f : A -> bool) (l : list A) :
  (forall x, In x l -> f x = false) -> filter f l = [].
Proof.
  induction l as [| a l IH]; intros Hall; simpl.
  - reflexivity.
  - rewrite (Hall a (or_introl eq_refl)). apply IH.
    intros x Hx. apply Hall. right. exact Hx.
Qed.

End ListFacts.

(** ** Maps *)

Module MapFacts.

Lemma map_get_set_same {V : Type} (k : string) (v : V) (m : list (string * V)) :
  map_get String.eqb k (map_set String.eqb k v m) = Some v.
Proof.
  induction m as [| [k0 old] m IH]; simpl.
  - rewrite String.eqb_refl. reflexivity.
  - destruct (String.eqb k0 k) eqn:E; simpl; rewrite E.
    + reflexivity.
    + exact IH.
Qed.

Lemma map_get_set_other {V : Type} (k k' : string) (v : V)
    (m : list (string * V)) :
  k <> k' ->
  map_get String.eqb k' (map_set String.eqb k v m) = map_get String.eqb k' m.
Proof.
  intros Hne. induction m as [| [k0 old] m IH]; simpl.
  - apply String.eqb_neq in Hne. rewrite Hne. reflexivity.
  - destruct (String.eqb k0 k) eqn:E; simpl.
    + apply String.eqb_eq in E. subst k0.
      apply String.eqb_neq in Hne. rewrite Hne. reflexivity.
    + rewrite IH. reflexivity.
Qed.

Lemma map_get_set {V : Type} (k k' : string) (v : V) (m : list (string * V)) :
  map_get String.eqb k' (map_set String.eqb k v m)
  = if String.eqb k k' then Some v else map_get String.eqb k' m.
Proof.
  destruct (String.eqb k k') eqn:E.
  - apply String.eqb_eq in E. subst k'. apply map_get_set_same.
  - apply map_get_set_other. apply String.eqb_neq. exact E.
Qed.

(** A map over the entries that keeps the keys. *)
Lemma map_get_map_values {V W : Type} (f : string -> V -> W) (k : string)
    (m : list (string * V)) :
  map_get String.eqb k (map (fun e => (fst e, f (fst e) (snd e))) m)
  = option_map (f k) (map_get String.eqb k m).
Proof.
  induction m as [| [k0 v] m IH]; simpl.
  - reflexivity.
  - destruct (String.eqb k0 k) eqn:E.
    + apply String.eqb_eq in E. subst k0. reflexivity.
    + exact IH.
Qed.

End MapFacts.

(** ** Order of numbers *)

Module NumFacts.

Ltac q_props :=
  repeat match goal with
         | H : Qle_bool _ _ = true |- _ => apply Qle_bool_iff in H
         | H : Qeq_bool _ _ = true |- _ => apply Qeq_bool_iff in H
         | H : Qle_bool _ _ = false |- _ =>
             apply not_true_iff_false in H; rewrite Qle_bool_iff in H
         | H : Qeq_bool _ _ = false |- _ => apply Qeq_bool_neq in H
         | H : negb _ = true |- _ => apply negb_true_iff in H
         | H : negb _ = false |- _ => apply negb_false_iff in H
         | H : _ || _ = true |- _ => apply orb_true_iff in H; destruct H
         | H : _ && _ = true |- _ => apply andb_true_iff in H; destruct H
         end.

Lemma num_ltb_irrefl (a : JSNumber) : num_ltb a a = false.
Proof.
  destruct a; simpl; try reflexivity.
  apply negb_false_iff. apply Qle_bool_iff. apply Qle_refl.
Qed.

(** [a <= a] holds exactly for a number that is not [NaN], and then
    [a === a]. *)
Lemma num_leb_refl_eqb (a : JSNumber) : num_leb a a = true -> num_eqb a a = true.
Proof.
  unfold num_leb. rewrite num_ltb_irrefl. simpl. auto.
Qed.

Lemma num_leb_not_ltb_eqb (s b : JSNumber) :
  num_leb s b = true -> num_ltb s b = false -> num_eqb s b = true.
Proof.
  unfold num_leb. intros H1 H2. rewrite H2 in H1. exact H1.
Qed.

Lemma num_eqb_ltb_leb_absurd (s b x : JSNumber) :
  num_eqb s b = true -> num_ltb x b = true -> num_leb s x = true -> False.
Proof.
  unfold num_leb.
  destruct s as [| | | s], b as [| | | b], x as [| | | x]; simpl;
    intros H1 H2 H3; try discriminate; q_props; try discriminate.
  - apply H2. rewrite <- H1. apply Qlt_le_weak.
    apply Qnot_le_lt. exact H.
  - apply H2. rewrite <- H1. rewrite H. apply Qle_refl.
Qed.

Lemma num_leb_total (x b : JSNumber) :
  x <> NaN -> b <> NaN -> num_ltb x b = false -> num_leb b x = true.
Proof.
  unfold num_leb.
  destruct x as [| | | x], b as [| | | b]; simpl; intros Hx Hb H;
    try contradiction; try discriminate; try reflexivity.
  apply negb_false_iff in H. apply Qle_bool_iff in H.
  destruct (Qle_bool x b) eqn:E; simpl; [| reflexivity].
  apply Qle_bool_iff in E. apply Qeq_bool_iff. apply Qle_antisym; assumption.
Qed.

Lemma num_leb_trans (a b c : JSNumber) :
  num_leb a b = true -> num_leb b c = true -> num_leb a c = true.
Proof.
  unfold num_leb.
  destruct a as [| | | a], b as [| | | b], c as [| | | c]; simpl;
    intros H1 H2; try discriminate; try reflexivity.
  apply orb_true_iff in H1. apply orb_true_iff in H2.
  assert (Hab : (a <= b)%Q).
  { destruct H1 as [H | H].
    - apply negb_true_iff in H. apply Qlt_le_weak. apply Qnot_le_lt.
      intros Hc. apply Qle_bool_iff in Hc. congruence.
    - apply Qeq_bool_iff in H. rewrite H. apply Qle_refl. }
  assert (Hbc : (b <= c)%Q).
  { destruct H2 as [H | H].
    - apply negb_true_iff in H. apply Qlt_le_weak. apply Qnot_le_lt.
      intros Hc. apply Qle_bool_iff in Hc. congruence.
    - apply Qeq_bool_iff in H. rewrite H. apply Qle_refl. }
  assert (Hac : (a <= c)%Q) by (eapply Qle_trans; eassumption).
  destruct (Qle_bool c a) eqn:E; simpl; [| reflexivity].
  apply Qle_bool_iff in E. apply Qeq_bool_iff. apply Qle_antisym; assumption.
Qed.

Lemma num_eqb_leb (a b : JSNumber) : num_eqb a b = true -> num_leb a b = true.
Proof. unfold num_leb. intros ->. apply orb_true_r. Qed.

Lemma num_ltb_leb (a b : JSNumber) : num_ltb a b = true -> num_leb a b = true.
Proof. unfold num_leb. intros ->. reflexivity. Qed.

Lemma num_leb_refl (a : JSNumber) : a <> NaN -> num_leb a a = true.
Proof.
  unfold num_leb. destruct a as [| | | a]; simpl; intros H;
    try contradiction; try reflexivity.
  rewrite Qeq_bool_refl. apply orb_true_r.
Qed.

End NumFacts.

(** ** The metrics engine *)

Module MetricsFacts.
Import UnifiedAnalysis ListFacts MapFacts NumFacts.

(** *** The first pass, seen from one instance and from one owner *)

Lemma map_get_updateBest (k inst : string) (s : JSNumber) (bm : BestMap) :
  map_get String.eqb k (updateBest inst s bm)
  = if String.eqb inst k then stepBest (map_get String.eqb k bm) s
    else map_get String.eqb k bm.
Proof.
  unfold updateBest, map_has.
  destruct (String.eqb inst k) eqn:E.
  - apply String.eqb_eq in E. subst k.
    destruct (map_get String.eqb inst bm) as [b |] eqn:G; simpl.
    + destruct (num_ltb s b).
      * apply map_get_set_same.
      * exact G.
    + apply map_get_set_same.
  - assert (Hne : inst <> k) by (apply String.eqb_neq; exact E).
    destruct (negb _ || _); [apply map_get_set_other; exact Hne | reflexivity].
Qed.

Lemma scoresOf_cons (item : UnifiedDataItem) (data : UnifiedData) (k : string) :
  scoresOf (item :: data) k
  = (if String.eqb (instance item) k then
       match solvedScore item with Some s => [s] | None => [] end
     else []) ++ scoresOf data k.
Proof. reflexivity. Qed.

Lemma best_after_fold (k : string) (data : UnifiedData) :
  forall (om : OwnerMap) (bm : BestMap),
    map_get String.eqb k (snd (fold_left firstPassStep data (om, bm)))
    = fold_left stepBest (scoresOf data k) (map_get String.eqb k bm).
Proof.
  induction data as [| item data IH]; intros om bm.
  - reflexivity.
  - rewrite scoresOf_cons, fold_left_app. cbn [fold_left].
    destruct (firstPassStep (om, bm) item) as [om' bm'] eqn:S.
    rewrite IH. f_equal.
    replace bm' with (snd (firstPassStep (om, bm) item)) by (rewrite S; reflexivity).
    clear S. unfold firstPassStep. simpl snd.
    destruct (solvedScore item) as [s |].
    + rewrite map_get_updateBest.
      destruct (String.eqb (instance item) k); reflexivity.
    + destruct (String.eqb (instance item) k); reflexivity.
Qed.

Lemma owner_after_step (k : string) (om : OwnerMap) (bm : BestMap)
    (item : UnifiedDataItem) :
  map_get String.eqb k (fst (firstPassStep (om, bm) item))
  = ownerStep k (map_get String.eqb k om) item.
Proof.
  unfold firstPassStep, ownerStep, map_has. simpl fst.
  rewrite map_get_set.
  destruct (String.eqb (entryOwner item) k) eqn:E.
  - apply String.eqb_eq in E. subst k.
    destruct (map_get String.eqb (entryOwner item) om) as [p |] eqn:G; simpl.
    + rewrite G. reflexivity.
    + rewrite map_get_set_same. reflexivity.
  - assert (Hne : entryOwner item <> k) by (apply String.eqb_neq; exact E).
    destruct (map_get String.eqb (entryOwner item) om); simpl.
    + reflexivity.
    + apply map_get_set_other. exact Hne.
Qed.

Lemma owner_after_fold (k : string) (data : UnifiedData) :
  forall (om : OwnerMap) (bm : BestMap),
    map_get String.eqb k (fst (fold_left firstPassStep data (om, bm)))
    = fold_left (ownerStep k) data (map_get String.eqb k om).
Proof.
  induction data as [| item data IH]; intros om bm.
  - reflexivity.
  - cbn [fold_left].
    destruct (firstPassStep (om, bm) item) as [om' bm'] eqn:S.
    rewrite IH. f_equal.
    replace om' with (fst (firstPassStep (om, bm) item))
      by (rewrite S; reflexivity).
    apply owner_after_step.
Qed.

(** *** What the first pass leaves for an owner *)

Lemma ownerStep_keeps (P : OwnerMetrics -> Prop) (k : string)
    (data : UnifiedData) :
  P newOwnerMetrics ->
  (forall item p, In item data -> entryOwner item = k -> P p ->
                  P (accumulate item p)) ->
  forall acc, (forall p, acc = Some p -> P p) ->
    forall p, fold_left (ownerStep k) data acc = Some p -> P p.
Proof.
  intros Hnew. induction data as [| item data IH]; intros Hstep acc Hacc p Hp.
  - apply Hacc. exact Hp.
  - simpl in Hp. apply (IH (fun i q Hi => Hstep i q (or_intror Hi))
                           (ownerStep k acc item)); [| exact Hp].
    intros q Hq. unfold ownerStep in Hq.
    destruct (String.eqb (entryOwner item) k) eqn:E.
    + apply String.eqb_eq in E. injection Hq as <-.
      apply (Hstep item _ (or_introl eq_refl) E).
      destruct acc as [p0 |]; [apply Hacc; reflexivity | exact Hnew].
    + apply Hacc. exact Hq.
Qed.

Lemma ownerStep_present (k : string) (data : UnifiedData) :
  forall acc,
    (acc <> None \/ exists item, In item data /\ entryOwner item = k) ->
    fold_left (ownerStep k) data acc <> None.
Proof.
  induction data as [| item data IH]; intros acc H.
  - destruct H as [H | [item [[] _]]]. exact H.
  - simpl. apply IH. unfold ownerStep.
    destruct (String.eqb (entryOwner item) k) eqn:E.
    + left. discriminate.
    + destruct H as [H | [i [[Hi | Hi] Hk]]].
      * left. exact H.
      * subst i. apply String.eqb_neq in E. contradiction.
      * right. exists i. split; assumption.
Qed.

Lemma accumulate_bestSolutions (item : UnifiedDataItem) (p : OwnerMetrics) :
  bestSolutions (accumulate item p) = bestSolutions p.
Proof. unfold accumulate. destruct (solvedScore item); reflexivity. Qed.

Lemma accumulate_unsolved (item : UnifiedDataItem) (p : OwnerMetrics) :
  solvedScore item = None -> solvedCount (accumulate item p) = solvedCount p.
Proof. unfold accumulate. intros ->. reflexivity. Qed.

(** *** The second pass *)

Lemma countIfBest_counted (best : BestMap) (owner : string) (n : nat)
    (item : UnifiedDataItem) :
  countIfBest best owner n item = if counted best owner item then S n else n.
Proof.
  unfold countIfBest, counted.
  destruct (String.eqb (entryOwner item) owner); simpl; [| reflexivity].
  destruct (solvedScore item); [| reflexivity].
  destruct (map_get String.eqb (instance item) best); reflexivity.
Qed.

Lemma fold_countIfBest (best : BestMap) (owner : string) (data : UnifiedData) :
  forall n,
    fold_left (countIfBest best owner) data n
    = n + length (filter (counted best owner) data).
Proof.
  induction data as [| item data IH]; intros n; simpl.
  - lia.
  - rewrite IH, countIfBest_counted.
    destruct (counted best owner item); simpl; lia.
Qed.

(** The entry of an owner in the result of [calculateUnifiedMetrics]. *)
Lemma metrics_of_owner (data : UnifiedData) (owner : string) :
  map_get String.eqb owner (calculateUnifiedMetrics data)
  = option_map
      (fun p => snd (secondPassStep data (snd (firstPass data)) (owner, p)))
      (fold_left (ownerStep owner) data None).
Proof.
  unfold calculateUnifiedMetrics.
  assert (Hf : map_get String.eqb owner (fst (firstPass data))
               = fold_left (ownerStep owner) data None)
    by apply (owner_after_fold owner data [] []).
  rewrite <- Hf. clear Hf.
  destruct (firstPass data) as [om bm]. cbn [fst snd].
  transitivity
    (map_get String.eqb owner
       (map (fun e => (fst e,
                       (fun k p => snd (secondPassStep data bm (k, p)))
                         (fst e) (snd e))) om)).
  - f_equal. apply map_ext. intros [k p]. reflexivity.
  - apply (map_get_map_values (fun k p => snd (secondPassStep data bm (k, p)))).
Qed.

(** *** The global minimum of an instance *)

Lemma fold_stepBest_min (s : JSNumber) (scores : list JSNumber) :
  forallb (num_leb s) scores = true ->
  forall b0,
    (b0 = None /\ In s scores)
    \/ (exists b, b0 = Some b /\ num_leb s b = true
                  /\ (num_eqb s b = true \/ In s scores)) ->
    exists b, fold_left stepBest scores b0 = Some b /\ num_eqb s b = true.
Proof.
  induction scores as [| x rest IH]; intros Hall b0 H.
  - destruct H as [[_ []] | [b [-> [_ [He | []]]]]].
    exists b. split; [reflexivity | exact He].
  - simpl in Hall. apply andb_true_iff in Hall. destruct Hall as [Hx Hrest].
    simpl fold_left. apply (IH Hrest). right.
    destruct H as [[-> Hin] | [b [-> [Hb Hor]]]].
    + exists x. split; [reflexivity |]. split; [exact Hx |].
      destruct Hin as [-> | Hin]; [left; apply num_leb_refl_eqb; exact Hx
                                  | right; exact Hin].
    + simpl. destruct (num_ltb x b) eqn:Hlt.
      * exists x. split; [reflexivity |]. split; [exact Hx |].
        destruct Hor as [He | [-> | Hin]].
        -- exfalso. exact (num_eqb_ltb_leb_absurd s b x He Hlt Hx).
        -- left. apply num_leb_refl_eqb. exact Hx.
        -- right. exact Hin.
      * exists b. split; [reflexivity |]. split; [exact Hb |].
        destruct Hor as [He | [-> | Hin]].
        -- left. exact He.
        -- left. apply num_leb_not_ltb_eqb; assumption.
        -- right. exact Hin.
Qed.

Lemma In_scoresOf (data : UnifiedData) (item : UnifiedDataItem) (s : JSNumber) :
  In item data -> solvedScore item = Some s ->
  In s (scoresOf data (instance item)).
Proof.
  intros Hin Hs. unfold scoresOf. apply in_flat_map.
  exists item. split; [exact Hin |].
  rewrite String.eqb_refl, Hs. left. reflexivity.
Qed.

(** A record that attains the global minimum of its instance passes the
    test of the second pass for its owner. *)
Lemma attainsBest_counted (data : UnifiedData) (item : UnifiedDataItem) :
  In item data -> attainsBest data item = true ->
  counted (snd (firstPass data)) (entryOwner item) item = true.
Proof.
  intros Hin Hbest. unfold attainsBest in Hbest. unfold counted.
  rewrite String.eqb_refl. simpl.
  destruct (solvedScore item) as [s |] eqn:Hs; [| discriminate].
  unfold firstPass. rewrite best_after_fold. simpl map_get.
  destruct (fold_stepBest_min s _ Hbest None) as [b [-> He]].
  - left. split; [reflexivity |]. apply In_scoresOf; assumption.
  - exact He.
Qed.

Lemma nodup_length_le {A : Type} (dec : forall x y : A, {x = y} + {x <> y})
    (l : list A) :
  length (nodup dec l) <= length l.
Proof.
  induction l as [| a l IH]; simpl.
  - lia.
  - destruct (in_dec dec a l); simpl; lia.
Qed.

Lemma filter_length_mono {A : Type} (f g : A -> bool) (l : list A) :
  (forall x, In x l -> f x = true -> g x = true) ->
  length (filter f l) <= length (filter g l).
Proof.
  induction l as [| a l IH]; intros H; simpl.
  - lia.
  - assert (IH' := IH (fun x Hx => H x (or_intror Hx))).
    destruct (f a) eqn:Fa.
    + rewrite (H a (or_introl eq_refl) Fa). simpl. lia.
    + destruct (g a); simpl; lia.
Qed.

(** What the second pass computes: [bestSolutions] is the number of
    records of the owner that are solved with the score the first pass
    kept as the best of their instance. *)
Lemma bestSolutions_counts_records (data : UnifiedData) (owner : string)
    (m : OwnerMetrics) :
  map_get String.eqb owner (calculateUnifiedMetrics data) = Some m ->
  bestSolutions m
  = length (filter (counted (snd (firstPass data)) owner) data).
Proof.
  rewrite metrics_of_owner.
  destruct (fold_left (ownerStep owner) data None) as [p |] eqn:Hp;
    [| discriminate].
  intros Hm. injection Hm as <-. simpl bestSolutions.
  rewrite fold_countIfBest.
  assert (Hzero : bestSolutions p = 0).
  { apply (ownerStep_keeps (fun q => bestSolutions q = 0) owner data)
      with (acc := None); [reflexivity | | discriminate | exact Hp].
    intros i q _ _ Hq. rewrite accumulate_bestSolutions. exact Hq. }
  rewrite Hzero. reflexivity.
Qed.

(** *** When the count of records is the count of instances *)

(** Without [NaN] the first pass keeps a lower bound of the scores. *)
Lemma fold_stepBest_lower_bound (scores : list JSNumber) :
  (forall x, In x scores -> x <> NaN) ->
  forall b0 b,
    (forall b0', b0 = Some b0' -> b0' <> NaN) ->
    fold_left stepBest scores b0 = Some b ->
    b <> NaN
    /\ (forall x, In x scores -> num_leb b x = true)
    /\ (forall b0', b0 = Some b0' -> num_leb b b0' = true).
Proof.
  induction scores as [| x rest IH]; intros Hnan b0 b Hb0 Hfold.
  - simpl in Hfold. subst b0. split; [apply Hb0; reflexivity |].
    split; [intros x [] |]. intros b0' H. injection H as <-.
    apply num_leb_refl. apply Hb0. reflexivity.
  - simpl in Hfold.
    assert (Hx : x <> NaN) by (apply Hnan; left; reflexivity).
    assert (Hrest : forall y, In y rest -> y <> NaN)
      by (intros y Hy; apply Hnan; right; exact Hy).
    destruct b0 as [c |]; simpl in Hfold.
    + assert (Hc : c <> NaN) by (apply Hb0; reflexivity).
      destruct (num_ltb x c) eqn:Hlt.
      * destruct (IH Hrest (Some x) b) as [Hb [Hall Hinit]];
          [intros ? H; injection H as <-; exact Hx | exact Hfold |].
        split; [exact Hb |]. split.
        -- intros y [<- | Hy]; [apply Hinit; reflexivity | apply Hall; exact Hy].
        -- intros b0' H. injection H as <-.
           eapply num_leb_trans; [apply Hinit; reflexivity |].
           apply num_ltb_leb. exact Hlt.
      * destruct (IH Hrest (Some c) b) as [Hb [Hall Hinit]];
          [intros ? H; injection H as <-; exact Hc | exact Hfold |].
        split; [exact Hb |]. split.
        -- intros y [<- | Hy]; [| apply Hall; exact Hy].
           eapply num_leb_trans; [apply Hinit; reflexivity |].
           apply num_leb_total; assumption.
        -- exact Hinit.
    + destruct (IH Hrest (Some x) b) as [Hb [Hall Hinit]];
        [intros ? H; injection H as <-; exact Hx | exact Hfold |].
      split; [exact Hb |]. split.
      * intros y [<- | Hy]; [apply Hinit; reflexivity | apply Hall; exact Hy].
      * discriminate.
Qed.

Lemma scoresOf_not_NaN (data : UnifiedData) (inst : string) :
  (forall item s, In item data -> solvedScore item = Some s -> s <> NaN) ->
  forall x, In x (scoresOf data inst) -> x <> NaN.
Proof.
  intros Hnan x Hx. unfold scoresOf in Hx. apply in_flat_map in Hx.
  destruct Hx as [item [Hin Hx]].
  destruct (String.eqb (instance item) inst); [| destruct Hx].
  destruct (solvedScore item) as [s |] eqn:Hs; [| destruct Hx].
  destruct Hx as [<- | []]. apply (Hnan item s Hin Hs).
Qed.

Lemma counted_attainsBest (data : UnifiedData) (owner : string)
    (item : UnifiedDataItem) :
  (forall i s, In i data -> solvedScore i = Some s -> s <> NaN) ->
  counted (snd (firstPass data)) owner item = true ->
  attainsBest data item = true.
Proof.
  intros Hnan Hc. unfold counted in Hc. unfold attainsBest.
  apply andb_true_iff in Hc. destruct Hc as [_ Hc].
  destruct (solvedScore item) as [s |]; [| discriminate].
  unfold firstPass in Hc. rewrite best_after_fold in Hc. simpl map_get in Hc.
  destruct (fold_left stepBest (scoresOf data (instance item)) None)
    as [b |] eqn:Hb; [| discriminate].
  destruct (fold_stepBest_lower_bound _
              (scoresOf_not_NaN data (instance item) Hnan) None b)
    as [_ [Hall _]]; [discriminate | exact Hb |].
  apply forallb_forall. intros x Hx.
  eapply num_leb_trans; [apply num_eqb_leb; exact Hc | apply Hall; exact Hx].
Qed.

Lemma NoDup_map_filter_sub {A B : Type} (h : A -> B) (f g : A -> bool)
    (l : list A) :
  (forall x, f x = true -> g x = true) ->
  NoDup (map h (filter g l)) -> NoDup (map h (filter f l)).
Proof.
  intros Hfg. induction l as [| a l IH]; simpl; intros Hnd.
  - constructor.
  - destruct (f a) eqn:Fa.
    + rewrite (Hfg a Fa) in Hnd. simpl in *. inversion Hnd as [| ? ? Hnotin Hnd'].
      constructor; [| apply IH; exact Hnd'].
      intros Hin. apply Hnotin. apply in_map_iff in Hin.
      destruct Hin as [y [Hy Hin]]. apply in_map_iff. exists y.
      split; [exact Hy |]. apply filter_In in Hin. apply filter_In.
      destruct Hin as [Hl Hf]. split; [exact Hl | apply Hfg; exact Hf].
    + apply IH. destruct (g a); [inversion Hnd; assumption | exact Hnd].
Qed.

(** When no score is [NaN] and the owner has at most one solved record
    per instance, the count of records is the count of instances. *)
Lemma bestSolutions_counts_instances_when_unique (data : UnifiedData)
    (owner : string) (m : OwnerMetrics) :
  (forall item s, In item data -> solvedScore item = Some s -> s <> NaN) ->
  NoDup (map instance
           (filter (fun item => String.eqb (entryOwner item) owner
                               && match solvedScore item with
                                  | Some _ => true
                                  | None => false
                                  end) data)) ->
  map_get String.eqb owner (calculateUnifiedMetrics data) = Some m ->
  bestSolutions m = length (bestInstancesOf data owner).
Proof.
  intros Hnan Huniq Hm.
  rewrite (bestSolutions_counts_records data owner m Hm).
  unfold bestInstancesOf.
  assert (Hsame : filter (counted (snd (firstPass data)) owner) data
                  = bestRecordsOf data owner).
  { unfold bestRecordsOf. apply filter_ext_in. intros item Hin.
    destruct (counted (snd (firstPass data)) owner item) eqn:Hc.
    - symmetry. apply andb_true_iff. split.
      + unfold counted in Hc. apply andb_true_iff in Hc. apply Hc.
      + apply (counted_attainsBest data owner item Hnan Hc).
    - destruct (String.eqb (entryOwner item) owner) eqn:Ho; [| reflexivity].
      destruct (attainsBest data item) eqn:Hb; [| reflexivity].
      apply String.eqb_eq in Ho. subst owner.
      rewrite (attainsBest_counted data item Hin Hb) in Hc. discriminate. }
  rewrite Hsame.
  rewrite nodup_fixed_point; [rewrite length_map; reflexivity |].
  unfold bestRecordsOf.
  apply (NoDup_map_filter_sub instance _ _ data) with (2 := Huniq).
  intros x Hx. apply andb_true_iff in Hx. destruct Hx as [Ho Hb].
  rewrite Ho. unfold attainsBest in Hb.
  destruct (solvedScore x); [reflexivity | discriminate].
Qed.

(** *** Ties, and what a [NaN] score does to them *)











(** C7.  An owner who has records, none of them solved (each is flagged
    unsolved or has no score, which is the test the engine applies), gets
    [solvedCount = 0], the [+Infinity] sentinel as [avgScore], and
    [bestSolutions = 0]. *)
Theorem no_solved_record_gives_sentinel :
  forall (data : UnifiedData) (owner : string),
    (exists item, In item data /\ entryOwner item = owner) ->
    (forall item, In item data -> entryOwner item = owner ->
                  isUnsolved item = true \/ score item = None) ->
    exists m,
      map_get String.eqb owner (calculateUnifiedMetrics data) = Some m
      /\ solvedCount m = 0
      /\ avgScore m = PosInfinity
      /\ bestSolutions m = 0.
Proof.
  intros data owner Hex Hall.
  assert (Hnone : forall item, In item data -> entryOwner item = owner ->
                               solvedScore item = None).
  { intros item Hin Ho. unfold solvedScore.
    destruct (Hall item Hin Ho) as [-> | ->]; [reflexivity |].
    destruct (isUnsolved item); reflexivity. }
  rewrite metrics_of_owner.
  destruct (fold_left (ownerStep owner) data None) as [p |] eqn:Hp.
  2:{ exfalso. apply (ownerStep_present owner data None); [| exact Hp].
      right. exact Hex. }
  assert (Hzero : solvedCount p = 0 /\ bestSolutions p = 0).
  { apply (ownerStep_keeps
             (fun q => solvedCount q = 0 /\ bestSolutions q = 0) owner data)
      with (acc := None); [split; reflexivity | | discriminate | exact Hp].
    intros i q Hi Ho [Hq1 Hq2].
    rewrite accumulate_bestSolutions, (accumulate_unsolved i q (Hnone i Hi Ho)).
    split; assumption. }
  destruct Hzero as [Hsolved Hbest].
  eexists. split; [reflexivity |]. simpl.
  rewrite Hsolved, Hbest. simpl.
  repeat split.
  rewrite fold_countIfBest, filter_drops_all; [reflexivity |].
  intros x Hx. unfold counted.
  destruct (String.eqb (entryOwner x) owner) eqn:E; [| reflexivity].
  apply String.eqb_eq in E. rewrite (Hnone x Hx E). reflexivity.
Qed.

Lemma no_solved_record_gives_sentinel_witness :
  exists m,
    map_get String.eqb "Cy" (calculateUnifiedMetrics Samples.tieData) = Some m
    /\ solvedCount m = 0
    /\ avgScore m = PosInfinity
    /\ bestSolutions m = 0.
Proof.
  apply (no_solved_record_gives_sentinel Samples.tieData "Cy").
  - exists (Samples.unsolvedRecord "lb.html" "Cy" "1_1_1.vrp").
    split; [simpl; auto | reflexivity].
  - intros item Hin Ho. simpl in Hin.
    destruct Hin as [<- | [<- | [<- | [<- | []]]]];
      try discriminate Ho; left; reflexivity.
Defined.

(** The sample of a tie: both participants are credited for the
    instance, and only for instances they solved best. *)
Example tie_counts :
  map (fun e => (fst e, bestSolutions (snd e)))
      (calculateUnifiedMetrics Samples.tieData)
  = [("Ann", 1); ("Bob", 2); ("Cy", 0)].
Proof. reflexivity. Qed.

(** C5, on a log that holds the same line twice.  The parser returns two
    records of the same owner and instance; the engine counts both, so
    [bestSolutions] is 2 while the owner is best on one instance. *)
Theorem repeated_record_counted_twice :
  let data := returned (@LogParser.parseLogEntries RefHost.host
                          Samples.repeatedLog "solver.log" 0) in
  length data = 2
  /\ map instance data = ["50_5_1.vrp"; "50_5_1.vrp"]
  /\ option_map bestSolutions
       (map_get String.eqb "solver.log" (calculateUnifiedMetrics data)) = Some 2
  /\ bestInstancesOf data "solver.log" = ["50_5_1.vrp"].
Proof. vm_compute. repeat split. Qed.

End MetricsFacts.

(** ** The two format parsers *)

Module ParserFacts.
Import LogParser LeaderboardParser.

(** *** Computations that only append to the array of records *)

(** The outcome [r] of a computation started with the array [acc]: it
    throws, or it returns [acc] followed by records that satisfy [P]. *)
Definition Extends (P : UnifiedDataItem -> Prop) (acc : list UnifiedDataItem)
    (r : Exc (list UnifiedDataItem) * nat) : Prop :=
  match fst r with
  | Ok items => exists new, items = acc ++ new /\ Forall P new
  | Throw _ => True
  end.

Section Extending.
Context (P : UnifiedDataItem -> Prop) (acc : list UnifiedDataItem).

Lemma extends_same (n : nat) : Extends P acc (ret acc n).
Proof. exists []. split; [symmetry; apply app_nil_r | constructor]. Qed.

Lemma extends_push (item : UnifiedDataItem) (n : nat) :
  P item -> Extends P acc (ret (acc ++ [item]) n).
Proof.
  intros Hitem. exists [item]. split; [reflexivity |].
  constructor; [exact Hitem | constructor].
Qed.

Lemma extends_bind {A : Type} (c : M A) (k : A -> M (list UnifiedDataItem)) :
  (forall a n, Extends P acc (k a n)) ->
  forall n, Extends P acc (bind c k n).
Proof.
  intros Hk n. unfold bind. destruct (c n) as [[a | e] n'].
  - apply Hk.
  - exact I.
Qed.

(** The same when the continuation needs a fact about the value. *)
Lemma extends_bind_post {A : Type} (Q : A -> Prop) (c : M A)
    (k : A -> M (list UnifiedDataItem)) :
  (forall n a n', c n = (Ok a, n') -> Q a) ->
  (forall a n, Q a -> Extends P acc (k a n)) ->
  forall n, Extends P acc (bind c k n).
Proof.
  intros Hc Hk n. unfold bind. destruct (c n) as [[a | e] n'] eqn:E.
  - apply Hk. apply (Hc n a n'). exact E.
  - exact I.
Qed.

End Extending.

Lemma extends_chain (P : UnifiedDataItem -> Prop) (acc : list UnifiedDataItem)
    (c : M (list UnifiedDataItem))
    (k : list UnifiedDataItem -> M (list UnifiedDataItem)) :
  (forall n, Extends P acc (c n)) ->
  (forall acc' n, Extends P acc' (k acc' n)) ->
  forall n, Extends P acc (bind c k n).
Proof.
  intros Hc Hk n. unfold bind. specialize (Hc n).
  destruct (c n) as [[a | e] n']; [| exact I].
  destruct Hc as [new [-> Hnew]].
  specialize (Hk (acc ++ new) n'). unfold Extends in *.
  destruct (fst (k (acc ++ new) n')) as [items | e]; [| exact I].
  destruct Hk as [new' [-> Hnew']].
  exists (new ++ new'). split; [symmetry; apply app_assoc |].
  apply Forall_app. split; assumption.
Qed.

Lemma extends_tryCatch (P : UnifiedDataItem -> Prop)
    (acc : list UnifiedDataItem) (c : M (list UnifiedDataItem)) (n : nat) :
  Extends P acc (c n) ->
  Extends P acc (tryCatch c (fun _ => ret acc) n).
Proof.
  unfold tryCatch. intros Hc. destruct (c n) as [[a | e] n'].
  - exact Hc.
  - apply extends_same.
Qed.

Lemma extends_returned (P : UnifiedDataItem -> Prop)
    (r : Exc (list UnifiedDataItem) * nat) :
  Extends P [] r -> Forall P (returned r).
Proof.
  unfold Extends, returned. destruct (fst r) as [items | e].
  - intros [new [-> Hnew]]. exact Hnew.
  - intros _. constructor.
Qed.

(** *** The log parser *)

Section Log.
Context `{Host}.

Lemma lineBody_extends (logFilename line : string)
    (acc : list UnifiedDataItem) (n : nat) :
  Extends Consistent acc (lineBody logFilename line acc n).
Proof.
  unfold lineBody.
  destruct (String.eqb (trim line) ""); [apply extends_same |].
  revert n.
  apply extends_bind; intros logLineEntry.
  apply extends_bind; intros instanceValue.
  apply extends_bind; intros [instanceName parsedNameDetails].
  apply extends_bind; intros scoreStr.
  apply extends_bind; intros timeStr. cbv zeta.
  set (unsolved := strictEqualsString scoreStr "--"
                   || strictEqualsString timeStr "--").
  apply (extends_bind_post Consistent acc
           (fun sc => (unsolved = true /\ sc = None)
                      \/ (unsolved = false /\ exists x, sc = Some x))).
  - intros n a n' Hc. destruct unsolved.
    + left. unfold ret in Hc. injection Hc as <- _. split; reflexivity.
    + right. split; [reflexivity |].
      unfold bind, liftExc, ret in Hc.
      destruct (parseFloat scoreStr) as [x | e]; [| discriminate].
      injection Hc as <- _. exists x. reflexivity.
  - intros sc n Hsc. revert n.
    apply extends_bind; intros tm.
    apply extends_bind; intros itemId.
    apply extends_bind; intros solution n.
    apply extends_push. unfold Consistent. simpl. exact Hsc.
Qed.

Lemma forLines_extends (logFilename : string) (lines : list string) :
  forall acc n, Extends Consistent acc (forLines logFilename lines acc n).
Proof.
  induction lines as [| line rest IH]; intros acc n; cbn [forLines].
  - apply extends_same.
  - revert n. apply extends_chain.
    + intros n. apply extends_tryCatch. apply lineBody_extends.
    + exact IH.
Qed.

(** The loop over the lines never throws. *)
Lemma forLines_returns (logFilename : string) (lines : list string) :
  forall acc n, exists items n',
    forLines logFilename lines acc n = (Ok items, n').
Proof.
  induction lines as [| line rest IH]; intros acc n; cbn [forLines].
  - exists acc, n. reflexivity.
  - unfold bind, tryCatch.
    destruct (lineBody logFilename line acc n) as [[a | e] n']; apply IH.
Qed.

(** A line that [JSON.parse] rejects leaves the array and the counter of
    ids as they were. *)
Lemma undecodable_line_skipped (logFilename line : string)
    (acc : list UnifiedDataItem) (n : nat) :
  JSON_parse line = None ->
  tryCatch (lineBody logFilename line acc) (fun _ => ret acc) n = (Ok acc, n).
Proof.
  intros Hbad. unfold tryCatch, lineBody.
  destruct (String.eqb (trim line) ""); [reflexivity |].
  unfold bind, liftExc, jsonParse. rewrite Hbad. reflexivity.
Qed.

Lemma forLines_filter_decodable (logFilename : string) (lines : list string) :
  forall acc n,
    forLines logFilename (filter decodable lines) acc n
    = forLines logFilename lines acc n.
Proof.
  induction lines as [| line rest IH]; intros acc n; cbn [filter forLines].
  - reflexivity.
  - destruct (decodable line) eqn:E; cbn [forLines].
    + unfold bind.
      destruct (tryCatch (lineBody logFilename line acc) (fun _ => ret acc) n)
        as [[a | e] n']; [apply IH | reflexivity].
    + unfold decodable in E.
      destruct (JSON_parse line) eqn:Hj; [discriminate |].
      unfold bind. rewrite (undecodable_line_skipped _ _ _ _ Hj). apply IH.
Qed.

(** A value that answers one property read answers every other. *)
Lemma getProp_defined (v : JSValue) (k k' : string) (x : JSValue) :
  getProp v k = Ok x -> exists y, getProp v k' = Ok y.
Proof.
  destruct v; simpl; try discriminate; intros _; try (eexists; reflexivity).
  destruct (lookup k' props); eexists; reflexivity.
Qed.

(** A line on which the body throws leaves the array and the counter of
    ids as they were: every step that can throw comes before the id is
    drawn. *)
Lemma rejected_line_skipped (logFilename line : string) :
  rejected logFilename line = true ->
  forall acc n,
    tryCatch (lineBody logFilename line acc) (fun _ => ret acc) n = (Ok acc, n).
Proof.
  unfold rejected, tryCatch, lineBody, bind, liftExc, ret, newId.
  intros Hr acc n.
  destruct (String.eqb (trim line) ""); [reflexivity |].
  destruct (jsonParse line) as [logLineEntry |]; [| reflexivity].
  destruct (getProp logLineEntry "Instance") as [instanceValue |] eqn:Hi;
    [| reflexivity].
  destruct (getProp_defined _ _ "Solution" _ Hi) as [solution Hsol].
  rewrite Hsol in *.
  destruct (parseGenericInstanceNameOf instanceValue)
    as [[instanceName parsed] |]; [| reflexivity].
  destruct (getProp logLineEntry "Result") as [scoreStr |]; [| reflexivity].
  destruct (getProp logLineEntry "Time") as [timeStr |]; [| reflexivity].
  destruct (strictEqualsString scoreStr "--" || strictEqualsString timeStr "--").
  - simpl in Hr. discriminate Hr.
  - destruct (parseFloat scoreStr); [| reflexivity].
    destruct (parseFloat timeStr); [| reflexivity].
    simpl in Hr. discriminate Hr.
Qed.

(** What one turn of the loop does, whatever the array and the counter
    it starts from. *)
Lemma line_uniform (logFilename line : string)
    (acc : list UnifiedDataItem) (n : nat) :
  exists new,
    tryCatch (lineBody logFilename line acc) (fun _ => ret acc) n
    = (Ok (acc ++ new), n + length new)
    /\ map eraseId new = lineRecords logFilename line
    /\ map id new = map uuidv4 (seq n (length new)).
Proof.
  unfold lineRecords, returned, tryCatch, lineBody, bind, liftExc, ret, newId.
  assert (Hskip : exists new : list UnifiedDataItem,
             (Ok acc, n) = (Ok (acc ++ new), n + length new)
             /\ map eraseId new = []
             /\ map id new = map uuidv4 (seq n (length new))).
  { exists []. rewrite app_nil_r, Nat.add_0_r. repeat split. }
  destruct (String.eqb (trim line) ""); [exact Hskip |].
  destruct (jsonParse line) as [logLineEntry |]; [| exact Hskip].
  destruct (getProp logLineEntry "Instance") as [instanceValue |] eqn:Hi;
    [| exact Hskip].
  destruct (getProp_defined _ _ "Solution" _ Hi) as [solution Hsol].
  rewrite Hsol.
  destruct (parseGenericInstanceNameOf instanceValue)
    as [[instanceName parsed] |]; [| exact Hskip].
  destruct (getProp logLineEntry "Result") as [scoreStr |]; [| exact Hskip].
  destruct (getProp logLineEntry "Time") as [timeStr |]; [| exact Hskip].
  destruct (strictEqualsString scoreStr "--" || strictEqualsString timeStr "--").
  - eexists [_]. simpl. rewrite Nat.add_1_r. repeat split.
  - destruct (parseFloat scoreStr); [| exact Hskip].
    destruct (parseFloat timeStr); [| exact Hskip].
    eexists [_]. simpl. rewrite Nat.add_1_r. repeat split.
Qed.

Lemma forLines_uniform (logFilename : string) (lines : list string) :
  forall acc n,
  exists new,
    forLines logFilename lines acc n = (Ok (acc ++ new), n + length new)
    /\ map eraseId new = flat_map (lineRecords logFilename) lines
    /\ map id new = map uuidv4 (seq n (length new)).
Proof.
  induction lines as [| line rest IH]; intros acc n; cbn [forLines flat_map].
  - exists []. rewrite app_nil_r, Nat.add_0_r. repeat split.
  - unfold bind.
    destruct (line_uniform logFilename line acc n) as [new1 [-> [He1 Hi1]]].
    destruct (IH (acc ++ new1) (n + length new1)) as [new2 [-> [He2 Hi2]]].
    exists (new1 ++ new2). rewrite length_app, app_assoc, Nat.add_assoc.
    split; [reflexivity |]. split.
    + rewrite map_app, He1, He2. reflexivity.
    + rewrite map_app, Hi1, Hi2, seq_app, map_app. reflexivity.
Qed.
Lemma undecodable_line_no_record (logFilename line : string) :
  JSON_parse line = None -> lineRecords logFilename line = [].
Proof.
  intros Hbad. unfold lineRecords, returned, lineBody.
  destruct (String.eqb (trim line) ""); [reflexivity |].
  unfold bind, liftExc, jsonParse. rewrite Hbad. reflexivity.
Qed.

(** A line that decodes to an object with texts under [Instance],
    [Result] and [Time] gives exactly one record, with these fields. *)
Lemma wellformed_line_record (logFilename line : string)
    (props : list (string * JSValue)) (name result elapsed : string) :
  String.eqb (trim line) "" = false ->
  JSON_parse line = Some (JObj props) ->
  lookup "Instance" props = Some (JStr name) ->
  lookup "Result" props = Some (JStr result) ->
  lookup "Time" props = Some (JStr elapsed) ->
  let parsed := InstanceName.parseGenericInstanceName name in
  let unsolved := String.eqb result "--" || String.eqb elapsed "--" in
  lineRecords logFilename line
  = [{| id := "";
        sourceName := logFilename;
        entryOwner := logFilename;
        instance := name;
        numCustomers := InstanceName.numCustomers parsed;
        numVehicles := InstanceName.numVehicles parsed;
        problemVariant := InstanceName.problemVariant parsed;
        baseInstanceName := InstanceName.baseInstanceName parsed;
        score := if unsolved then None else Some (parseFloatString result);
        time := if unsolved then None else Some (parseFloatString elapsed);
        solutionString :=
          match lookup "Solution" props with
          | Some v => v
          | None => JUndefined
          end;
        isUnsolved := unsolved;
        sourceType := log |}].
Proof.
  intros Hblank Hjson Hi Hr Ht parsed unsolved.
  unfold lineRecords, returned, lineBody, bind, liftExc, ret, newId, jsonParse.
  rewrite Hblank, Hjson. unfold getProp.
  rewrite Hi. cbn [parseGenericInstanceNameOf]. rewrite Hr, Ht.
  cbn [strictEqualsString parseFloat ToString exc_bind]. fold unsolved.
  destruct unsolved; destruct (lookup "Solution" props); reflexivity.
Qed.
Lemma forLines_drop_skipped (logFilename bad : string)
    (before after : list string) :
  (forall acc n,
      tryCatch (lineBody logFilename bad acc) (fun _ => ret acc) n
      = (Ok acc, n)) ->
  forall acc n,
    forLines logFilename (before ++ bad :: after) acc n
    = forLines logFilename (before ++ after) acc n.
Proof.
  intros Hbad. induction before as [| line rest IH]; intros acc n.
  - cbn [app forLines]. unfold bind. rewrite Hbad. reflexivity.
  - cbn [app forLines]. unfold bind.
    destruct (tryCatch (lineBody logFilename line acc) (fun _ => ret acc) n)
      as [[a | e] n']; [apply IH | reflexivity].
Qed.

Lemma forLines_none_decodable (logFilename : string) (lines : list string) :
  forallb (fun line => negb (decodable line)) lines = true ->
  forall acc n, forLines logFilename lines acc n = (Ok acc, n).
Proof.
  induction lines as [| line rest IH]; intros Hall acc n; cbn [forLines].
  - reflexivity.
  - simpl in Hall. apply andb_true_iff in Hall. destruct Hall as [Hline Hrest].
    unfold decodable in Hline.
    destruct (JSON_parse line) eqn:Hj; [discriminate |].
    unfold bind. rewrite (undecodable_line_skipped _ _ _ _ Hj).
    apply IH. exact Hrest.
Qed.

End Log.

(** A log in which a line that is no JSON, the value [null] and an
    object without [Instance] stand between two well-formed lines: the
    two records come out, in order, with consecutive ids. *)
Example log_with_rejected_lines :
  let content :=
    (Samples.logLine ++ RefHost.nl ++ "not json" ++ RefHost.nl ++ "null"
     ++ RefHost.nl ++ RefHost.q "{'Time':'1'}" ++ RefHost.nl
     ++ RefHost.q
          "{'Instance':'50_5_2.vrp','Time':'--','Result':'--','Solution':''}")%string in
  let items := returned (@parseLogEntries RefHost.host content "solver.log" 0) in
  map instance items = ["50_5_1.vrp"; "50_5_2.vrp"]
  /\ map id items = ["id-0"; "id-1"]
  /\ map isUnsolved items = [false; true]
  /\ map score items = [Some (Finite (201 # 2)); None]
  /\ map time items = [Some (Finite (123 # 10)); None]
  /\ map (@rejected RefHost.host "solver.log") (@logLines content)
     = [false; true; true; true; false].
Proof. vm_compute. repeat split. Qed.

(** *** The leaderboard parser *)

Lemma parseCell_consistent (cellContentStr : string) :
  (cellIsUnsolved (parseCell cellContentStr) = true
   /\ cellScore (parseCell cellContentStr) = None)
  \/ (cellIsUnsolved (parseCell cellContentStr) = false
      /\ exists x, cellScore (parseCell cellContentStr) = Some x).
Proof.
  unfold parseCell.
  destruct (String.eqb cellContentStr "--" || String.eqb cellContentStr ""
            || startsWith "-- [" cellContentStr).
  - left. split; reflexivity.
  - destruct (matchScoreTime cellContentStr) as [[g1 g2] |].
    + right. split; [reflexivity |]. eexists. reflexivity.
    + left. split; reflexivity.
Qed.

Section Leaderboard.
Context `{Host}.

Lemma cellBody_extends (sourceFileName : string)
    (participantName entry problemInstance : JSValue)
    (acc : list UnifiedDataItem) (n : nat) :
  Extends Consistent acc
    (cellBody sourceFileName participantName entry problemInstance acc n).
Proof.
  unfold cellBody. revert n.
  apply extends_bind; intros key.
  apply extends_bind; intros cellContent.
  assert (Hrest : forall (text : Exc string) n,
             Extends Consistent acc
               ((parsed <- liftExc (parseGenericInstanceNameOf problemInstance) ;;
                 (let '(instanceName, parsedNameDetails) := parsed in
                  text0 <- liftExc text ;;
                  (let cellContentStr := trim text0 in
                   let outcome := parseCell cellContentStr in
                   itemId <- newId ;;
                   ret (acc ++
                        [{| id := itemId;
                            sourceName := sourceFileName;
                            entryOwner := ownerText participantName;
                            instance := instanceName;
                            numCustomers :=
                              InstanceName.numCustomers parsedNameDetails;
                            numVehicles :=
                              InstanceName.numVehicles parsedNameDetails;
                            problemVariant :=
                              InstanceName.problemVariant parsedNameDetails;
                            baseInstanceName :=
                              InstanceName.baseInstanceName parsedNameDetails;
                            score := cellScore outcome;
                            time := cellTime outcome;
                            solutionString := JNull;
                            isUnsolved := cellIsUnsolved outcome;
                            sourceType := leaderboard |}])))) n)).
  { intros text.
    apply extends_bind; intros [instanceName parsedNameDetails].
    apply extends_bind; intros text0. cbv zeta.
    apply extends_bind; intros itemId n.
    apply extends_push. unfold Consistent. simpl.
    apply parseCell_consistent. }
  intros n.
  destruct cellContent; try apply extends_same; apply Hrest.
Qed.

Lemma forColumns_extends (sourceFileName : string)
    (participantName entry : JSValue) (columns : list JSValue) :
  forall acc n,
    Extends Consistent acc
      (forColumns sourceFileName participantName entry columns acc n).
Proof.
  induction columns as [| column rest IH]; intros acc n; cbn [forColumns].
  - apply extends_same.
  - revert n. apply extends_chain.
    + intros n. apply cellBody_extends.
    + exact IH.
Qed.

Lemma forEntries_extends (sourceFileName : string) (columns : list JSValue)
    (entries : list JSValue) :
  forall acc n,
    Extends Consistent acc
      (forEntries sourceFileName columns entries acc n).
Proof.
  induction entries as [| entry rest IH]; intros acc n; cbn [forEntries].
  - apply extends_same.
  - revert n. apply extends_bind; intros nameValue. cbv zeta.
    apply extends_chain.
    + intros n. apply forColumns_extends.
    + exact IH.
Qed.

Lemma parseLeaderboardProps_extends (reactPropsJson sourceFileName : string)
    (n : nat) :
  Extends Consistent [] (parseLeaderboardProps reactPropsJson sourceFileName n).
Proof.
  unfold parseLeaderboardProps.
  destruct (JSON_parse reactPropsJson) as [leaderboardData |];
    [| apply (extends_same Consistent [])].
  revert n.
  apply extends_bind; intros columns.
  apply extends_bind; intros entries n.
  destruct columns; try apply (extends_same Consistent []).
  destruct entries; try apply (extends_same Consistent []).
  revert n. apply extends_bind; intros names. cbv zeta.
  apply forEntries_extends.
Qed.

Context `{Dom}.

Lemma parseLeaderboardHtml_extends (html : string)
    (sourceFileName : option string) (n : nat) :
  Extends Consistent []
    (parseLeaderboardHtmlToUnifiedData html sourceFileName n).
Proof.
  unfold parseLeaderboardHtmlToUnifiedData. cbv zeta.
  destruct (querySelector html leaderboardSelector) as [leaderboardDiv |];
    [| apply (extends_same Consistent [])].
  destruct (getAttribute leaderboardDiv "data-react-props")
    as [reactPropsJson |]; [| apply (extends_same Consistent [])].
  destruct (String.eqb reactPropsJson "");
    [apply (extends_same Consistent []) |].
  apply parseLeaderboardProps_extends.
Qed.

(** C1, as the code has it.  Every record that [parseLogEntries] or
    [parseLeaderboardHtmlToUnifiedData] returns is of exactly one of two
    kinds: flagged unsolved with the score [null], or flagged solved with
    a number as score.  The number is what [parseFloat] read and may be
    [NaN] or infinite. *)
Theorem parsers_return_consistent_records :
  (forall (logContent logFilename : string) (n : nat),
      Forall Consistent (returned (parseLogEntries logContent logFilename n)))
  /\ (forall (html : string) (sourceFileName : option string) (n : nat),
         Forall Consistent
           (returned (parseLeaderboardHtmlToUnifiedData html sourceFileName n)))
  /\ (forall item, Consistent item ->
         ~ ((isUnsolved item = true /\ score item = None)
            /\ (isUnsolved item = false /\ exists x, score item = Some x))).
Proof.
  repeat split.
  - intros logContent logFilename n. apply extends_returned.
    unfold parseLogEntries. apply forLines_extends.
  - intros html sourceFileName n. apply extends_returned.
    apply parseLeaderboardHtml_extends.
  - intros item _ [[Ht _] [Hf _]]. rewrite Ht in Hf. discriminate.
Qed.

End Leaderboard.

(** C1 as stated fails: a log line whose [Result] is no number, and a
    leaderboard cell that holds a lone dash, give a record that is
    flagged solved and whose score is [NaN]. *)
Lemma solved_record_with_NaN_score :
  let line := RefHost.q
    "{'Instance':'50_5_1.vrp','Time':'12.3','Result':'abc','Solution':'x'}" in
  let payload := RefHost.q
    "{'columns':[{'name':'5_4_10.vrp'}],'entries':[{'name':'Ann','5_4_10.vrp':'-'}]}" in
  let fromLog := returned (@parseLogEntries RefHost.host line "solver.log" 0) in
  let fromBoard :=
    returned (@parseLeaderboardProps RefHost.host payload "lb.html" 0) in
  map isUnsolved fromLog = [false]
  /\ map score fromLog = [Some NaN]
  /\ map isUnsolved fromBoard = [false]
  /\ map score fromBoard = [Some NaN]
  /\ ~ Forall ConsistentFinite fromLog
  /\ ~ Forall ConsistentFinite fromBoard.
Proof.
  vm_compute.
  repeat split; intros Hall; inversion Hall as [| x l Hx _]; subst;
    destruct Hx as [[Ht _] | [_ [x Hs]]]; discriminate.
Qed.

End ParserFacts.

(** ** The instance name parser *)

Module InstanceNameFacts.
Import InstanceName.

(** *** [parseInt] reads exactly the texts that start like an integer *)

Lemma digit_not_space (d : ascii) : isDigit d = true -> isWhiteSpace d = false.
Proof.
  unfold isDigit, isWhiteSpace. intros Hd.
  apply andb_true_iff in Hd. destruct Hd as [H1 H2].
  apply Nat.leb_le in H1. apply Nat.leb_le in H2.
  apply orb_false_iff. split; [apply orb_false_iff; split |].
  - apply andb_false_iff. right. apply Nat.leb_gt. lia.
  - apply Nat.eqb_neq. lia.
  - apply Nat.eqb_neq. lia.
Qed.

Lemma digit_not_sign (d : ascii) :
  isDigit d = true -> Ascii.eqb d "-" = false /\ Ascii.eqb d "+" = false.
Proof.
  intros Hd. split.
  - destruct (Ascii.eqb_spec d "-") as [-> |]; [discriminate Hd | reflexivity].
  - destruct (Ascii.eqb_spec d "+") as [-> |]; [discriminate Hd | reflexivity].
Qed.

Lemma parseInt_space (c : ascii) (s : string) :
  isWhiteSpace c = true -> parseInt (String c s) = parseInt s.
Proof. intros Hc. unfold parseInt. simpl trimStart. rewrite Hc. reflexivity. Qed.

(** What [parseInt] does on a text that starts with no white space. *)
Lemma parseInt_no_space (c : ascii) (s : string) :
  isWhiteSpace c = false ->
  parseInt (String c s)
  = let '(negative, s2) := splitSign (String c s) in
    let (digits, _) := spanDigits s2 in
    match digits with
    | EmptyString => None
    | String _ _ =>
        Some (if negative then - decimalValue digits else decimalValue digits)%Z
    end.
Proof. intros Hc. unfold parseInt. simpl trimStart. rewrite Hc. reflexivity. Qed.

Lemma spanDigits_digit (d : ascii) (s : string) :
  isDigit d = true -> exists run rest, spanDigits (String d s) = (String d run, rest).
Proof.
  intros Hd. simpl. rewrite Hd. destruct (spanDigits s) as [run rest].
  exists run, rest. reflexivity.
Qed.

Lemma spanDigits_other (c : ascii) (s : string) :
  isDigit c = false -> spanDigits (String c s) = (EmptyString, String c s).
Proof. intros Hc. simpl. rewrite Hc. reflexivity. Qed.

Lemma parseInt_reads_prefixed (s : string) :
  IntegerPrefixed s -> parseInt s <> None.
Proof.
  induction 1 as [c s Hc _ IH | c d s Hc Hd | d s Hd].
  - rewrite parseInt_space by exact Hc. exact IH.
  - rewrite parseInt_no_space by (destruct Hc as [-> | ->]; reflexivity).
    destruct (spanDigits_digit d s Hd) as [run [rest E]].
    destruct Hc as [-> | ->]; simpl splitSign; cbv beta iota; rewrite E;
      discriminate.
  - rewrite parseInt_no_space by (apply digit_not_space; exact Hd).
    destruct (digit_not_sign d Hd) as [Hm Hp].
    unfold splitSign. rewrite Hm, Hp.
    destruct (spanDigits_digit d s Hd) as [run [rest E]].
    rewrite E. discriminate.
Qed.

Lemma parseInt_only_prefixed (s : string) :
  parseInt s <> None -> IntegerPrefixed s.
Proof.
  induction s as [| c s IH]; intros Hp.
  - exfalso. apply Hp. reflexivity.
  - destruct (isWhiteSpace c) eqn:Hc.
    + apply IP_space; [exact Hc |]. apply IH.
      rewrite <- (parseInt_space c s Hc). exact Hp.
    + rewrite (parseInt_no_space c s Hc) in Hp. unfold splitSign in Hp.
      destruct (Ascii.eqb_spec c "-") as [-> | Hm];
        [| destruct (Ascii.eqb_spec c "+") as [-> | Hpl]].
      * destruct s as [| d s']; [exfalso; apply Hp; reflexivity |].
        destruct (isDigit d) eqn:Hd.
        -- apply IP_sign; [left; reflexivity | exact Hd].
        -- rewrite (spanDigits_other d s' Hd) in Hp.
           exfalso. apply Hp. reflexivity.
      * destruct s as [| d s']; [exfalso; apply Hp; reflexivity |].
        destruct (isDigit d) eqn:Hd.
        -- apply IP_sign; [right; reflexivity | exact Hd].
        -- rewrite (spanDigits_other d s' Hd) in Hp.
           exfalso. apply Hp. reflexivity.
      * destruct (isDigit c) eqn:Hd.
        -- apply IP_digit. exact Hd.
        -- rewrite (spanDigits_other c s Hd) in Hp.
           exfalso. apply Hp. reflexivity.
Qed.

(** C2, as the code has it.  The integer check is the one of [parseInt]:
    a segment passes when, after leading white space and an optional
    sign, it starts with a digit.  For every name whose first two
    segments do not both pass (or that has fewer than two segments), the
    parser takes the fallback of steps 4 and 5 and returns neither
    [numCustomers] nor [numVehicles]. *)
Theorem non_integer_segments_fall_through :
  forall (instanceName : string),
    let nameWithoutExtension := stripExtension instanceName in
    let parts := split "_" nameWithoutExtension in
    ~ (exists p0 p1 rest,
          parts = p0 :: p1 :: rest /\ IntegerPrefixed p0 /\ IntegerPrefixed p1) ->
    parseGenericInstanceName instanceName = fallbackName nameWithoutExtension
    /\ InstanceName.numCustomers (parseGenericInstanceName instanceName) = None
    /\ InstanceName.numVehicles (parseGenericInstanceName instanceName) = None.
Proof.
  intros instanceName nameWithoutExtension parts Hnot.
  assert (Hfall : parseGenericInstanceName instanceName
                  = fallbackName nameWithoutExtension).
  { unfold parseGenericInstanceName.
    fold nameWithoutExtension. fold parts.
    destruct (parseIntAt parts 0) as [a |] eqn:E0;
      [| rewrite andb_false_r; reflexivity].
    destruct (parseIntAt parts 1) as [b |] eqn:E1;
      [| rewrite andb_false_r; reflexivity].
    exfalso. apply Hnot. unfold parseIntAt in E0, E1.
    destruct parts as [| p0 [| p1 rest]]; try discriminate.
    exists p0, p1, rest. simpl in E0, E1.
    split; [reflexivity |].
    split; apply parseInt_only_prefixed; congruence. }
  rewrite Hfall. split; [reflexivity |].
  unfold fallbackName.
  destruct (negb _ && _); split; reflexivity.
Qed.

Lemma non_integer_segments_fall_through_witness :
  parseGenericInstanceName "problem_A_variant1.txt"
  = fallbackName (stripExtension "problem_A_variant1.txt")
  /\ InstanceName.numCustomers
       (parseGenericInstanceName "problem_A_variant1.txt") = None
  /\ InstanceName.numVehicles
       (parseGenericInstanceName "problem_A_variant1.txt") = None.
Proof.
  apply (non_integer_segments_fall_through "problem_A_variant1.txt").
  intros [p0 [p1 [rest [Hparts [H0 _]]]]].
  vm_compute in Hparts. injection Hparts as <- _ _.
  inversion H0 as [c s Hc _ | c d s Hc Hd | d s Hd]; subst; discriminate.
Defined.

(** The other direction: two leading segments that pass the check are
    read as the two sizes. *)
Lemma integer_prefixed_segments_accepted (instanceName p0 p1 : string)
    (rest : list string) :
  split "_" (stripExtension instanceName) = p0 :: p1 :: rest ->
  IntegerPrefixed p0 -> IntegerPrefixed p1 ->
  exists a b,
    parseInt p0 = Some a /\ parseInt p1 = Some b
    /\ InstanceName.numCustomers (parseGenericInstanceName instanceName) = Some a
    /\ InstanceName.numVehicles (parseGenericInstanceName instanceName) = Some b
    /\ InstanceName.baseInstanceName (parseGenericInstanceName instanceName)
       = (intToString a ++ "_" ++ intToString b)%string.
Proof.
  intros Hparts H0 H1.
  apply parseInt_reads_prefixed in H0. apply parseInt_reads_prefixed in H1.
  destruct (parseInt p0) as [a |] eqn:E0; [| contradiction].
  destruct (parseInt p1) as [b |] eqn:E1; [| contradiction].
  exists a, b. unfold parseGenericInstanceName. rewrite Hparts.
  cbn [parseIntAt nth_error]. rewrite E0, E1. simpl.
  repeat split.
Qed.

(** C2 as stated fails: a negative first segment and a first segment
    with trailing text are no plain integer literals, and both pass the
    check. *)
Lemma signed_and_trailing_segments_accepted :
  split "_" (stripExtension "-5_3") = ["-5"; "3"]
  /\ isPlainNat "-5" = false
  /\ InstanceName.numCustomers (parseGenericInstanceName "-5_3") = Some (-5)%Z
  /\ InstanceName.numVehicles (parseGenericInstanceName "-5_3") = Some 3%Z
  /\ split "_" (stripExtension "12abc_3_x.vrp") = ["12abc"; "3"; "x"]
  /\ isPlainNat "12abc" = false
  /\ InstanceName.numCustomers (parseGenericInstanceName "12abc_3_x.vrp")
     = Some 12%Z
  /\ InstanceName.baseInstanceName (parseGenericInstanceName "12abc_3_x.vrp")
     = "12_3".
Proof. vm_compute. repeat split. Qed.

(** *** When the base name is empty *)

Lemma lastIndexOf_bounds (c : ascii) (s : string) :
  (-1 <= lastIndexOf c s < strlen s)%Z.
Proof.
  unfold strlen. induction s as [| a s IH]; simpl lastIndexOf.
  - simpl. lia.
  - change (String.length (String a s)) with (S (String.length s)).
    destruct (0 <=? lastIndexOf c s)%Z eqn:E.
    + lia.
    + destruct (Ascii.eqb a c); lia.
Qed.

Lemma lastIndexOf_zero (c a : ascii) (s : string) :
  lastIndexOf c (String a s) = 0%Z <-> a = c /\ lastIndexOf c s = (-1)%Z.
Proof.
  simpl lastIndexOf. pose proof (lastIndexOf_bounds c s) as Hb.
  destruct (0 <=? lastIndexOf c s)%Z eqn:E.
  - apply Z.leb_le in E. split; [lia | intros [_ H]; lia].
  - apply Z.leb_gt in E.
    destruct (Ascii.eqb_spec a c) as [-> | Hne].
    + split; [intros _; split; [reflexivity | lia] | reflexivity].
    + split; [discriminate | intros [H _]; contradiction].
Qed.

Lemma substring_from_start_empty (k : Z) (s : string) :
  substring 0 k s = "" <-> (k <= 0)%Z \/ s = "".
Proof.
  unfold substring. rewrite Z.sub_0_r. simpl Z.to_nat at 1.
  destruct (Z.to_nat k) as [| m] eqn:E.
  - split; [intros _; left; lia |].
    intros _. destruct s; reflexivity.
  - destruct s as [| a s]; simpl.
    + split; [intros _; right; reflexivity | reflexivity].
    + split; [discriminate | intros [H | H]; [lia | discriminate]].
Qed.

(** The text before the last underscore is empty exactly when the name
    is empty or is one underscore followed by a non-empty text without
    underscore. *)
Lemma fallback_base_empty_iff (s : string) :
  InstanceName.baseInstanceName (fallbackName s) = ""
  <-> s = ""
      \/ exists suffix, s = String "_" suffix /\ suffix <> ""
                        /\ lastIndexOf "_" suffix = (-1)%Z.
Proof.
  unfold fallbackName.
  pose proof (lastIndexOf_bounds "_" s) as Hb.
  destruct (negb (lastIndexOf "_" s =? -1)%Z
            && (lastIndexOf "_" s <? strlen s - 1)%Z) eqn:C; simpl.
  - apply andb_true_iff in C. destruct C as [C1 C2].
    apply negb_true_iff in C1. apply Z.eqb_neq in C1. apply Z.ltb_lt in C2.
    rewrite substring_from_start_empty. split.
    + intros [Hk | Hs]; [| left; exact Hs].
      assert (Hz : lastIndexOf "_" s = 0%Z) by lia.
      destruct s as [| a r]; [simpl in Hz; lia |].
      apply lastIndexOf_zero in Hz. destruct Hz as [-> Hr].
      right. exists r. split; [reflexivity |]. split; [| exact Hr].
      intros ->. rewrite (proj2 (lastIndexOf_zero "_" "_" "")) in C2.
      * unfold strlen in C2. simpl in C2. lia.
      * split; reflexivity.
    + intros [-> | [suffix [-> [_ Hr]]]]; [right; reflexivity |].
      left. rewrite (proj2 (lastIndexOf_zero "_" "_" suffix)); [lia |].
      split; [reflexivity | exact Hr].
  - split; [intros ->; left; reflexivity |].
    intros [Hs | [suffix [-> [Hne Hr]]]]; [exact Hs |].
    exfalso.
    assert (Hz : lastIndexOf "_" (String "_" suffix) = 0%Z)
      by (apply lastIndexOf_zero; split; [reflexivity | exact Hr]).
    rewrite Hz in C. unfold strlen in C.
    destruct suffix as [| a r]; [apply Hne; reflexivity |].
    simpl String.length in C.
    assert (Hlt : (0 <? Z.of_nat (S (S (String.length r))) - 1)%Z = true)
      by (apply Z.ltb_lt; lia).
    rewrite Hlt in C. discriminate.
Qed.

Lemma append_separator_not_empty (x y : string) :
  (x ++ "_" ++ y)%string <> "".
Proof. destruct x; discriminate. Qed.

(** C3, as the code has it.  [baseInstanceName] is the empty string
    exactly when the name without its extension is empty, or is one
    underscore followed by a non-empty text that holds no underscore; for
    every other name it is non-empty. *)
Theorem baseInstanceName_empty_iff :
  forall (instanceName : string),
    InstanceName.baseInstanceName (parseGenericInstanceName instanceName) = ""
    <-> stripExtension instanceName = ""
        \/ exists suffix,
             stripExtension instanceName = String "_" suffix
             /\ suffix <> "" /\ lastIndexOf "_" suffix = (-1)%Z.
Proof.
  intros instanceName. unfold parseGenericInstanceName.
  set (s := stripExtension instanceName).
  destruct ((2 <=? length (split "_" s))
            && negb (isNaN_int (parseIntAt (split "_" s) 0))
            && negb (isNaN_int (parseIntAt (split "_" s) 1))) eqn:C;
    [| apply fallback_base_empty_iff].
  apply andb_true_iff in C. destruct C as [C C1].
  apply andb_true_iff in C. destruct C as [Clen C0].
  destruct (parseIntAt (split "_" s) 0) as [a |] eqn:E0; [| discriminate C0].
  destruct (parseIntAt (split "_" s) 1) as [b |] eqn:E1; [| discriminate C1].
  simpl InstanceName.baseInstanceName. split.
  - intros Hempty. exfalso.
    exact (append_separator_not_empty _ _ Hempty).
  - intros [Hs | [suffix [Hs _]]]; exfalso; rewrite Hs in *.
    + discriminate Clen.
    + simpl in E0. discriminate E0.
Qed.

(** C3 as stated fails: the base name is empty for the empty name, for a
    bare extension, and for a name that starts with its only
    underscore. *)
Lemma baseInstanceName_can_be_empty :
  InstanceName.baseInstanceName (parseGenericInstanceName "") = ""
  /\ InstanceName.baseInstanceName (parseGenericInstanceName ".vrp") = ""
  /\ InstanceName.baseInstanceName (parseGenericInstanceName "_final.txt") = ""
  /\ InstanceName.problemVariant (parseGenericInstanceName "_final.txt")
     = Some "final".
Proof. vm_compute. repeat split. Qed.

(** The worked name of the documentation. *)
Example parse_101_11_2 :
  parseGenericInstanceName "101_11_2.vrp"
  = {| InstanceName.numCustomers := Some 101%Z;
       InstanceName.numVehicles := Some 11%Z;
       InstanceName.problemVariant := Some "2";
       InstanceName.baseInstanceName := "101_11" |}.
Proof. reflexivity. Qed.

Example parse_generic_name :
  parseGenericInstanceName "problem_A_variant1.TXT"
  = {| InstanceName.numCustomers := None;
       InstanceName.numVehicles := None;
       InstanceName.problemVariant := Some "variant1";
       InstanceName.baseInstanceName := "problem_A" |}.
Proof. reflexivity. Qed.

End InstanceNameFacts.

(** ** The text of a leaderboard cell *)

Module CellFacts.
Import LeaderboardParser.

Fixpoint allInClass (inClass : ascii -> bool) (s : string) : bool :=
  match s with
  | EmptyString => true
  | String c r => inClass c && allInClass inClass r
  end.

Lemma spanClass_run (inClass : ascii -> bool) (run : string) (c : ascii)
    (rest : string) :
  allInClass inClass run = true -> inClass c = false ->
  spanClass inClass (run ++ String c rest) = (run, String c rest).
Proof.
  intros Hrun Hc. induction run as [| a run IH]; simpl.
  - rewrite Hc. reflexivity.
  - simpl in Hrun. apply andb_true_iff in Hrun. destruct Hrun as [Ha Hrun].
    rewrite Ha, (IH Hrun). reflexivity.
Qed.

(** The branch of an unsolved cell, as the code takes it: the two
    markers, or a text that starts with the marker, one space and a
    bracket.  The time is the first bracketed number after a marker, if
    there is one. *)
Lemma parseCell_unsolved_branch (cellContentStr : string) :
  cellContentStr = "--" \/ cellContentStr = ""
  \/ startsWith "-- [" cellContentStr = true ->
  parseCell cellContentStr
  = {| cellScore := None;
       cellTime := option_map parseFloatString
                     (matchUnsolvedTime cellContentStr);
       cellIsUnsolved := true |}.
Proof.
  intros Hc. unfold parseCell.
  replace (String.eqb cellContentStr "--" || String.eqb cellContentStr ""
           || startsWith "-- [" cellContentStr) with true.
  - destruct (matchUnsolvedTime cellContentStr); reflexivity.
  - symmetry. destruct Hc as [-> | [-> | Hs]]; [reflexivity | reflexivity |].
    rewrite Hs. apply orb_true_r.
Qed.

(** The two markers without a time. *)
Lemma parseCell_unsolved_marker :
  parseCell "--" = {| cellScore := None; cellTime := None; cellIsUnsolved := true |}
  /\ parseCell "" = {| cellScore := None; cellTime := None; cellIsUnsolved := true |}.
Proof. split; reflexivity. Qed.

(** The marker followed by one space and a bracketed time: the cell is
    unsolved and the time is the bracketed number. *)
Lemma parseCell_unsolved_with_time (digits : string) :
  digits <> "" -> allInClass isDigitOrDot digits = true ->
  parseCell ("-- [" ++ digits ++ "]")
  = {| cellScore := None;
       cellTime := Some (parseFloatString digits);
       cellIsUnsolved := true |}.
Proof.
  intros Hne Hall. unfold parseCell.
  assert (Hm : matchUnsolvedTime ("-- [" ++ digits ++ "]") = Some digits).
  { cbn [matchUnsolvedTime append]. unfold unsolvedTimeAt.
    cbn [trimStart]. change (isWhiteSpace " ") with true.
    change (isWhiteSpace "[") with false. cbv iota.
    rewrite (spanClass_run isDigitOrDot digits "]" "" Hall eq_refl).
    destruct digits; [contradiction | reflexivity]. }
  rewrite Hm.
  replace (String.eqb ("-- [" ++ digits ++ "]") "--"
           || String.eqb ("-- [" ++ digits ++ "]") ""
           || startsWith "-- [" ("-- [" ++ digits ++ "]")) with true.
  - reflexivity.
  - symmetry. apply orb_true_iff. right. unfold startsWith. simpl.
    destruct (digits ++ "]")%string; reflexivity.
Qed.

(** The worked cells of the documentation. *)
Example parseCell_score_and_time :
  parseCell "4388.34 [0.21]"
  = {| cellScore := Some (Finite (219417 # 50));
       cellTime := Some (Finite (21 # 100));
       cellIsUnsolved := false |}.
Proof. reflexivity. Qed.

Example parseCell_marker_and_time :
  parseCell "-- [5.0]"
  = {| cellScore := None; cellTime := Some (Finite 5); cellIsUnsolved := true |}.
Proof. reflexivity. Qed.

(** Text that neither pattern takes is kept as an unsolved cell. *)
Example parseCell_unrecognized :
  parseCell "n/a"
  = {| cellScore := None; cellTime := None; cellIsUnsolved := true |}.
Proof. reflexivity. Qed.

(** C4, at the cell text [--[5.0]].  The text matches the pattern of an
    unsolved cell with a time, the code does not take it for one: it has
    no space after the marker, so it reaches the pattern of a score, in
    which the marker itself is read as the score.  The record is flagged
    solved, with the score [NaN]. *)
Theorem unsolved_marker_without_space_read_as_score :
  let payload := RefHost.q
    "{'columns':[{'name':'5_4_10.vrp'}],'entries':[{'name':'Ann','5_4_10.vrp':'--[5.0]'}]}" in
  let items :=
    returned (@parseLeaderboardProps RefHost.host payload "lb.html" 0) in
  matchUnsolvedWithTime "--[5.0]" = Some "5.0"
  /\ parseCell "--[5.0]"
     = {| cellScore := Some NaN;
          cellTime := Some (Finite 5);
          cellIsUnsolved := false |}
  /\ map isUnsolved items = [false]
  /\ map score items = [Some NaN]
  /\ map time items = [Some (Finite 5)].
Proof. vm_compute. repeat split. Qed.

End CellFacts.

(* ================================================================== *)
(** * Part III: further properties of the code *)
(* ================================================================== *)

(** ** Texts *)

Module TextFacts.
Import InstanceNameFacts.

Lemma append_assoc (a b c : string) :
  ((a ++ b) ++ c)%string = (a ++ (b ++ c))%string.
Proof. induction a as [| x a IH]; simpl; [reflexivity | rewrite IH; reflexivity]. Qed.

Lemma length_append (a b : string) :
  String.length (a ++ b) = String.length a + String.length b.
Proof. induction a as [| c a IH]; simpl; [reflexivity | rewrite IH; reflexivity]. Qed.

Lemma substring_prefix_of_append (a r : string) :
  String.substring 0 (String.length a) (a ++ r) = a.
Proof.
  induction a as [| c a IH]; simpl.
  - destruct r; reflexivity.
  - rewrite IH. reflexivity.
Qed.

Lemma append_empty_r (a : string) : (a ++ "")%string = a.
Proof. induction a as [| c a IH]; simpl; [reflexivity | rewrite IH; reflexivity]. Qed.

Lemma substring_skip_prefix (a r : string) (m : nat) :
  String.substring (String.length a) m (a ++ r) = String.substring 0 m r.
Proof. induction a as [| c a IH]; simpl; [reflexivity | exact IH]. Qed.

Lemma substring_whole (s : string) :
  String.substring 0 (String.length s) s = s.
Proof. induction s as [| c s IH]; simpl; [reflexivity | rewrite IH; reflexivity]. Qed.

Lemma rev_append_spec (s acc : string) :
  rev_append s acc = (reverse s ++ acc)%string.
Proof.
  unfold reverse. revert acc.
  induction s as [| c s IH]; intros acc; simpl; [reflexivity |].
  rewrite (IH (String c acc)), (IH (String c "")), append_assoc. reflexivity.
Qed.

Lemma reverse_cons (c : ascii) (s : string) :
  reverse (String c s) = (reverse s ++ String c "")%string.
Proof. unfold reverse at 1. simpl. apply rev_append_spec. Qed.

Lemma reverse_append (a b : string) :
  reverse (a ++ b) = (reverse b ++ reverse a)%string.
Proof.
  induction a as [| c a IH]; simpl.
  - rewrite append_empty_r. reflexivity.
  - rewrite !reverse_cons, IH, append_assoc. reflexivity.
Qed.

Lemma reverse_involutive (s : string) : reverse (reverse s) = s.
Proof.
  induction s as [| c s IH]; [reflexivity |].
  rewrite reverse_cons, reverse_append, IH. reflexivity.
Qed.

Lemma length_reverse (s : string) : String.length (reverse s) = String.length s.
Proof.
  induction s as [| c s IH]; [reflexivity |].
  rewrite reverse_cons, length_append, IH. simpl. lia.
Qed.

Lemma lowerAscii_append (a b : string) :
  lowerAscii (a ++ b) = (lowerAscii a ++ lowerAscii b)%string.
Proof. induction a as [| c a IH]; simpl; [reflexivity | rewrite IH; reflexivity]. Qed.

Lemma length_lowerAscii (s : string) :
  String.length (lowerAscii s) = String.length s.
Proof. induction s as [| c s IH]; simpl; [reflexivity | rewrite IH; reflexivity]. Qed.

Lemma prefix_iff_append (p s : string) :
  String.prefix p s = true <-> exists r, s = (p ++ r)%string.
Proof.
  revert s. induction p as [| c p IH]; intros s.
  - split; [intros _; exists s; reflexivity | intros _; destruct s; reflexivity].
  - destruct s as [| d s]; simpl.
    + split; [discriminate | intros [r Hr]; discriminate].
    + destruct (ascii_dec c d) as [-> | Hne].
      * rewrite IH. split; intros [r Hr]; exists r; [rewrite Hr; reflexivity |].
        injection Hr as Hr. exact Hr.
      * split; [discriminate |]. intros [r Hr]. injection Hr as Hc _.
        symmetry in Hc. contradiction.
Qed.

Lemma prefix_empty (s : string) : String.prefix "" s = true.
Proof. destruct s; reflexivity. Qed.

(** A text cut [n] characters before its end. *)
Lemma cut_before_end (s : string) (n : nat) :
  n <= String.length s ->
  exists pre suf,
    s = (pre ++ suf)%string /\ String.length suf = n
    /\ String.substring 0 (String.length s - n) s = pre.
Proof.
  intros Hn.
  assert (Hcut : forall (k : nat) (t : string), k <= String.length t ->
            exists pre suf, t = (pre ++ suf)%string /\ String.length pre = k).
  { intros k. induction k as [| k IH]; intros t Hk.
    - exists "", t. split; reflexivity.
    - destruct t as [| c t]; [simpl in Hk; lia |].
      destruct (IH t) as [pre [suf [Ht Hl]]]; [simpl in Hk; lia |].
      exists (String c pre), suf. split; [simpl; rewrite <- Ht; reflexivity |].
      simpl. rewrite Hl. reflexivity. }
  destruct (Hcut (String.length s - n) s) as [pre [suf [Hs Hl]]]; [lia |].
  exists pre, suf.
  assert (Hlen : String.length s = String.length pre + String.length suf)
    by (rewrite Hs; apply length_append).
  split; [exact Hs |]. split; [lia |].
  rewrite <- Hl. rewrite Hs. apply substring_prefix_of_append.
Qed.

Lemma append_same_length_r (a b c d : string) :
  (a ++ b)%string = (c ++ d)%string -> String.length b = String.length d ->
  a = c /\ b = d.
Proof.
  revert c. induction a as [| x a IH]; intros c Heq Hlen.
  - destruct c as [| y c]; [split; [reflexivity | exact Heq] |].
    simpl in Heq. apply (f_equal String.length) in Heq. simpl in Heq.
    rewrite length_append in Heq. lia.
  - destruct c as [| y c].
    + simpl in Heq. apply (f_equal String.length) in Heq. simpl in Heq.
      rewrite length_append in Heq. lia.
    + simpl in Heq. injection Heq as -> Heq.
      destruct (IH c Heq Hlen) as [-> ->]. split; reflexivity.
Qed.

(** What the test behind the flag [i] and the anchor [$] says. *)
Lemma endsWithNoCase_spec (ext s : string) :
  endsWithNoCase ext s = true <->
  exists pre suf, s = (pre ++ suf)%string /\ lowerAscii suf = lowerAscii ext.
Proof.
  unfold endsWithNoCase. rewrite prefix_iff_append. split.
  - intros [r Hr].
    apply (f_equal reverse) in Hr.
    rewrite reverse_append, !reverse_involutive in Hr.
    assert (Hlen : String.length ext <= String.length s).
    { apply (f_equal String.length) in Hr.
      rewrite length_append, !length_lowerAscii in Hr. lia. }
    destruct (cut_before_end s (String.length ext) Hlen)
      as [pre [suf [Hs [Hl _]]]].
    exists pre, suf. split; [exact Hs |].
    rewrite Hs, lowerAscii_append in Hr.
    apply append_same_length_r in Hr; [exact (proj2 Hr) |].
    rewrite !length_lowerAscii. exact Hl.
  - intros [pre [suf [-> Hsuf]]].
    exists (reverse (lowerAscii pre)).
    rewrite lowerAscii_append, reverse_append, Hsuf. reflexivity.
Qed.

(** Where the last occurrence of a character is. *)
Lemma lastIndexOf_found (c : ascii) (s : string) :
  (0 <= lastIndexOf c s)%Z ->
  exists before after,
    s = (before ++ String c after)%string
    /\ lastIndexOf c s = Z.of_nat (String.length before)
    /\ lastIndexOf c after = (-1)%Z.
Proof.
  induction s as [| a s IH]; simpl lastIndexOf; intros Hk.
  - lia.
  - destruct (0 <=? lastIndexOf c s)%Z eqn:E.
    + apply Z.leb_le in E. destruct (IH E) as [before [after [Hs [Hidx Hafter]]]].
      exists (String a before), after. split; [simpl; rewrite <- Hs; reflexivity |].
      split; [| exact Hafter]. rewrite Hidx. simpl String.length. lia.
    + apply Z.leb_gt in E. destruct (Ascii.eqb_spec a c) as [-> | Hne]; [| lia].
      exists EmptyString, s. split; [reflexivity |]. split; [reflexivity |].
      pose proof (lastIndexOf_bounds c s). lia.
Qed.

Lemma split_not_nil (c : ascii) (s : string) : split c s <> [].
Proof.
  destruct s as [| a s]; simpl; [discriminate |].
  destruct (Ascii.eqb a c); [discriminate |].
  destruct (split c s); discriminate.
Qed.

Lemma concat_cons2 (sep x y : string) (l : list string) :
  String.concat sep (x :: y :: l)
  = (x ++ sep ++ String.concat sep (y :: l))%string.
Proof. reflexivity. Qed.

(** [parts.join(sep)] undoes [s.split(sep)]. *)
Lemma join_split (c : ascii) (s : string) :
  join (String c "") (split c s) = s.
Proof.
  unfold join. induction s as [| a s IH]; [reflexivity |].
  simpl split. pose proof (split_not_nil c s) as Hnn.
  destruct (split c s) as [| x xs]; [contradiction |].
  destruct (Ascii.eqb_spec a c) as [-> | Hne].
  - rewrite concat_cons2, IH. reflexivity.
  - destruct xs as [| y ys].
    + simpl in *. rewrite IH. reflexivity.
    + rewrite concat_cons2 in *. rewrite <- IH. reflexivity.
Qed.

End TextFacts.


(** ** The instance name parser: what the result is made of *)

Module NameShapeFacts.
Import InstanceName InstanceNameFacts TextFacts.

Lemma fallbackName_shape (s : string) :
  exists variant,
    InstanceName.problemVariant (fallbackName s) = Some variant
    /\ InstanceName.numCustomers (fallbackName s) = None
    /\ InstanceName.numVehicles (fallbackName s) = None
    /\ ((InstanceName.baseInstanceName (fallbackName s) = s
         /\ variant = "default"
         /\ (lastIndexOf "_" s = (-1)%Z
             \/ lastIndexOf "_" s = (strlen s - 1)%Z))
        \/ ((InstanceName.baseInstanceName (fallbackName s)
             ++ "_" ++ variant)%string = s
            /\ variant <> ""
            /\ lastIndexOf "_" variant = (-1)%Z)).
Proof.
  unfold fallbackName. pose proof (lastIndexOf_bounds "_" s) as Hb.
  destruct (negb (lastIndexOf "_" s =? -1)%Z
            && (lastIndexOf "_" s <? strlen s - 1)%Z) eqn:C.
  - apply andb_true_iff in C. destruct C as [C1 C2].
    apply negb_true_iff in C1. apply Z.eqb_neq in C1. apply Z.ltb_lt in C2.
    eexists. split; [reflexivity |]. split; [reflexivity |].
    split; [reflexivity |]. right. simpl.
    destruct (lastIndexOf_found "_" s) as [before [after [Hs [Hidx Hafter]]]];
      [lia |].
    assert (Hbase : substring 0 (lastIndexOf "_" s) s = before).
    { rewrite Hidx, Hs. unfold substring. rewrite Z.sub_0_r, Nat2Z.id.
      apply substring_prefix_of_append. }
    assert (Hvar : substringFrom (lastIndexOf "_" s + 1) s = after).
    { rewrite Hidx, Hs. unfold substringFrom, substring, strlen.
      replace (Z.to_nat (Z.of_nat (String.length (before ++ String "_" after))
                         - (Z.of_nat (String.length before) + 1)))
        with (String.length after)
        by (rewrite length_append; simpl String.length; lia).
      replace (Z.to_nat (Z.of_nat (String.length before) + 1))
        with (String.length (before ++ "_")%string)
        by (rewrite length_append; simpl String.length; lia).
      replace (before ++ String "_" after)%string
        with ((before ++ "_") ++ after)%string
        by (rewrite append_assoc; reflexivity).
      rewrite substring_skip_prefix. apply substring_whole. }
    rewrite Hbase, Hvar.
    split; [symmetry; exact Hs |].
    split; [| exact Hafter].
    intros ->. rewrite Hidx in C2. rewrite Hs in C2. unfold strlen in C2.
    rewrite length_append in C2. simpl String.length in C2. lia.
  - eexists. split; [reflexivity |]. split; [reflexivity |].
    split; [reflexivity |]. left. simpl. split; [reflexivity |].
    split; [reflexivity |].
    apply andb_false_iff in C. destruct C as [C | C].
    + left. apply negb_false_iff in C. apply Z.eqb_eq in C. exact C.
    + right. apply Z.ltb_ge in C. lia.
Qed.

(** X1.  The fallback of [parseGenericInstanceName] loses no text.
    When the result has no customer count it has no vehicle count
    either, and then either the base name is the whole name without its
    extension and the variant is ["default"] (the name has no
    underscore, or ends with one), or the name without its extension is
    the base name, an underscore and the variant, where the variant is
    not empty and holds no underscore. *)
Theorem unsized_name_reassembles (instanceName : string) :
  InstanceName.numCustomers (parseGenericInstanceName instanceName) = None ->
  InstanceName.numVehicles (parseGenericInstanceName instanceName) = None
  /\ exists variant,
       InstanceName.problemVariant (parseGenericInstanceName instanceName)
       = Some variant
       /\ ((InstanceName.baseInstanceName (parseGenericInstanceName instanceName)
            = stripExtension instanceName
            /\ variant = "default"
            /\ (lastIndexOf "_" (stripExtension instanceName) = (-1)%Z
                \/ lastIndexOf "_" (stripExtension instanceName)
                   = (strlen (stripExtension instanceName) - 1)%Z))
           \/ ((InstanceName.baseInstanceName
                  (parseGenericInstanceName instanceName)
                ++ "_" ++ variant)%string = stripExtension instanceName
               /\ variant <> ""
               /\ lastIndexOf "_" variant = (-1)%Z)).
Proof.
  unfold parseGenericInstanceName.
  destruct (fallbackName_shape (stripExtension instanceName))
    as [variant [Hv [Hc [Hn Hshape]]]].
  destruct ((2 <=? length (split "_" (stripExtension instanceName)))
            && negb (isNaN_int (parseIntAt (split "_" (stripExtension instanceName)) 0))
            && negb (isNaN_int (parseIntAt (split "_" (stripExtension instanceName)) 1))).
  - destruct (parseIntAt (split "_" (stripExtension instanceName)) 0);
      [destruct (parseIntAt (split "_" (stripExtension instanceName)) 1) |].
    + simpl. discriminate.
    + intros _. split; [exact Hn |]. exists variant. split; [exact Hv | exact Hshape].
    + intros _. split; [exact Hn |]. exists variant. split; [exact Hv | exact Hshape].
  - intros _. split; [exact Hn |]. exists variant. split; [exact Hv | exact Hshape].
Qed.

Lemma unsized_name_reassembles_witness :
  InstanceName.numCustomers (parseGenericInstanceName "tour_final.TXT") = None
  /\ InstanceName.baseInstanceName (parseGenericInstanceName "tour_final.TXT")
     = "tour"
  /\ InstanceName.numVehicles (parseGenericInstanceName "tour_final.TXT") = None.
Proof.
  split; [reflexivity |]. split; [reflexivity |].
  exact (proj1 (unsized_name_reassembles "tour_final.TXT" eq_refl)).
Defined.

(** X2.  The sized form of [parseGenericInstanceName].  When the
    result has a customer count, the name without its extension splits
    at underscores into at least two segments; the two counts are what
    [parseInt] reads in the first two; the base name is written anew
    from the two numbers (so ["007_+3_a"] has the base name ["7_3"]);
    the variant is the text after the second underscore, underscores
    included, or ["default"] when there is none. *)
Theorem sized_name_shape (instanceName : string) (a : Z) :
  InstanceName.numCustomers (parseGenericInstanceName instanceName) = Some a ->
  exists b p0 p1 rest,
    split "_" (stripExtension instanceName) = p0 :: p1 :: rest
    /\ join "_" (p0 :: p1 :: rest) = stripExtension instanceName
    /\ parseInt p0 = Some a
    /\ parseInt p1 = Some b
    /\ InstanceName.numVehicles (parseGenericInstanceName instanceName) = Some b
    /\ InstanceName.baseInstanceName (parseGenericInstanceName instanceName)
       = (intToString a ++ "_" ++ intToString b)%string
    /\ InstanceName.problemVariant (parseGenericInstanceName instanceName)
       = Some match rest with
              | [] => "default"
              | _ :: _ => join "_" rest
              end.
Proof.
  unfold parseGenericInstanceName.
  pose proof (join_split "_" (stripExtension instanceName)) as Hjoin.
  destruct (fallbackName_shape (stripExtension instanceName))
    as [variant [_ [Hc _]]].
  destruct (split "_" (stripExtension instanceName)) as [| p0 [| p1 rest]] eqn:E.
  - simpl. rewrite Hc. discriminate.
  - cbn [length Nat.leb andb]. rewrite Hc. discriminate.
  - cbn [length Nat.leb andb parseIntAt nth_error].
    destruct (parseInt p0) as [x |] eqn:E0;
      [| cbn [isNaN_int negb andb]; rewrite Hc; discriminate].
    destruct (parseInt p1) as [y |] eqn:E1;
      [| cbn [isNaN_int negb andb]; rewrite Hc; discriminate].
    cbn [isNaN_int negb andb InstanceName.numCustomers InstanceName.numVehicles
         InstanceName.baseInstanceName InstanceName.problemVariant].
    intros Ha. injection Ha as <-.
    exists y, p0, p1, rest. repeat split; try reflexivity; try assumption.
    destruct rest; reflexivity.
Qed.

Lemma sized_name_shape_witness :
  InstanceName.numCustomers (parseGenericInstanceName "007_+3_a_b.vrp") = Some 7%Z
  /\ exists b p0 p1 rest,
       split "_" (stripExtension "007_+3_a_b.vrp") = p0 :: p1 :: rest
       /\ join "_" (p0 :: p1 :: rest) = stripExtension "007_+3_a_b.vrp"
       /\ parseInt p0 = Some 7%Z
       /\ parseInt p1 = Some b
       /\ InstanceName.numVehicles (parseGenericInstanceName "007_+3_a_b.vrp")
          = Some b
       /\ InstanceName.baseInstanceName (parseGenericInstanceName "007_+3_a_b.vrp")
          = (intToString 7 ++ "_" ++ intToString b)%string
       /\ InstanceName.problemVariant (parseGenericInstanceName "007_+3_a_b.vrp")
          = Some match rest with
                 | [] => "default"
                 | _ :: _ => join "_" rest
                 end.
Proof.
  split; [reflexivity |].
  exact (sized_name_shape "007_+3_a_b.vrp" 7%Z eq_refl).
Defined.

Lemma knownExtensions_lower (known : string) :
  In known knownExtensions -> lowerAscii known = known.
Proof.
  simpl. intros [<- | [<- | [<- | [<- | []]]]]; reflexivity.
Qed.

(** X3.  The extension.  What [parseGenericInstanceName] takes off
    the end of a name is either nothing, and then no ending of the name
    is [.vrp], [.txt], [.log] or [.html] in any letter case, or one such
    ending; the rest of the name is kept as it is. *)
Theorem stripExtension_removes_one_suffix (instanceName : string) :
  exists ext,
    instanceName = (stripExtension instanceName ++ ext)%string
    /\ ((ext = ""
         /\ forall pre suf, instanceName = (pre ++ suf)%string ->
                            ~ In (lowerAscii suf) knownExtensions)
        \/ In (lowerAscii ext) knownExtensions).
Proof.
  unfold stripExtension.
  destruct (find (fun ext => endsWithNoCase ext instanceName) knownExtensions)
    as [known |] eqn:F.
  - apply find_some in F. destruct F as [Hin Hends].
    apply endsWithNoCase_spec in Hends.
    destruct Hends as [pre [suf [Hs Hsuf]]].
    exists suf. split.
    + unfold substring, strlen. rewrite Z.sub_0_r.
      replace (Z.to_nat (Z.of_nat (String.length instanceName)
                         - Z.of_nat (String.length known)))
        with (String.length pre).
      * rewrite Hs at 2. rewrite substring_prefix_of_append. exact Hs.
      * apply (f_equal String.length) in Hsuf.
        rewrite !length_lowerAscii in Hsuf.
        rewrite Hs, length_append. lia.
    + right. rewrite Hsuf, (knownExtensions_lower known Hin). exact Hin.
  - exists "". split; [rewrite append_empty_r; reflexivity |]. left.
    split; [reflexivity |]. intros pre suf Hs Hin.
    pose proof (find_none _ _ F _ Hin) as Hnot. cbv beta in Hnot.
    assert (Hyes : endsWithNoCase (lowerAscii suf) instanceName = true).
    { apply endsWithNoCase_spec. exists pre, suf. split; [exact Hs |].
      symmetry. apply knownExtensions_lower. exact Hin. }
    congruence.
Qed.

(** X4.  A name followed by one of the four extensions, in any
    letter case, is read as the name alone: only the last extension is
    taken off (["a.txt.HTML"] gives ["a.txt"]), and the result of
    [parseGenericInstanceName] does not depend on which of the four it
    was. *)
Theorem stripExtension_undoes_one_extension (name ext : string) :
  In (lowerAscii ext) knownExtensions ->
  stripExtension (name ++ ext) = name
  /\ parseGenericInstanceName (name ++ ext)
     = parseGenericInstanceName (name ++ ".vrp").
Proof.
  intros Hext.
  assert (Hstrip : forall e, In (lowerAscii e) knownExtensions ->
                             stripExtension (name ++ e) = name).
  { clear ext Hext. intros ext Hext. unfold stripExtension, endsWithNoCase.
    assert (Hlen : String.length (lowerAscii ext) = String.length ext)
      by apply length_lowerAscii.
    assert (Hcut : forall k : Z, k = strlen ext ->
               substring 0 (strlen (name ++ ext) - k) (name ++ ext) = name).
    { intros k ->. unfold substring, strlen.
      rewrite length_append, Z.sub_0_r.
      replace (Z.to_nat (Z.of_nat (String.length name + String.length ext)
                         - Z.of_nat (String.length ext)))
        with (String.length name) by lia.
      apply substring_prefix_of_append. }
    rewrite lowerAscii_append, reverse_append.
    simpl in Hext.
    destruct Hext as [H | [H | [H | [H | []]]]]; rewrite <- H in *;
      simpl; rewrite prefix_empty; apply Hcut; unfold strlen;
      rewrite <- Hlen; reflexivity. }
  split; [apply Hstrip; exact Hext |].
  unfold parseGenericInstanceName.
  rewrite (Hstrip ext Hext), (Hstrip ".vrp"); [reflexivity |].
  left. reflexivity.
Qed.

Lemma stripExtension_undoes_one_extension_witness :
  In (lowerAscii ".HTML") knownExtensions
  /\ stripExtension ("12_3_a.txt" ++ ".HTML") = "12_3_a.txt"
  /\ parseGenericInstanceName ("12_3_a.txt" ++ ".HTML")
     = parseGenericInstanceName ("12_3_a.txt" ++ ".vrp").
Proof.
  assert (H : In (lowerAscii ".HTML") knownExtensions)
    by (simpl; tauto).
  split; [exact H |].
  exact (stripExtension_undoes_one_extension "12_3_a.txt" ".HTML" H).
Defined.

End NameShapeFacts.


(** ** The log parser: the records it builds *)

Module LogFacts.
Import LogParser ParserFacts Shapes.

Section Log.
Context `{Host}.

Lemma lineBody_from_log (logFilename line : string)
    (acc : list UnifiedDataItem) (n : nat) :
  Extends (FromLog logFilename) acc (lineBody logFilename line acc n).
Proof.
  unfold lineBody.
  destruct (String.eqb (trim line) ""); [apply extends_same |].
  revert n.
  apply extends_bind; intros logLineEntry.
  apply extends_bind; intros instanceValue.
  apply (extends_bind_post (FromLog logFilename) acc
           (fun parsed => snd parsed
                          = InstanceName.parseGenericInstanceName (fst parsed))).
  - intros n [name parsed] n' Hc. unfold liftExc in Hc.
    destruct instanceValue; simpl in Hc; try discriminate.
    injection Hc as <- <- _. reflexivity.
  - intros [instanceName parsedNameDetails] n Hparsed. simpl in Hparsed.
    revert n.
    apply extends_bind; intros scoreStr.
    apply extends_bind; intros timeStr. cbv zeta.
    apply extends_bind; intros sc.
    apply extends_bind; intros tm.
    apply extends_bind; intros itemId.
    apply extends_bind; intros solution n.
    apply extends_push. unfold FromLog, NamedByInstance. simpl.
    rewrite Hparsed. repeat split.
Qed.

Lemma forLines_from_log (logFilename : string) (lines : list string) :
  forall acc n,
    Extends (FromLog logFilename) acc (forLines logFilename lines acc n).
Proof.
  induction lines as [| line rest IH]; intros acc n; cbn [forLines].
  - apply extends_same.
  - revert n. apply extends_chain.
    + intros n. apply extends_tryCatch. apply lineBody_from_log.
    + exact IH.
Qed.

Lemma lineRecords_at_most_one (logFilename line : string) :
  length (lineRecords logFilename line) <= 1.
Proof.
  unfold lineRecords, returned, lineBody, bind, liftExc, ret, newId.
  destruct (String.eqb (trim line) ""); [simpl; lia |].
  destruct (jsonParse line) as [logLineEntry |]; [| simpl; lia].
  destruct (getProp logLineEntry "Instance") as [instanceValue |] eqn:Hi;
    [| simpl; lia].
  destruct (getProp_defined _ _ "Solution" _ Hi) as [solution Hsol].
  rewrite Hsol.
  destruct (parseGenericInstanceNameOf instanceValue)
    as [[instanceName parsed] |]; [| simpl; lia].
  destruct (getProp logLineEntry "Result") as [scoreStr |]; [| simpl; lia].
  destruct (getProp logLineEntry "Time") as [timeStr |]; [| simpl; lia].
  destruct (strictEqualsString scoreStr "--" || strictEqualsString timeStr "--").
  - simpl. lia.
  - destruct (parseFloat scoreStr); [| simpl; lia].
    destruct (parseFloat timeStr); simpl; lia.
Qed.

Lemma flat_map_at_most_one {A B : Type} (f : A -> list B) (l : list A) :
  (forall x, length (f x) <= 1) -> length (flat_map f l) <= length l.
Proof.
  intros Hf. induction l as [| x l IH]; simpl; [lia |].
  rewrite length_app. specialize (Hf x). lia.
Qed.

(** X5.  Every record that [parseLogEntries] returns carries the
    file name as [sourceName] and as [entryOwner], has the source type
    [log], and has the four name fields that [parseGenericInstanceName]
    gives for its [instance].  There are at most as many records as the
    trimmed content has lines. *)
Theorem log_records_carry_file_name (logContent logFilename : string) (n : nat) :
  Forall (FromLog logFilename)
         (returned (parseLogEntries logContent logFilename n))
  /\ length (returned (parseLogEntries logContent logFilename n))
     <= length (logLines logContent).
Proof.
  split.
  - apply extends_returned. unfold parseLogEntries. apply forLines_from_log.
  - unfold parseLogEntries.
    destruct (forLines_uniform logFilename (logLines logContent) [] n)
      as [new [E [He _]]].
    rewrite E. unfold returned. simpl.
    rewrite <- (length_map eraseId), He.
    apply flat_map_at_most_one. intros line. apply lineRecords_at_most_one.
Qed.

Lemma readings_eraseId (item : UnifiedDataItem) :
  readings (eraseId item) = readings item.
Proof. reflexivity. Qed.

(** X6.  No well-formed line is lost.  When every line of the
    trimmed content is non-blank and decodes to an object with texts
    under [Instance], [Result] and [Time], [parseLogEntries] returns one
    record per line, in order: the instance is the text of [Instance];
    the record is unsolved, without score and time, when [Result] or
    [Time] is ["--"]; otherwise score and time are what [parseFloat]
    reads in the two texts. *)
Theorem wellformed_lines_all_recorded (logContent logFilename : string)
    (n : nat) (fields : list (string * string * string)) :
  Forall2 WellFormedLine (logLines logContent) fields ->
  map readings (returned (parseLogEntries logContent logFilename n))
  = map expectedReadings fields.
Proof.
  intros Hall. unfold parseLogEntries.
  destruct (forLines_uniform logFilename (logLines logContent) [] n)
    as [new [E [He _]]].
  rewrite E. unfold returned. simpl.
  rewrite <- (map_ext _ _ readings_eraseId), <- (map_map eraseId readings), He.
  clear E He new.
  induction Hall as [| line [[name result] elapsed] lines fields Hline _ IH];
    [reflexivity |].
  cbn [flat_map map]. rewrite map_app, IH. f_equal.
  destruct Hline as [Hblank [props [Hjson [Hi [Hr Ht]]]]].
  rewrite (wellformed_line_record logFilename line props name result elapsed
             Hblank Hjson Hi Hr Ht).
  reflexivity.
Qed.

(** The lines are the pieces of the trimmed content between its line
    feeds. *)
Lemma split_oneLine (s : string) :
  Forall (fun line => oneLine line = true) (split newline s).
Proof.
  induction s as [| a s IH]; simpl.
  - constructor; [reflexivity | constructor].
  - destruct (Ascii.eqb a newline) eqn:E.
    + constructor; [reflexivity | exact IH].
    + destruct (split newline s) as [| x xs].
      * constructor; [simpl; rewrite E; reflexivity | constructor].
      * inversion IH as [| ? ? Hx Hxs]; subst.
        constructor; [simpl; rewrite E, Hx; reflexivity | exact Hxs].
Qed.

Lemma blank_line_no_record (logFilename line : string) :
  String.eqb (trim line) "" = true -> lineRecords logFilename line = [].
Proof.
  intros Hblank. unfold lineRecords, returned, lineBody.
  rewrite Hblank. reflexivity.
Qed.

Lemma rejected_line_no_record (logFilename line : string) :
  rejected logFilename line = true -> lineRecords logFilename line = [].
Proof.
  unfold rejected, lineRecords, returned.
  destruct (fst (lineBody logFilename line [] 0)); [discriminate | reflexivity].
Qed.

Lemma lineGives_lineRecords (logFilename line : string)
    (records : list UnifiedDataItem) :
  LineGives logFilename line records ->
  lineRecords logFilename line = records.
Proof.
  intros [[[Hblank | [Hbad | Hthrown]] ->]
          | [props [name [result [elapsed
               [Hblank [Hjson [Hi [Hr [Ht ->]]]]]]]]]].
  - apply blank_line_no_record. exact Hblank.
  - apply undecodable_line_no_record. exact Hbad.
  - apply rejected_line_no_record. exact Hthrown.
  - exact (wellformed_line_record logFilename line props name result elapsed
             Hblank Hjson Hi Hr Ht).
Qed.

Lemma lineGives_all (logFilename : string) (lines : list string)
    (records : list (list UnifiedDataItem)) :
  Forall2 (LineGives logFilename) lines records ->
  flat_map (lineRecords logFilename) lines = concat records.
Proof.
  induction 1 as [| line rs lines records Hline _ IH]; [reflexivity |].
  cbn [flat_map concat].
  rewrite (lineGives_lineRecords logFilename line rs Hline), IH. reflexivity.
Qed.

(** C8.  [parseLogEntries] reads the pieces of the trimmed content
    between its line feeds, and always returns an array, with
    consecutive ids: it holds, in the order of the lines, the records
    that each line gives when parsed on its own.  When every line is
    blank, fails to decode, makes the body throw, or is well formed (not
    blank, an object with texts under [Instance], [Result] and [Time]),
    the array holds exactly the records of the well-formed lines, one
    for each, in the order of the lines: a line that fails to decode
    gives nothing and takes nothing away from the lines before and
    after it.  A line that fails to decode, or on which the body throws
    for any other reason, has no effect at all: the result is the one of
    the same loop without the line, and the one of the loop run on the
    decodable lines only.  When no line decodes the result is the empty
    array. *)
Theorem parseLogEntries_skips_malformed_lines :
  forall (logContent logFilename : string) (n : nat),
    let lines := logLines logContent in
    (lines <> []
     /\ join (String newline "") lines = trim logContent
     /\ Forall (fun line => oneLine line = true) lines)
    /\ (exists items,
          parseLogEntries logContent logFilename n = (Ok items, n + length items)
          /\ map id items = map uuidv4 (seq n (length items))
          /\ map eraseId items = flat_map (lineRecords logFilename) lines
          /\ (forall records,
                Forall2 (LineGives logFilename) lines records ->
                map eraseId items = concat records))
    /\ (forall line, JSON_parse line = None -> lineRecords logFilename line = [])
    /\ parseLogEntries logContent logFilename n
       = forLines logFilename (filter decodable lines) [] n
    /\ (forall before bad after,
          lines = before ++ bad :: after ->
          JSON_parse bad = None \/ rejected logFilename bad = true ->
          parseLogEntries logContent logFilename n
          = forLines logFilename (before ++ after) [] n)
    /\ (forallb (fun line => negb (decodable line)) lines = true ->
        parseLogEntries logContent logFilename n = (Ok [], n)).
Proof.
  intros logContent logFilename n lines. unfold parseLogEntries. fold lines.
  split.
  { split; [apply TextFacts.split_not_nil |].
    split; [apply TextFacts.join_split | apply split_oneLine]. }
  split.
  { destruct (forLines_uniform logFilename lines [] n) as [items [E [He Hid]]].
    exists items. split; [exact E |]. split; [exact Hid |].
    split; [exact He |].
    intros records Hall. rewrite He. apply lineGives_all. exact Hall. }
  split; [apply undecodable_line_no_record |].
  split; [symmetry; apply forLines_filter_decodable |].
  split.
  - intros before bad after Hlines Hbad. rewrite Hlines.
    apply forLines_drop_skipped. intros acc m.
    destruct Hbad as [Hbad | Hbad].
    + apply undecodable_line_skipped. exact Hbad.
    + apply rejected_line_skipped. exact Hbad.
  - intros Hall. apply forLines_none_decodable. exact Hall.
Qed.

End Log.

Lemma wellformed_lines_all_recorded_witness :
  Forall2 (@WellFormedLine RefHost.host) (logLines Samples.repeatedLog)
          [("50_5_1.vrp", "100.5", "12.3"); ("50_5_1.vrp", "100.5", "12.3")]
  /\ map readings
       (returned (@parseLogEntries RefHost.host Samples.repeatedLog "solver.log" 0))
     = map expectedReadings
         [("50_5_1.vrp", "100.5", "12.3"); ("50_5_1.vrp", "100.5", "12.3")].
Proof.
  assert (Hline : @WellFormedLine RefHost.host Samples.logLine
                    ("50_5_1.vrp", "100.5", "12.3")).
  { split; [vm_compute; reflexivity |].
    exists [("Instance", JStr "50_5_1.vrp"); ("Time", JStr "12.3");
            ("Result", JStr "100.5"); ("Solution", JStr "x")].
    split; [vm_compute; reflexivity |]. repeat split. }
  assert (Hlines : Forall2 (@WellFormedLine RefHost.host)
                     (logLines Samples.repeatedLog)
                     [("50_5_1.vrp", "100.5", "12.3");
                      ("50_5_1.vrp", "100.5", "12.3")]).
  { replace (logLines Samples.repeatedLog)
      with [Samples.logLine; Samples.logLine] by (vm_compute; reflexivity).
    constructor; [exact Hline |]. constructor; [exact Hline | constructor]. }
  split; [exact Hlines |].
  exact (@wellformed_lines_all_recorded RefHost.host Samples.repeatedLog
           "solver.log" 0 _ Hlines).
Defined.

(** A log of three lines: the middle one is no JSON, the other two are
    well formed; their two records come out, in order. *)
Lemma parseLogEntries_skips_malformed_lines_witness :
  let content := (Samples.logLine ++ RefHost.nl ++ "not json" ++ RefHost.nl
                  ++ Samples.unsolvedLine)%string in
  let first := logRecord "solver.log"
                 [("Instance", JStr "50_5_1.vrp"); ("Time", JStr "12.3");
                  ("Result", JStr "100.5"); ("Solution", JStr "x")]
                 "50_5_1.vrp" "100.5" "12.3" in
  let last := logRecord "solver.log"
                [("Instance", JStr "50_5_2.vrp"); ("Time", JStr "--");
                 ("Result", JStr "--"); ("Solution", JStr "")]
                "50_5_2.vrp" "--" "--" in
  logLines content = [Samples.logLine; "not json"; Samples.unsolvedLine]
  /\ Forall2 (@LineGives RefHost.host "solver.log") (logLines content)
             [[first]; []; [last]]
  /\ exists items,
       @parseLogEntries RefHost.host content "solver.log" 0 = (Ok items, 2)
       /\ map id items = ["id-0"; "id-1"]
       /\ map eraseId items = [first; last].
Proof.
  intros content first last.
  assert (Hlines : logLines content
                   = [Samples.logLine; "not json"; Samples.unsolvedLine])
    by (vm_compute; reflexivity).
  assert (Hall : Forall2 (@LineGives RefHost.host "solver.log")
                   (logLines content) [[first]; []; [last]]).
  { rewrite Hlines. constructor; [| constructor; [| constructor;
                                                     [| constructor]]].
    - right.
      exists [("Instance", JStr "50_5_1.vrp"); ("Time", JStr "12.3");
              ("Result", JStr "100.5"); ("Solution", JStr "x")],
             "50_5_1.vrp", "100.5", "12.3".
      split; [vm_compute; reflexivity |].
      split; [vm_compute; reflexivity |]. repeat split.
    - left. split; [right; left; vm_compute; reflexivity | reflexivity].
    - right.
      exists [("Instance", JStr "50_5_2.vrp"); ("Time", JStr "--");
              ("Result", JStr "--"); ("Solution", JStr "")],
             "50_5_2.vrp", "--", "--".
      split; [vm_compute; reflexivity |].
      split; [vm_compute; reflexivity |]. repeat split. }
  split; [exact Hlines |]. split; [exact Hall |].
  destruct (@parseLogEntries_skips_malformed_lines RefHost.host content
              "solver.log" 0) as [_ [[items [E [Hid [_ Hrec]]]] _]].
  exists items.
  assert (Hlen : length items = 2).
  { rewrite <- (length_map eraseId), (Hrec _ Hall). reflexivity. }
  rewrite Hlen in E, Hid. split; [exact E |]. split; [exact Hid |].
  exact (Hrec _ Hall).
Defined.

End LogFacts.


(** ** The leaderboard parser: the records it builds, and when it gives none *)

Module BoardFacts.
Import LogParser LeaderboardParser ParserFacts Shapes.

Lemma existsb_eqb_In (s : string) (l : list string) :
  existsb (String.eqb s) l = false -> ~ In s l.
Proof.
  intros Hex Hin.
  assert (existsb (String.eqb s) l = true).
  { apply existsb_exists. exists s. split; [exact Hin | apply String.eqb_refl]. }
  congruence.
Qed.

Section Leaderboard.
Context `{Host} `{Dom}.

Lemma cellBody_from_leaderboard (sourceFileName : string)
    (participantName entry problemInstance : JSValue)
    (acc : list UnifiedDataItem) (n : nat) :
  problemColumn problemInstance = true ->
  Extends (FromLeaderboard sourceFileName) acc
    (cellBody sourceFileName participantName entry problemInstance acc n).
Proof.
  intros Hcol. unfold cellBody. revert n.
  apply extends_bind; intros key.
  apply extends_bind; intros cellContent.
  assert (Hrest : forall (text : Exc string) n,
             Extends (FromLeaderboard sourceFileName) acc
               ((parsed <- liftExc (parseGenericInstanceNameOf problemInstance) ;;
                 (let '(instanceName, parsedNameDetails) := parsed in
                  text0 <- liftExc text ;;
                  (let cellContentStr := trim text0 in
                   let outcome := parseCell cellContentStr in
                   itemId <- newId ;;
                   ret (acc ++
                        [{| id := itemId;
                            sourceName := sourceFileName;
                            entryOwner := ownerText participantName;
                            instance := instanceName;
                            numCustomers :=
                              InstanceName.numCustomers parsedNameDetails;
                            numVehicles :=
                              InstanceName.numVehicles parsedNameDetails;
                            problemVariant :=
                              InstanceName.problemVariant parsedNameDetails;
                            baseInstanceName :=
                              InstanceName.baseInstanceName parsedNameDetails;
                            score := cellScore outcome;
                            time := cellTime outcome;
                            solutionString := JNull;
                            isUnsolved := cellIsUnsolved outcome;
                            sourceType := leaderboard |}])))) n)).
  { intros text.
    apply (extends_bind_post (FromLeaderboard sourceFileName) acc
             (fun parsed =>
                problemInstance = JStr (fst parsed)
                /\ snd parsed
                   = InstanceName.parseGenericInstanceName (fst parsed))).
    - intros n [name parsed] n' Hc. unfold liftExc in Hc.
      destruct problemInstance; simpl in Hc; try discriminate.
      injection Hc as <- <- _. split; reflexivity.
    - intros [instanceName parsedNameDetails] n [Hname Hparsed].
      simpl in Hname, Hparsed. revert n.
      apply extends_bind; intros text0. cbv zeta.
      apply extends_bind; intros itemId n.
      apply extends_push. unfold FromLeaderboard, NamedByInstance. simpl.
      rewrite Hparsed. rewrite Hname in Hcol. unfold problemColumn in Hcol.
      simpl in Hcol. apply andb_true_iff in Hcol. destruct Hcol as [Hne Hex].
      apply negb_true_iff in Hne, Hex.
      repeat split.
      + intros ->. discriminate.
      + change (~ In instanceName knownNonProblemColumns).
        apply existsb_eqb_In. exact Hex.
      + exists (trim text0). repeat split. }
  intros n.
  destruct cellContent; try apply extends_same; apply Hrest.
Qed.

Lemma forColumns_from_leaderboard (sourceFileName : string)
    (participantName entry : JSValue) (columns : list JSValue) :
  Forall (fun name => problemColumn name = true) columns ->
  forall acc n,
    Extends (FromLeaderboard sourceFileName) acc
      (forColumns sourceFileName participantName entry columns acc n).
Proof.
  intros Hcols.
  induction Hcols as [| column rest Hcol _ IH]; intros acc n; cbn [forColumns].
  - apply extends_same.
  - revert n. apply extends_chain.
    + intros n. apply cellBody_from_leaderboard. exact Hcol.
    + exact IH.
Qed.

Lemma forEntries_from_leaderboard (sourceFileName : string)
    (columns : list JSValue) (entries : list JSValue) :
  Forall (fun name => problemColumn name = true) columns ->
  forall acc n,
    Extends (FromLeaderboard sourceFileName) acc
      (forEntries sourceFileName columns entries acc n).
Proof.
  intros Hcols.
  induction entries as [| entry rest IH]; intros acc n; cbn [forEntries].
  - apply extends_same.
  - revert n. apply extends_bind; intros nameValue. cbv zeta.
    apply extends_chain.
    + intros n. apply forColumns_from_leaderboard. exact Hcols.
    + exact IH.
Qed.

Lemma parseLeaderboardProps_from_leaderboard
    (reactPropsJson sourceFileName : string) (n : nat) :
  Extends (FromLeaderboard sourceFileName) []
    (parseLeaderboardProps reactPropsJson sourceFileName n).
Proof.
  unfold parseLeaderboardProps.
  destruct (JSON_parse reactPropsJson) as [leaderboardData |];
    [| apply (extends_same _ [])].
  revert n.
  apply extends_bind; intros columns.
  apply extends_bind; intros entries n.
  destruct columns; try apply (extends_same _ []).
  destruct entries; try apply (extends_same _ []).
  revert n. apply extends_bind; intros names. cbv zeta.
  apply forEntries_from_leaderboard.
  apply Forall_forall. intros name Hin. apply filter_In in Hin.
  exact (proj2 Hin).
Qed.

Lemma parseLeaderboardHtml_from_leaderboard (html : string)
    (sourceFileName : option string) (n : nat) :
  Extends (FromLeaderboard match sourceFileName with
                           | Some name => name
                           | None => "leaderboard.html"
                           end) []
    (parseLeaderboardHtmlToUnifiedData html sourceFileName n).
Proof.
  unfold parseLeaderboardHtmlToUnifiedData. cbv zeta.
  destruct (querySelector html leaderboardSelector) as [leaderboardDiv |];
    [| apply (extends_same _ [])].
  destruct (getAttribute leaderboardDiv "data-react-props")
    as [reactPropsJson |]; [| apply (extends_same _ [])].
  destruct (String.eqb reactPropsJson "");
    [apply (extends_same _ []) |].
  apply parseLeaderboardProps_from_leaderboard.
Qed.

(** X7.  Every record that [parseLeaderboardHtmlToUnifiedData]
    returns carries the given file name as [sourceName]
    (["leaderboard.html"] when none is given), has the source type
    [leaderboard] and the solution [null]; its instance is not empty
    and is none of the column names that the parser excludes; its name
    fields are those of [parseGenericInstanceName] on the instance; its
    score, time and flag are what [parseCell] reads in some text. *)
Theorem leaderboard_records_carry_file_name (html : string)
    (sourceFileName : option string) (n : nat) :
  Forall (FromLeaderboard match sourceFileName with
                          | Some name => name
                          | None => "leaderboard.html"
                          end)
         (returned (parseLeaderboardHtmlToUnifiedData html sourceFileName n)).
Proof. apply extends_returned. apply parseLeaderboardHtml_from_leaderboard. Qed.

(** An entry that is [null] makes the loop over the entries throw,
    whatever came before it. *)
Lemma forEntries_null_entry (sourceFileName : string)
    (columns : list JSValue) (entries : list JSValue) :
  In JNull entries ->
  forall acc n, exists e n',
    forEntries sourceFileName columns entries acc n = (Throw e, n').
Proof.
  induction entries as [| entry rest IH]; intros Hin acc n; [destruct Hin |].
  cbn [forEntries]. unfold bind at 1. unfold liftExc at 1.
  destruct Hin as [-> | Hin].
  - simpl. eexists _, _. reflexivity.
  - destruct (getProp entry "name") as [nameValue | e];
      [| eexists _, _; reflexivity].
    cbv zeta. unfold bind at 1.
    destruct (forColumns sourceFileName
                (if truthy nameValue then nameValue
                 else JStr "Unknown Participant")
                entry columns acc n) as [[acc' | e] n'].
    + apply IH. exact Hin.
    + eexists _, _. reflexivity.
Qed.

Lemma mapExc_null {A : Type} (f : JSValue -> Exc A) (l : list JSValue) :
  f JNull = Throw TypeError -> In JNull l ->
  exists e, mapExc f l = Throw e.
Proof.
  intros Hf. induction l as [| x l IH]; intros Hin; [destruct Hin |].
  simpl. destruct Hin as [-> | Hin].
  - rewrite Hf. eexists. reflexivity.
  - destruct (f x) as [y | e]; [| eexists; reflexivity].
    simpl. destruct (IH Hin) as [e ->]. eexists. reflexivity.
Qed.

(** X8.  One [null] among the columns or among the entries of the
    payload makes the leaderboard parser throw: no record is returned,
    those of the rows before it included.  (The log parser skips a line
    it cannot read; the leaderboard parser has no such guard.) *)
Theorem null_row_or_column_loses_every_record
    (reactPropsJson sourceFileName : string) (leaderboardData : JSValue)
    (columns entries : list JSValue) (n : nat) :
  JSON_parse reactPropsJson = Some leaderboardData ->
  getProp leaderboardData "columns" = Ok (JArr columns) ->
  getProp leaderboardData "entries" = Ok (JArr entries) ->
  In JNull columns \/ In JNull entries ->
  (exists e n',
     parseLeaderboardProps reactPropsJson sourceFileName n = (Throw e, n'))
  /\ returned (parseLeaderboardProps reactPropsJson sourceFileName n) = [].
Proof.
  intros Hjson Hcols Hents Hnull.
  assert (Hthrow : exists e n',
             parseLeaderboardProps reactPropsJson sourceFileName n
             = (Throw e, n')).
  { unfold parseLeaderboardProps. rewrite Hjson.
    unfold bind at 1. unfold liftExc at 1. rewrite Hcols.
    unfold bind at 1. unfold liftExc at 1. rewrite Hents.
    unfold bind at 1. unfold liftExc at 1.
    destruct (mapExc (fun col => getProp col "name") columns) as [names | e] eqn:E.
    - cbv zeta. apply forEntries_null_entry.
      destruct Hnull as [Hnull | Hnull]; [| exact Hnull].
      destruct (mapExc_null (fun col => getProp col "name") columns
                  eq_refl Hnull) as [e He].
      rewrite He in E. discriminate.
    - eexists _, _. reflexivity. }
  split; [exact Hthrow |].
  destruct Hthrow as [e [n' ->]]. reflexivity.
Qed.

(** X9.  A page that has no Leaderboard element, or whose element
    has no [data-react-props] attribute or an empty one, or whose
    attribute is no JSON text, or decodes to an object whose [columns]
    or [entries] is no array, gives the empty array and draws no id.  A
    payload that is the JSON value [null] is not covered by these
    guards: the parser throws a [TypeError]. *)
Theorem unusable_page_gives_no_record (html : string)
    (sourceFileName : option string) (n : nat) :
  (querySelector html leaderboardSelector = None ->
   parseLeaderboardHtmlToUnifiedData html sourceFileName n = (Ok [], n))
  /\ (forall leaderboardDiv,
        querySelector html leaderboardSelector = Some leaderboardDiv ->
        (getAttribute leaderboardDiv "data-react-props" = None
         \/ getAttribute leaderboardDiv "data-react-props" = Some ""
         \/ exists reactPropsJson,
              getAttribute leaderboardDiv "data-react-props"
              = Some reactPropsJson
              /\ (JSON_parse reactPropsJson = None
                  \/ exists props,
                       JSON_parse reactPropsJson = Some (JObj props)
                       /\ ((forall l, lookup "columns" props <> Some (JArr l))
                           \/ (forall l, lookup "entries" props
                                         <> Some (JArr l))))) ->
        parseLeaderboardHtmlToUnifiedData html sourceFileName n = (Ok [], n))
  /\ (forall leaderboardDiv reactPropsJson,
        querySelector html leaderboardSelector = Some leaderboardDiv ->
        getAttribute leaderboardDiv "data-react-props" = Some reactPropsJson ->
        reactPropsJson <> "" ->
        JSON_parse reactPropsJson = Some JNull ->
        parseLeaderboardHtmlToUnifiedData html sourceFileName n
        = (Throw TypeError, n)).
Proof.
  unfold parseLeaderboardHtmlToUnifiedData. cbv zeta. split; [| split].
  - intros ->. reflexivity.
  - intros leaderboardDiv -> [-> | [-> | [json [-> Hbad]]]];
      [reflexivity | reflexivity |].
    destruct (String.eqb json ""); [reflexivity |].
    unfold parseLeaderboardProps.
    destruct Hbad as [-> | [props [-> Hbad]]]; [reflexivity |].
    unfold bind, liftExc, getProp.
    destruct (lookup "columns" props) as [columns |] eqn:Ec;
      destruct (lookup "entries" props) as [entries |] eqn:Ee.
    + destruct columns; try reflexivity.
      destruct entries; try reflexivity.
      destruct Hbad as [Hbad | Hbad]; [elim (Hbad items) | elim (Hbad items0)];
        reflexivity.
    + destruct columns; reflexivity.
    + reflexivity.
    + reflexivity.
  - intros leaderboardDiv json -> -> Hne Hnull.
    apply String.eqb_neq in Hne. rewrite Hne.
    unfold parseLeaderboardProps. rewrite Hnull. reflexivity.
Qed.

End Leaderboard.

Lemma null_row_or_column_loses_every_record_witness :
  let payload := RefHost.q
    "{'columns':[{'name':'5_4_10.vrp'}],'entries':[{'name':'Ann','5_4_10.vrp':'7 [1]'},null]}" in
  exists leaderboardData columns entries,
    @JSON_parse RefHost.host payload = Some leaderboardData
    /\ getProp leaderboardData "columns" = Ok (JArr columns)
    /\ getProp leaderboardData "entries" = Ok (JArr entries)
    /\ (In JNull columns \/ In JNull entries)
    /\ returned (@parseLeaderboardProps RefHost.host payload "lb.html" 0) = [].
Proof.
  cbv zeta.
  eexists _, _, _.
  assert (Hj : @JSON_parse RefHost.host
                 (RefHost.q
    "{'columns':[{'name':'5_4_10.vrp'}],'entries':[{'name':'Ann','5_4_10.vrp':'7 [1]'},null]}")
               = Some (JObj [("columns", JArr [JObj [("name", JStr "5_4_10.vrp")]]);
                             ("entries",
                              JArr [JObj [("name", JStr "Ann");
                                          ("5_4_10.vrp", JStr "7 [1]")];
                                    JNull])]))
    by (vm_compute; reflexivity).
  split; [exact Hj |].
  split; [reflexivity |]. split; [reflexivity |].
  split; [right; right; left; reflexivity |].
  exact (proj2 (@null_row_or_column_loses_every_record RefHost.host _ "lb.html"
                  _ _ _ 0 Hj eq_refl eq_refl
                  (or_intror (or_intror (or_introl eq_refl))))).
Defined.

(** Four pages without usable payload: an empty attribute, a text that
    is no JSON, columns that are no array, and the value [null]. *)
Example pages_without_payload :
  @parseLeaderboardHtmlToUnifiedData RefHost.host RefPage.propsOnly "" None 0
  = (Ok [], 0)
  /\ @parseLeaderboardHtmlToUnifiedData RefHost.host RefPage.propsOnly
       "not json" None 0 = (Ok [], 0)
  /\ @parseLeaderboardHtmlToUnifiedData RefHost.host RefPage.propsOnly
       (RefHost.q "{'columns':5,'entries':[]}") None 0 = (Ok [], 0)
  /\ @parseLeaderboardHtmlToUnifiedData RefHost.host RefPage.propsOnly
       "null" None 0 = (Throw TypeError, 0).
Proof. vm_compute. repeat split. Qed.

End BoardFacts.


(** ** The text of a solved cell *)

Module CellForms.
Import LeaderboardParser CellFacts TextFacts.

Lemma trimStart_run (ws : string) (c : ascii) (rest : string) :
  allInClass isWhiteSpace ws = true -> isWhiteSpace c = false ->
  trimStart (ws ++ String c rest) = String c rest.
Proof.
  intros Hws Hc. induction ws as [| a ws IH]; simpl.
  - rewrite Hc. reflexivity.
  - simpl in Hws. apply andb_true_iff in Hws. destruct Hws as [Ha Hws].
    rewrite Ha. apply IH. exact Hws.
Qed.

Lemma spanClass_all (inClass : ascii -> bool) (run : string) :
  allInClass inClass run = true -> spanClass inClass run = (run, "").
Proof.
  induction run as [| a run IH]; simpl; [reflexivity |].
  intros H. apply andb_true_iff in H. destruct H as [Ha Hrun].
  rewrite Ha, (IH Hrun). reflexivity.
Qed.

Lemma scoreChar_not_space (c : ascii) :
  isScoreChar c = true -> isWhiteSpace c = false.
Proof.
  unfold isScoreChar, isWhiteSpace, isDigit, charCode.
  destruct c as [[] [] [] [] [] [] [] []]; vm_compute; congruence.
Qed.

(** A score text is no marker of an unsolved cell, whatever follows it
    after white space or a bracket. *)
Lemma score_text_not_unsolved (scoreText tail : string) :
  scoreText <> "" -> scoreText <> "--" ->
  allInClass isScoreChar scoreText = true ->
  (forall c r, tail = String c r -> isScoreChar c = false) ->
  String.eqb (scoreText ++ tail) "--" || String.eqb (scoreText ++ tail) ""
  || startsWith "-- [" (scoreText ++ tail) = false.
Proof.
  intros Hne Hmark Hall Htail. unfold startsWith.
  assert (Hdash : forall r, tail <> String "-" r).
  { intros r H. specialize (Htail _ _ H). discriminate Htail. }
  destruct (String.eqb_spec (scoreText ++ tail) "--") as [E1 | _].
  { exfalso. destruct scoreText as [| a [| b [| c s]]]; simpl in E1.
    - contradiction.
    - injection E1 as _ E1. apply (Hdash _ E1).
    - injection E1 as -> -> _. contradiction.
    - discriminate E1. }
  destruct (String.eqb_spec (scoreText ++ tail) "") as [E2 | _].
  { exfalso. destruct scoreText; [contradiction | discriminate E2]. }
  destruct (String.prefix "-- [" (scoreText ++ tail)) eqn:P; [| reflexivity].
  exfalso. apply prefix_iff_append in P. destruct P as [r E3].
  destruct scoreText as [| a [| b [| c s]]]; simpl in E3.
  - contradiction.
  - injection E3 as _ E3. apply (Hdash _ E3).
  - injection E3 as -> -> _. contradiction.
  - injection E3 as _ _ -> _. cbn [allInClass] in Hall.
    apply andb_true_iff in Hall. destruct Hall as [_ Hall].
    apply andb_true_iff in Hall. destruct Hall as [_ Hall].
    apply andb_true_iff in Hall. destruct Hall as [Hc _].
    vm_compute in Hc. discriminate Hc.
Qed.

(** X10.  The two forms of a solved cell.  A text made of digits,
    dots and dashes (other than the marker ["--"]) is read as a score
    without time; followed by any white space and a bracketed text of
    digits and dots, as a score with that time.  The cell is flagged
    solved in both cases. *)
Theorem parseCell_reads_score_and_time (scoreText ws timeText : string) :
  scoreText <> "" -> scoreText <> "--" ->
  allInClass isScoreChar scoreText = true ->
  allInClass isWhiteSpace ws = true ->
  timeText <> "" -> allInClass isDigitOrDot timeText = true ->
  parseCell scoreText
  = {| cellScore := Some (parseFloatString scoreText);
       cellTime := None;
       cellIsUnsolved := false |}
  /\ parseCell (scoreText ++ ws ++ "[" ++ timeText ++ "]")
     = {| cellScore := Some (parseFloatString scoreText);
          cellTime := Some (parseFloatString timeText);
          cellIsUnsolved := false |}.
Proof.
  intros Hne Hmark Hscore Hws Htne Htime. split.
  - unfold parseCell.
    pose proof (score_text_not_unsolved scoreText "" Hne Hmark Hscore) as Hg.
    rewrite append_empty_r in Hg. rewrite Hg; [| discriminate].
    unfold matchScoreTime. rewrite (spanClass_all _ _ Hscore).
    destruct scoreText; [contradiction | reflexivity].
  - change (scoreText ++ ws ++ "[" ++ timeText ++ "]")%string
      with (scoreText ++ ws ++ String "[" (timeText ++ "]"))%string.
    unfold parseCell.
    assert (Htail : exists c r,
               (ws ++ String "[" (timeText ++ "]"))%string = String c r
               /\ isScoreChar c = false).
    { destruct ws as [| w ws']; simpl.
      - eexists _, _. split; reflexivity.
      - eexists _, _. split; [reflexivity |].
        simpl in Hws. apply andb_true_iff in Hws. destruct Hws as [Hw _].
        destruct (isScoreChar w) eqn:E; [| reflexivity].
        apply scoreChar_not_space in E. congruence. }
    destruct Htail as [c [r [Htail Hc]]].
    rewrite (score_text_not_unsolved scoreText _ Hne Hmark Hscore).
    2:{ intros c' r' H. rewrite Htail in H. injection H as <- _. exact Hc. }
    unfold matchScoreTime.
    rewrite Htail, (spanClass_run _ _ _ _ Hscore Hc), <- Htail.
    rewrite (trimStart_run ws "[" _ Hws eq_refl).
    rewrite (spanClass_run isDigitOrDot timeText "]" "" Htime eq_refl).
    destruct scoreText; [contradiction |].
    destruct timeText; [contradiction | reflexivity].
Qed.

Lemma parseCell_reads_score_and_time_witness :
  parseCell "4388.34"
  = {| cellScore := Some (parseFloatString "4388.34");
       cellTime := None;
       cellIsUnsolved := false |}
  /\ parseCell ("4388.34" ++ " " ++ "[" ++ "0.21" ++ "]")
     = {| cellScore := Some (parseFloatString "4388.34");
          cellTime := Some (parseFloatString "0.21");
          cellIsUnsolved := false |}.
Proof.
  apply (parseCell_reads_score_and_time "4388.34" " " "0.21");
    try discriminate; reflexivity.
Defined.

End CellForms.


(** ** The metrics engine: counters, entries, size buckets *)

Module MetricsMore.
Import UnifiedAnalysis ListFacts MapFacts NumFacts MetricsFacts Shapes.

Lemma recordsOf_cons (item : UnifiedDataItem) (data : UnifiedData) (k : string) :
  recordsOf (item :: data) k
  = if String.eqb (entryOwner item) k then item :: recordsOf data k
    else recordsOf data k.
Proof. reflexivity. Qed.

(** The totals that the first pass leaves for an owner. *)
Lemma ownerStep_totals (k : string) (data : UnifiedData) :
  forall acc p,
    fold_left (ownerStep k) data acc = Some p ->
    let p0 := match acc with Some q => q | None => newOwnerMetrics end in
    totalProblems p = totalProblems p0 + length (recordsOf data k)
    /\ solvedCount p
       = solvedCount p0 + length (solvedScores (recordsOf data k))
    /\ totalScore p
       = fold_left num_add (solvedScores (recordsOf data k)) (totalScore p0).
Proof.
  induction data as [| item data IH]; intros acc p Hp; cbv zeta.
  - simpl in Hp. subst acc. simpl. repeat split; lia.
  - cbn [fold_left] in Hp. rewrite recordsOf_cons.
    unfold ownerStep at 2 in Hp.
    destruct (String.eqb (entryOwner item) k).
    + destruct (IH _ p Hp) as [Ht [Hs Hsum]]. cbv zeta in Ht, Hs, Hsum.
      unfold solvedScores in *. cbn [flat_map]. rewrite length_app, fold_left_app.
      rewrite Ht, Hs, Hsum. unfold accumulate.
      destruct (solvedScore item) as [s |]; simpl; repeat split; lia.
    + apply (IH acc p Hp).
Qed.

Lemma length_solvedScores (records : UnifiedData) :
  length (solvedScores records)
  = length (filter (fun item => match solvedScore item with
                                | Some _ => true
                                | None => false
                                end) records).
Proof.
  induction records as [| item records IH]; [reflexivity |].
  unfold solvedScores in *. simpl. rewrite length_app, IH.
  destruct (solvedScore item); reflexivity.
Qed.

Lemma filter_filter {A : Type} (f g : A -> bool) (l : list A) :
  filter f (filter g l) = filter (fun x => g x && f x) l.
Proof.
  induction l as [| a l IH]; [reflexivity |]. simpl.
  destruct (g a); simpl; [destruct (f a) |]; rewrite IH; reflexivity.
Qed.

Lemma filter_length_le {A : Type} (f : A -> bool) (l : list A) :
  length (filter f l) <= length l.
Proof.
  induction l as [| a l IH]; simpl; [lia |]. destruct (f a); simpl; lia.
Qed.

Lemma ownerStep_absent (k : string) (data : UnifiedData) :
  recordsOf data k = [] ->
  forall acc, fold_left (ownerStep k) data acc = acc.
Proof.
  induction data as [| item data IH]; intros Hnone acc; [reflexivity |].
  rewrite recordsOf_cons in Hnone. cbn [fold_left]. unfold ownerStep at 2.
  destruct (String.eqb (entryOwner item) k); [discriminate |].
  apply IH. exact Hnone.
Qed.

Lemma owner_totals (data : UnifiedData) (owner : string) (m : OwnerMetrics) :
  map_get String.eqb owner (calculateUnifiedMetrics data) = Some m ->
  totalProblems m = length (recordsOf data owner)
  /\ solvedCount m = length (solvedScores (recordsOf data owner))
  /\ totalScore m = sumScores (solvedScores (recordsOf data owner))
  /\ avgScore m
     = (if 0 <? solvedCount m
        then num_div (totalScore m) (num_of_nat (solvedCount m))
        else PosInfinity).
Proof.
  intros Hm. rewrite metrics_of_owner in Hm.
  destruct (fold_left (ownerStep owner) data None) as [p |] eqn:Hp;
    [| discriminate].
  injection Hm as <-.
  destruct (ownerStep_totals owner data None p Hp) as [Ht [Hs Hsum]].
  cbv zeta in Ht, Hs, Hsum. simpl in Ht, Hs, Hsum.
  cbn [secondPassStep snd totalScore avgScore solvedCount totalProblems].
  split; [exact Ht |]. split; [exact Hs |]. split; [exact Hsum | reflexivity].
Qed.

Lemma owner_counts_ordered (data : UnifiedData) (owner : string)
    (m : OwnerMetrics) :
  map_get String.eqb owner (calculateUnifiedMetrics data) = Some m ->
  bestSolutions m <= solvedCount m /\ solvedCount m <= totalProblems m.
Proof.
  intros Hm.
  destruct (owner_totals data owner m Hm) as [Ht [Hs _]].
  rewrite (bestSolutions_counts_records data owner m Hm).
  rewrite Hs, Ht, length_solvedScores. split.
  - unfold recordsOf. rewrite filter_filter.
    apply filter_length_mono. intros x _ Hc. unfold counted in Hc.
    apply andb_true_iff in Hc. destruct Hc as [-> Hc]. simpl.
    destruct (solvedScore x); [reflexivity | discriminate].
  - apply filter_length_le.
Qed.

(** X11.  The counters of [calculateUnifiedMetrics].  For an owner
    with an entry, [totalProblems] is the number of the owner's
    records, [solvedCount] the number of those that are solved,
    [totalScore] the sum of their scores in input order, and [avgScore]
    the quotient of the two (or [Infinity] without solved record);
    [bestSolutions <= solvedCount <= totalProblems], and
    [totalProblems] is at least 1. *)
Theorem metrics_count_the_records_of_the_owner (data : UnifiedData)
    (owner : string) (m : OwnerMetrics) :
  map_get String.eqb owner (calculateUnifiedMetrics data) = Some m ->
  totalProblems m = length (recordsOf data owner)
  /\ solvedCount m = length (solvedScores (recordsOf data owner))
  /\ totalScore m = sumScores (solvedScores (recordsOf data owner))
  /\ avgScore m
     = (if 0 <? solvedCount m
        then num_div (totalScore m) (num_of_nat (solvedCount m))
        else PosInfinity)
  /\ bestSolutions m <= solvedCount m
  /\ solvedCount m <= totalProblems m
  /\ 1 <= totalProblems m.
Proof.
  intros Hm.
  destruct (owner_totals data owner m Hm) as [Ht [Hs [Hsum Havg]]].
  destruct (owner_counts_ordered data owner m Hm) as [Hbest Hsolved].
  repeat (split; [assumption |]).
  rewrite Ht.
  destruct (recordsOf data owner) as [| item rest] eqn:E; [| simpl; lia].
  exfalso.
  assert (Hkey : map_get String.eqb owner (calculateUnifiedMetrics data)
                 <> None) by congruence.
  rewrite metrics_of_owner, (ownerStep_absent owner data E None) in Hkey.
  apply Hkey. reflexivity.
Qed.

Lemma metrics_count_the_records_of_the_owner_witness :
  exists m,
    map_get String.eqb "Bob" (calculateUnifiedMetrics Samples.tieData) = Some m
    /\ totalProblems m = 2 /\ solvedCount m = 2 /\ totalScore m = Finite 12
    /\ bestSolutions m <= solvedCount m.
Proof.
  destruct (map_get String.eqb "Bob" (calculateUnifiedMetrics Samples.tieData))
    as [m |] eqn:E; [| vm_compute in E; discriminate E].
  exists m. split; [reflexivity |].
  destruct (metrics_count_the_records_of_the_owner Samples.tieData "Bob" m E)
    as [Ht [Hs [Hsum [_ [Hb _]]]]].
  split; [rewrite Ht; reflexivity |].
  split; [rewrite Hs; reflexivity |].
  split; [rewrite Hsum; vm_compute; reflexivity | exact Hb].
Defined.

(** *** The owners that have an entry *)
Lemma map_fst_map_set {V : Type} (k : string) (v : V) (m : list (string * V)) :
  map fst (map_set String.eqb k v m)
  = if map_has String.eqb k m then map fst m else map fst m ++ [k].
Proof.
  unfold map_has. induction m as [| [k0 old] m IH]; simpl; [reflexivity |].
  destruct (String.eqb k0 k) eqn:E; simpl; [reflexivity |].
  rewrite IH. destruct (map_get String.eqb k m); reflexivity.
Qed.

Lemma map_get_In_keys {V : Type} (k : string) (m : list (string * V)) :
  In k (map fst m) <-> map_get String.eqb k m <> None.
Proof.
  induction m as [| [k0 v] m IH]; simpl.
  - split; [intros [] | intros H; apply H; reflexivity].
  - destruct (String.eqb k0 k) eqn:E.
    + apply String.eqb_eq in E. split; [discriminate | intros _; left; exact E].
    + apply String.eqb_neq in E. rewrite <- IH.
      split; [intros [H | H]; [contradiction | exact H] | intros H; right; exact H].
Qed.

Lemma NoDup_keys_map_set {V : Type} (k : string) (v : V) (m : list (string * V)) :
  NoDup (map fst m) -> NoDup (map fst (map_set String.eqb k v m)).
Proof.
  intros Hnd. rewrite map_fst_map_set. unfold map_has.
  destruct (map_get String.eqb k m) eqn:G; [exact Hnd |].
  apply NoDup_app; [exact Hnd | constructor; [intros [] | constructor] |].
  intros x Hx [<- | []]. apply map_get_In_keys in Hx. contradiction.
Qed.

Lemma firstPass_keys_NoDup (data : UnifiedData) :
  forall om bm, NoDup (map fst om) ->
    NoDup (map fst (fst (fold_left firstPassStep data (om, bm)))).
Proof.
  induction data as [| item data IH]; intros om bm Hnd; [exact Hnd |].
  cbn [fold_left].
  destruct (firstPassStep (om, bm) item) as [om' bm'] eqn:S.
  apply IH.
  replace om' with (fst (firstPassStep (om, bm) item)) by (rewrite S; reflexivity).
  unfold firstPassStep. cbn [fst].
  apply NoDup_keys_map_set.
  destruct (negb (map_has String.eqb (entryOwner item) om));
    [apply NoDup_keys_map_set |]; exact Hnd.
Qed.

Lemma metrics_keys (data : UnifiedData) :
  map fst (calculateUnifiedMetrics data) = map fst (fst (firstPass data)).
Proof.
  unfold calculateUnifiedMetrics. destruct (firstPass data) as [om bm].
  cbn [fst]. rewrite map_map. apply map_ext. intros [k p]. reflexivity.
Qed.

Lemma metrics_key_iff (data : UnifiedData) (owner : string) :
  In owner (map fst (calculateUnifiedMetrics data))
  <-> exists item, In item data /\ entryOwner item = owner.
Proof.
  rewrite map_get_In_keys, metrics_of_owner. split.
  - intros Hsome. destruct (recordsOf data owner) as [| item rest] eqn:E.
    + rewrite (ownerStep_absent owner data E None) in Hsome.
      exfalso. apply Hsome. reflexivity.
    + assert (Hin : In item (recordsOf data owner))
        by (rewrite E; left; reflexivity).
      apply filter_In in Hin. destruct Hin as [Hin Ho].
      apply String.eqb_eq in Ho. exists item. split; assumption.
  - intros Hex Hnone.
    destruct (fold_left (ownerStep owner) data None) eqn:F;
      [discriminate |].
    apply (ownerStep_present owner data None (or_intror Hex) F).
Qed.

(** X12.  The metrics have exactly one entry for every owner that
    has a record, and none for any other; they are empty exactly for
    the empty list of records. *)
Theorem metrics_have_one_entry_per_owner (data : UnifiedData) :
  NoDup (map fst (calculateUnifiedMetrics data))
  /\ (forall owner,
        In owner (map fst (calculateUnifiedMetrics data))
        <-> exists item, In item data /\ entryOwner item = owner)
  /\ (calculateUnifiedMetrics data = [] <-> data = []).
Proof.
  split; [| split; [apply metrics_key_iff |]].
  - rewrite metrics_keys. apply firstPass_keys_NoDup. constructor.
  - split.
    + intros Hempty. destruct data as [| item data]; [reflexivity |].
      assert (Hin : In (entryOwner item)
                       (map fst (calculateUnifiedMetrics (item :: data)))).
      { apply metrics_key_iff. exists item. split; [left |]; reflexivity. }
      rewrite Hempty in Hin. destruct Hin.
    + intros ->. reflexivity.
Qed.

Lemma fold_add_NaN (scores : list JSNumber) :
  fold_left num_add scores NaN = NaN.
Proof. induction scores as [| x l IH]; [reflexivity | exact IH]. Qed.

Lemma sum_with_NaN (scores : list JSNumber) :
  In NaN scores -> forall a, fold_left num_add scores a = NaN.
Proof.
  induction scores as [| x l IH]; intros Hin a; [destruct Hin |].
  simpl. destruct Hin as [-> | Hin].
  - replace (num_add a NaN) with NaN by (destruct a; reflexivity).
    apply fold_add_NaN.
  - apply IH. exact Hin.
Qed.

Lemma filter_length_strict {A : Type} (f g : A -> bool) (l : list A) (a : A) :
  (forall x, In x l -> f x = true -> g x = true) ->
  In a l -> g a = true -> f a = false ->
  length (filter f l) < length (filter g l).
Proof.
  induction l as [| b l IH]; intros Hfg Hin Hg Hf; [destruct Hin |].
  assert (Hfg' : forall x, In x l -> f x = true -> g x = true)
    by (intros x Hx; apply Hfg; right; exact Hx).
  simpl. destruct Hin as [-> | Hin].
  - rewrite Hg, Hf. simpl.
    pose proof (filter_length_mono f g l Hfg'). lia.
  - specialize (IH Hfg' Hin Hg Hf).
    destruct (f b) eqn:Fb.
    + rewrite (Hfg b (or_introl eq_refl) Fb). simpl. lia.
    + destruct (g b); simpl; lia.
Qed.

(** X13.  One solved record whose score is [NaN] (which both parsers
    can produce) makes the [totalScore] and the [avgScore] of its owner
    [NaN]; the record never counts as a best solution, so
    [bestSolutions] stays below [solvedCount]. *)
Theorem NaN_score_spoils_the_average (data : UnifiedData)
    (item : UnifiedDataItem) (m : OwnerMetrics) :
  In item data -> solvedScore item = Some NaN ->
  map_get String.eqb (entryOwner item) (calculateUnifiedMetrics data) = Some m ->
  totalScore m = NaN /\ avgScore m = NaN /\ bestSolutions m < solvedCount m.
Proof.
  intros Hin Hs Hm.
  assert (Hscores : In NaN (solvedScores (recordsOf data (entryOwner item)))).
  { unfold solvedScores. apply in_flat_map. exists item. split.
    - apply filter_In. split; [exact Hin | apply String.eqb_refl].
    - rewrite Hs. left. reflexivity. }
  pose proof (bestSolutions_counts_records data _ m Hm) as Hbest.
  rewrite metrics_of_owner in Hm.
  destruct (fold_left (ownerStep (entryOwner item)) data None) as [p |] eqn:Hp;
    [| discriminate].
  injection Hm as <-.
  destruct (ownerStep_totals _ data None p Hp) as [_ [Hc Hsum]].
  cbv zeta in Hc, Hsum. simpl in Hc, Hsum.
  rewrite (sum_with_NaN _ Hscores) in Hsum.
  rewrite Hbest.
  cbn [secondPassStep snd totalScore avgScore solvedCount]. rewrite Hsum.
  split; [reflexivity |]. split.
  - destruct (solvedScores (recordsOf data (entryOwner item))) as [| s l];
      [destruct Hscores |].
    rewrite Hc. reflexivity.
  - rewrite Hc, length_solvedScores. unfold recordsOf. rewrite filter_filter.
    apply (filter_length_strict _ _ data item).
    + intros x _ Hx. unfold counted in Hx.
      apply andb_true_iff in Hx. destruct Hx as [-> Hx]. simpl.
      destruct (solvedScore x); [reflexivity | discriminate].
    + exact Hin.
    + rewrite String.eqb_refl, Hs. reflexivity.
    + unfold counted. rewrite Hs.
      destruct (map_get String.eqb (instance item) (snd (firstPass data)));
        apply andb_false_r.
Qed.

Lemma NaN_score_spoils_the_average_witness :
  let data :=
    returned (@LogParser.parseLogEntries RefHost.host
                (Samples.logLine ++ RefHost.nl ++ RefHost.q
                   "{'Instance':'50_5_2.vrp','Time':'1','Result':'abc'}")
                "solver.log" 0) in
  exists item m,
    In item data /\ solvedScore item = Some NaN
    /\ map_get String.eqb (entryOwner item) (calculateUnifiedMetrics data)
       = Some m
    /\ totalScore m = NaN /\ avgScore m = NaN
    /\ bestSolutions m < solvedCount m.
Proof.
  cbv zeta.
  set (data := returned (@LogParser.parseLogEntries RefHost.host
                           (Samples.logLine ++ RefHost.nl ++ RefHost.q
                              "{'Instance':'50_5_2.vrp','Time':'1','Result':'abc'}")
                           "solver.log" 0)).
  destruct (nth_error data 1) as [item |] eqn:E;
    [| vm_compute in E; discriminate E].
  assert (Hin : In item data) by (apply (nth_error_In data 1); exact E).
  assert (Hs : solvedScore item = Some NaN)
    by (vm_compute in E; injection E as <-; reflexivity).
  destruct (map_get String.eqb (entryOwner item) (calculateUnifiedMetrics data))
    as [m |] eqn:G.
  - exists item, m. split; [exact Hin |]. split; [exact Hs |].
    split; [exact G |].
    exact (NaN_score_spoils_the_average data item m Hin Hs G).
  - exfalso. vm_compute in E. injection E as <-. vm_compute in G.
    discriminate G.
Defined.

(** *** The size buckets *)
Lemma zmap_get_set_same {V : Type} (k : Z) (v : V) (m : list (Z * V)) :
  map_get Z.eqb k (map_set Z.eqb k v m) = Some v.
Proof.
  induction m as [| [k0 old] m IH]; simpl.
  - rewrite Z.eqb_refl. reflexivity.
  - destruct (Z.eqb k0 k) eqn:E; simpl; rewrite E; [reflexivity | exact IH].
Qed.

Lemma zmap_get_set_other {V : Type} (k k' : Z) (v : V) (m : list (Z * V)) :
  k <> k' ->
  map_get Z.eqb k' (map_set Z.eqb k v m) = map_get Z.eqb k' m.
Proof.
  intros Hne. induction m as [| [k0 old] m IH]; simpl.
  - apply Z.eqb_neq in Hne. rewrite Hne. reflexivity.
  - destruct (Z.eqb k0 k) eqn:E; simpl.
    + apply Z.eqb_eq in E. subst k0.
      apply Z.eqb_neq in Hne. rewrite Hne. reflexivity.
    + rewrite IH. reflexivity.
Qed.

Lemma map_get_addToSize (size : Z) (item : UnifiedDataItem) (s : JSNumber)
    (sizes : list (Z * SizeStats)) :
  map_get Z.eqb size (addToSize item s sizes)
  = if ofSize size item then addScore (map_get Z.eqb size sizes) s
    else map_get Z.eqb size sizes.
Proof.
  unfold addToSize, ofSize, map_has.
  destruct (numCustomers item) as [c |]; [| reflexivity].
  destruct (Z.eqb c size) eqn:E.
  - apply Z.eqb_eq in E. subst c.
    destruct (map_get Z.eqb size sizes) as [st |] eqn:G; simpl.
    + rewrite G. apply zmap_get_set_same.
    + rewrite zmap_get_set_same. apply zmap_get_set_same.
  - apply Z.eqb_neq in E.
    destruct (map_get Z.eqb c sizes) as [st |] eqn:G; simpl.
    + rewrite G. apply zmap_get_set_other. exact E.
    + rewrite zmap_get_set_same.
      rewrite !zmap_get_set_other by exact E. reflexivity.
Qed.

Lemma recordsOfSize_cons (item : UnifiedDataItem) (data : UnifiedData)
    (k : string) (size : Z) :
  recordsOfSize (item :: data) k size
  = if String.eqb (entryOwner item) k
       && (ofSize size item
           && match solvedScore item with Some _ => true | None => false end)
    then item :: recordsOfSize data k size
    else recordsOfSize data k size.
Proof.
  unfold recordsOfSize. rewrite recordsOf_cons.
  destruct (String.eqb (entryOwner item) k); [| reflexivity].
  cbn [filter andb]. reflexivity.
Qed.

Lemma ownerStep_bySize (k : string) (size : Z) (data : UnifiedData) :
  forall acc p,
    fold_left (ownerStep k) data acc = Some p ->
    map_get Z.eqb size (bySize p)
    = fold_left addScore (solvedScores (recordsOfSize data k size))
        (map_get Z.eqb size
           (bySize match acc with Some q => q | None => newOwnerMetrics end)).
Proof.
  induction data as [| item data IH]; intros acc p Hp.
  - simpl in Hp. subst acc. reflexivity.
  - cbn [fold_left] in Hp. rewrite recordsOfSize_cons.
    unfold ownerStep at 2 in Hp.
    destruct (String.eqb (entryOwner item) k); [| apply (IH acc p Hp)].
    rewrite (IH _ p Hp). cbn [andb]. unfold accumulate.
    destruct (solvedScore item) as [s |] eqn:Hs; cbn [bySize].
    + rewrite map_get_addToSize.
      destruct (ofSize size item); cbn [andb]; [| reflexivity].
      unfold solvedScores. cbn [flat_map]. rewrite Hs. reflexivity.
    + rewrite andb_false_r. reflexivity.
Qed.

Lemma fold_addScore (scores : list JSNumber) :
  forall stats,
    fold_left addScore scores stats
    = match scores with
      | [] => stats
      | _ :: _ =>
          Some {| sizeScore :=
                    fold_left num_add scores
                      (match stats with
                       | Some st => sizeScore st
                       | None => zero
                       end);
                  sizeCount :=
                    (match stats with
                     | Some st => sizeCount st
                     | None => 0
                     end) + length scores |}
      end.
Proof.
  induction scores as [| s scores IH]; intros stats; [reflexivity |].
  cbn [fold_left]. rewrite IH. destruct scores as [| s' scores].
  - unfold addScore. simpl. rewrite Nat.add_1_r. reflexivity.
  - unfold addScore. cbn [sizeScore sizeCount fold_left length].
    f_equal. f_equal. lia.
Qed.

Lemma solvedScores_all_solved (records : UnifiedData) :
  (forall item, In item records -> solvedScore item <> None) ->
  length (solvedScores records) = length records.
Proof.
  induction records as [| item records IH]; intros Hall; [reflexivity |].
  unfold solvedScores in *. cbn [flat_map]. rewrite length_app, IH.
  - destruct (solvedScore item) eqn:E; [reflexivity |].
    exfalso. apply (Hall item (or_introl eq_refl) E).
  - intros i Hi. apply Hall. right. exact Hi.
Qed.

(** X14.  The size buckets.  For an owner with an entry, [bySize]
    has a bucket for a size exactly when the owner has a solved record
    with that customer count; the bucket holds the sum of the scores of
    these records and their number. *)
Theorem bySize_holds_sum_and_count_of_each_size (data : UnifiedData)
    (owner : string) (m : OwnerMetrics) (size : Z) :
  map_get String.eqb owner (calculateUnifiedMetrics data) = Some m ->
  map_get Z.eqb size (bySize m)
  = match recordsOfSize data owner size with
    | [] => None
    | records =>
        Some {| sizeScore := sumScores (solvedScores records);
                sizeCount := length records |}
    end.
Proof.
  intros Hm. rewrite metrics_of_owner in Hm.
  destruct (fold_left (ownerStep owner) data None) as [p |] eqn:Hp;
    [| discriminate].
  injection Hm as <-. cbn [secondPassStep snd bySize].
  rewrite (ownerStep_bySize owner size data None p Hp), fold_addScore.
  cbn [bySize newOwnerMetrics map_get].
  assert (Hlen : length (solvedScores (recordsOfSize data owner size))
                 = length (recordsOfSize data owner size)).
  { apply solvedScores_all_solved. intros item Hin.
    unfold recordsOfSize in Hin. apply filter_In in Hin.
    destruct Hin as [_ Hin]. apply andb_true_iff in Hin.
    destruct (solvedScore item); [discriminate | destruct Hin; discriminate]. }
  destruct (recordsOfSize data owner size) as [| r rs] eqn:E.
  - reflexivity.
  - destruct (solvedScores (r :: rs)) as [| s ss] eqn:Es;
      [simpl in Hlen; discriminate |].
    rewrite <- Hlen. reflexivity.
Qed.

Lemma bySize_holds_sum_and_count_of_each_size_witness :
  let data := returned (@LogParser.parseLogEntries RefHost.host
                          Samples.repeatedLog "solver.log" 0) in
  exists m,
    map_get String.eqb "solver.log" (calculateUnifiedMetrics data) = Some m
    /\ map_get Z.eqb 50%Z (bySize m)
       = Some {| sizeScore := Finite 201; sizeCount := 2 |}
    /\ map_get Z.eqb 5%Z (bySize m) = None.
Proof.
  cbv zeta.
  set (data := returned (@LogParser.parseLogEntries RefHost.host
                           Samples.repeatedLog "solver.log" 0)).
  destruct (map_get String.eqb "solver.log" (calculateUnifiedMetrics data))
    as [m |] eqn:E; [| vm_compute in E; discriminate E].
  exists m. split; [reflexivity |]. split.
  - rewrite (bySize_holds_sum_and_count_of_each_size data "solver.log" m 50%Z E).
    vm_compute. reflexivity.
  - rewrite (bySize_holds_sum_and_count_of_each_size data "solver.log" m 5%Z E).
    vm_compute. reflexivity.
Defined.

(** X15.  What [bestSolutions] counts when no score is [NaN]: the
    records of the owner whose score is the least among the solved
    records of their instance.  This is at least the number of
    instances on which the owner is best, and equal to it when the
    owner has at most one solved record per instance. *)
Theorem bestSolutions_counts_minimal_records (data : UnifiedData)
    (owner : string) (m : OwnerMetrics) :
  (forall item s, In item data -> solvedScore item = Some s -> s <> NaN) ->
  map_get String.eqb owner (calculateUnifiedMetrics data) = Some m ->
  bestSolutions m = length (bestRecordsOf data owner)
  /\ length (bestInstancesOf data owner) <= bestSolutions m
  /\ (NoDup (map instance
               (filter (fun item => String.eqb (entryOwner item) owner
                                    && match solvedScore item with
                                       | Some _ => true
                                       | None => false
                                       end) data)) ->
      bestSolutions m = length (bestInstancesOf data owner)).
Proof.
  intros Hnan Hm.
  assert (Hsame : filter (counted (snd (firstPass data)) owner) data
                  = bestRecordsOf data owner).
  { unfold bestRecordsOf. apply filter_ext_in. intros item Hin.
    destruct (counted (snd (firstPass data)) owner item) eqn:Hc.
    - symmetry. apply andb_true_iff. split.
      + unfold counted in Hc. apply andb_true_iff in Hc. apply Hc.
      + apply (counted_attainsBest data owner item Hnan Hc).
    - destruct (String.eqb (entryOwner item) owner) eqn:Ho; [| reflexivity].
      destruct (attainsBest data item) eqn:Hb; [| reflexivity].
      apply String.eqb_eq in Ho. subst owner.
      rewrite (attainsBest_counted data item Hin Hb) in Hc. discriminate. }
  assert (Hrec : bestSolutions m = length (bestRecordsOf data owner))
    by (rewrite (bestSolutions_counts_records data owner m Hm), Hsame;
        reflexivity).
  split; [exact Hrec |]. split.
  - rewrite Hrec. unfold bestInstancesOf.
    eapply Nat.le_trans; [apply nodup_length_le |]. rewrite length_map. lia.
  - intros Huniq.
    apply (bestSolutions_counts_instances_when_unique data owner m Hnan Huniq Hm).
Qed.

Lemma bestSolutions_counts_minimal_records_witness :
  exists m,
    map_get String.eqb "Bob" (calculateUnifiedMetrics Samples.tieData) = Some m
    /\ bestSolutions m = length (bestRecordsOf Samples.tieData "Bob")
    /\ length (bestRecordsOf Samples.tieData "Bob") = 2.
Proof.
  destruct (map_get String.eqb "Bob" (calculateUnifiedMetrics Samples.tieData))
    as [m |] eqn:E; [| vm_compute in E; discriminate E].
  exists m. split; [reflexivity |]. split; [| vm_compute; reflexivity].
  refine (proj1 (bestSolutions_counts_minimal_records Samples.tieData "Bob" m
                   _ E)).
  intros item s Hin Hs. simpl in Hin.
  destruct Hin as [<- | [<- | [<- | [<- | []]]]]; simpl in Hs;
    try discriminate; injection Hs as <-; discriminate.
Defined.

End MetricsMore.


(** ** The grouping by instance and owner *)

Module GroupFacts.
Import UnifiedAnalysis UnifiedInsights MapFacts MetricsMore Shapes.

Lemma map_set_twice {V : Type} (k : string) (v v0 : V) (m : list (string * V)) :
  map_set String.eqb k v (map_set String.eqb k v0 m) = map_set String.eqb k v m.
Proof.
  induction m as [| [k1 old] m IH]; simpl.
  - rewrite String.eqb_refl. reflexivity.
  - destruct (String.eqb k1 k) eqn:E; simpl; rewrite E; [reflexivity |].
    rewrite IH. reflexivity.
Qed.

(** One step of the grouping loop, in one assignment. *)
Lemma groupStep_eq (groupedData : GroupedByInstance) (item : UnifiedDataItem) :
  groupStep groupedData item
  = map_set String.eqb (instance item)
      (map_set String.eqb (entryOwner item) item
         match map_get String.eqb (instance item) groupedData with
         | Some ownerMap => ownerMap
         | None => []
         end)
      groupedData.
Proof.
  unfold groupStep, map_has.
  destruct (map_get String.eqb (instance item) groupedData) as [om |] eqn:G;
    cbn [negb].
  - rewrite G. reflexivity.
  - rewrite map_get_set_same. apply map_set_twice.
Qed.

Lemma recordOf_groupStep (inst owner : string) (groupedData : GroupedByInstance)
    (item : UnifiedDataItem) :
  recordOf (groupStep groupedData item) inst owner
  = if isFor inst owner item then Some item
    else recordOf groupedData inst owner.
Proof.
  rewrite groupStep_eq. unfold recordOf, isFor. rewrite map_get_set.
  destruct (String.eqb (instance item) inst) eqn:E; cbn [andb];
    [| reflexivity].
  apply String.eqb_eq in E. subst inst. rewrite map_get_set.
  destruct (String.eqb (entryOwner item) owner); [reflexivity |].
  destruct (map_get String.eqb (instance item) groupedData); reflexivity.
Qed.

Lemma find_snoc {A : Type} (f : A -> bool) (l : list A) (a : A) :
  find f (l ++ [a])
  = match find f l with
    | Some x => Some x
    | None => if f a then Some a else None
    end.
Proof.
  induction l as [| b l IH]; simpl; [reflexivity |].
  destruct (f b); [reflexivity | exact IH].
Qed.

Lemma recordOf_fold (inst owner : string) (data : UnifiedData) :
  forall groupedData,
    recordOf (fold_left groupStep data groupedData) inst owner
    = match lastRecordFor data inst owner with
      | Some item => Some item
      | None => recordOf groupedData inst owner
      end.
Proof.
  unfold lastRecordFor.
  induction data as [| item data IH]; intros groupedData; [reflexivity |].
  cbn [fold_left rev]. rewrite IH, find_snoc, recordOf_groupStep.
  destruct (find (isFor inst owner) (rev data)); [reflexivity |].
  destruct (isFor inst owner item); reflexivity.
Qed.

Lemma In_map_set {V : Type} (k0 : string) (v0 : V) (m : list (string * V))
    (k : string) (v : V) :
  In (k, v) (map_set String.eqb k0 v0 m) ->
  (k = k0 /\ v = v0) \/ In (k, v) m.
Proof.
  induction m as [| [k1 old] m IH]; simpl.
  - intros [H | []]. injection H as <- <-. left. split; reflexivity.
  - destruct (String.eqb k1 k0) eqn:E; simpl.
    + apply String.eqb_eq in E. subst k1.
      intros [H | H]; [injection H as <- <-; left; split; reflexivity
                      | right; right; exact H].
    + intros [H | H]; [right; left; exact H |].
      destruct (IH H) as [H' | H']; [left; exact H' | right; right; exact H'].
Qed.

Lemma map_get_In {V : Type} (k : string) (v : V) (m : list (string * V)) :
  map_get String.eqb k m = Some v -> In (k, v) m.
Proof.
  induction m as [| [k0 old] m IH]; simpl; [discriminate |].
  destruct (String.eqb k0 k) eqn:E.
  - apply String.eqb_eq in E. subst k0. intros H. injection H as <-.
    left. reflexivity.
  - intros H. right. apply IH. exact H.
Qed.

Lemma In_map_get {V : Type} (k : string) (v : V) (m : list (string * V)) :
  NoDup (map fst m) -> In (k, v) m -> map_get String.eqb k m = Some v.
Proof.
  induction m as [| [k0 old] m IH]; simpl; intros Hnd Hin; [destruct Hin |].
  inversion Hnd as [| ? ? Hnotin Hnd']. subst.
  destruct Hin as [H | H].
  - injection H as -> ->. rewrite String.eqb_refl. reflexivity.
  - destruct (String.eqb k0 k) eqn:E.
    + apply String.eqb_eq in E. subst k0. exfalso. apply Hnotin.
      apply in_map_iff. exists (k, v). split; [reflexivity | exact H].
    + apply IH; assumption.
Qed.

(** The keys of the two levels are pairwise distinct, and no inner map
    is empty. *)
Lemma groupStep_distinctKeys (groupedData : GroupedByInstance)
    (item : UnifiedDataItem) :
  distinctKeys groupedData -> distinctKeys (groupStep groupedData item).
Proof.
  intros [Hnd Hin]. rewrite groupStep_eq.
  split; [apply NoDup_keys_map_set; exact Hnd |].
  intros inst ownerMap H. apply In_map_set in H.
  destruct H as [[_ ->] | H]; [| apply (Hin inst ownerMap H)].
  assert (Hold : NoDup (map fst match map_get String.eqb (instance item)
                                        groupedData with
                                | Some om => om
                                | None => []
                                end)).
  { destruct (map_get String.eqb (instance item) groupedData) as [om |] eqn:G.
    - apply (Hin (instance item) om). apply map_get_In. exact G.
    - constructor. }
  split; [apply NoDup_keys_map_set; exact (proj1 (conj Hold I)) |].
  destruct (match map_get String.eqb (instance item) groupedData with
            | Some om => om
            | None => []
            end) as [| [k v] om0]; simpl; [discriminate |].
  destruct (String.eqb k (entryOwner item)); discriminate.
Qed.

Lemma fold_groupStep_distinctKeys (data : UnifiedData) :
  forall groupedData,
    distinctKeys groupedData ->
    distinctKeys (fold_left groupStep data groupedData).
Proof.
  induction data as [| item data IH]; intros groupedData H; [exact H |].
  cbn [fold_left]. apply IH. apply groupStep_distinctKeys. exact H.
Qed.

Lemma distinctKeys_nil : distinctKeys [].
Proof. split; [constructor | intros ? ? []]. Qed.

Lemma lastRecord_grouped (data : UnifiedData) (inst owner : string) :
  recordOf (fold_left groupStep data []) inst owner
  = lastRecordFor data inst owner.
Proof.
  rewrite recordOf_fold. destruct (lastRecordFor data inst owner); reflexivity.
Qed.

(** The entries of the grouping are records of the list, filed under
    their own instance and owner. *)
Lemma grouped_entries (data : UnifiedData) (inst : string)
    (ownerMap : list (string * UnifiedDataItem)) :
  In (inst, ownerMap) (fold_left groupStep data []) ->
  NoDup (map fst ownerMap)
  /\ ownerMap <> []
  /\ forall owner item,
       In (owner, item) ownerMap ->
       lastRecordFor data inst owner = Some item
       /\ In item data /\ instance item = inst /\ entryOwner item = owner.
Proof.
  intros Hmem.
  destruct (fold_groupStep_distinctKeys data [] distinctKeys_nil) as [Hnd Hin].
  destruct (Hin inst ownerMap Hmem) as [Hnd' Hne].
  split; [exact Hnd' |]. split; [exact Hne |].
  intros owner item Hentry.
  assert (Hrec : recordOf (fold_left groupStep data []) inst owner = Some item).
  { unfold recordOf. rewrite (In_map_get inst ownerMap _ Hnd Hmem).
    apply In_map_get; [exact Hnd' | exact Hentry]. }
  rewrite lastRecord_grouped in Hrec. split; [exact Hrec |].
  unfold lastRecordFor in Hrec.
  apply find_some in Hrec. destruct Hrec as [Hd Hfor].
  unfold isFor in Hfor. apply andb_true_iff in Hfor.
  destruct Hfor as [Hi Ho]. apply String.eqb_eq in Hi, Ho.
  split; [apply in_rev; exact Hd | split; assumption].
Qed.

(** X16.  [groupUnifiedDataByInstance] keeps, for every pair of an
    instance and an owner, the last record of the list for that pair;
    a pair without record has no entry.  No instance and no owner is
    listed twice, no instance is listed without an owner, and an
    instance is absent exactly when no record names it. *)
Theorem grouping_keeps_last_record_of_each_pair (data : UnifiedData) :
  (forall inst owner,
      recordOf (groupUnifiedDataByInstance data) inst owner
      = lastRecordFor data inst owner)
  /\ NoDup (map fst (groupUnifiedDataByInstance data))
  /\ (forall inst ownerMap,
        In (inst, ownerMap) (groupUnifiedDataByInstance data) ->
        NoDup (map fst ownerMap)
        /\ ownerMap <> []
        /\ forall owner item,
             In (owner, item) ownerMap ->
             lastRecordFor data inst owner = Some item)
  /\ (forall inst,
        map_get String.eqb inst (groupUnifiedDataByInstance data) = None
        <-> forall item, In item data -> instance item <> inst).
Proof.
  unfold groupUnifiedDataByInstance.
  split; [apply lastRecord_grouped |].
  split; [apply (fold_groupStep_distinctKeys data [] distinctKeys_nil) |].
  split.
  - intros inst ownerMap Hmem.
    destruct (grouped_entries data inst ownerMap Hmem) as [Hnd [Hne Hentries]].
    split; [exact Hnd |]. split; [exact Hne |].
    intros owner item Hentry. apply (Hentries owner item Hentry).
  - intros inst. split.
    + intros Hnone item Hin Hinst.
      pose proof (lastRecord_grouped data inst (entryOwner item)) as Hrec.
      unfold recordOf in Hrec. rewrite Hnone in Hrec.
      symmetry in Hrec. unfold lastRecordFor in Hrec.
      apply in_rev in Hin.
      pose proof (find_none _ _ Hrec item Hin) as Hfor.
      unfold isFor in Hfor. rewrite Hinst, !String.eqb_refl in Hfor.
      discriminate Hfor.
    + intros Hall.
      destruct (map_get String.eqb inst (fold_left groupStep data []))
        as [ownerMap |] eqn:G; [| reflexivity].
      exfalso. apply map_get_In in G.
      destruct (grouped_entries data inst ownerMap G) as [_ [Hne Hentries]].
      destruct ownerMap as [| [owner item] rest]; [apply Hne; reflexivity |].
      destruct (Hentries owner item (or_introl eq_refl)) as [_ [Hin [Hi _]]].
      apply (Hall item Hin Hi).
Qed.

End GroupFacts.


(** ** The outlier analyzer: what it reports *)

Module OutlierFacts.
Import UnifiedAnalysis UnifiedInsights MapFacts MetricsMore Shapes GroupFacts.

Lemma observe_some (inst : string) (ownerMap : list (string * UnifiedDataItem))
    (o : Outlier) :
  observe inst ownerMap = Some o ->
  2 <= length ownerMap /\ outlierInstance o = inst.
Proof.
  unfold observe. destruct (length ownerMap <? 2) eqn:L; [discriminate |].
  apply Nat.ltb_ge in L. intros Hobs. split; [exact L |].
  destruct (splitOwners ownerMap) as [solvedScores unsolvedOwners].
  destruct ((0 <? length solvedScores) && (0 <? length unsolvedOwners)).
  - injection Hobs as <-. reflexivity.
  - destruct ((length solvedScores =? length ownerMap)
              && (1 <? length solvedScores)); [| discriminate].
    destruct (bestAndWorst solvedScores) as [[bestResult bestOwner]
                                               [worstResult worstOwner]].
    destruct (_ || _); [| discriminate].
    injection Hobs as <-. reflexivity.
Qed.

Lemma In_collect (instanceMap : GroupedByInstance) (o : Outlier) :
  In o (collect instanceMap) <->
  exists inst ownerMap,
    In (inst, ownerMap) instanceMap /\ observe inst ownerMap = Some o.
Proof.
  induction instanceMap as [| [inst ownerMap] rest IH]; simpl.
  - split; [intros [] | intros [? [? [[] _]]]].
  - destruct (observe inst ownerMap) as [o' |] eqn:E.
    + simpl. rewrite IH. split.
      * intros [<- | [i [om [Hin Hobs]]]].
        -- exists inst, ownerMap. split; [left; reflexivity | exact E].
        -- exists i, om. split; [right; exact Hin | exact Hobs].
      * intros [i [om [[H | Hin] Hobs]]].
        -- injection H as <- <-. left. congruence.
        -- right. exists i, om. split; assumption.
    + rewrite IH. split.
      * intros [i [om [Hin Hobs]]]. exists i, om.
        split; [right; exact Hin | exact Hobs].
      * intros [i [om [[H | Hin] Hobs]]].
        -- injection H as <- <-. congruence.
        -- exists i, om. split; assumption.
Qed.

Lemma collect_instances_NoDup (instanceMap : GroupedByInstance) :
  NoDup (map fst instanceMap) ->
  NoDup (map outlierInstance (collect instanceMap)).
Proof.
  induction instanceMap as [| [inst ownerMap] rest IH]; simpl; intros Hnd;
    [constructor |].
  inversion Hnd as [| ? ? Hnotin Hnd']. subst.
  destruct (observe inst ownerMap) as [o |] eqn:E; [| apply IH; exact Hnd'].
  simpl. constructor; [| apply IH; exact Hnd'].
  intros Hin. apply Hnotin. apply in_map_iff in Hin.
  destruct Hin as [o' [Ho' Hin]]. apply In_collect in Hin.
  destruct Hin as [i [om [Hmem Hobs]]].
  apply observe_some in Hobs. apply observe_some in E.
  apply in_map_iff. exists (i, om). split; [| exact Hmem].
  simpl. destruct Hobs as [_ <-]. destruct E as [_ <-]. exact Ho'.
Qed.

Lemma In_firstn {A : Type} (n : nat) (l : list A) (x : A) :
  In x (firstn n l) -> In x l.
Proof.
  revert l. induction n as [| n IH]; intros l; simpl; [intros [] |].
  destruct l as [| a l]; [intros [] |].
  intros [H | H]; [left; exact H | right; apply IH; exact H].
Qed.

Lemma NoDup_firstn {A : Type} (n : nat) (l : list A) :
  NoDup l -> NoDup (firstn n l).
Proof.
  revert l. induction n as [| n IH]; intros l Hnd; simpl; [constructor |].
  destruct l as [| a l]; [constructor |].
  inversion Hnd as [| ? ? Hnotin Hnd']. subst.
  constructor; [| apply IH; exact Hnd'].
  intros Hin. apply Hnotin. apply (In_firstn n l a Hin).
Qed.

Lemma firstn_In_or_full {A : Type} (n : nat) (l : list A) (x : A) :
  In x l -> In x (firstn n l) \/ length (firstn n l) = n.
Proof.
  revert l. induction n as [| n IH]; intros l Hin; [right; reflexivity |].
  destruct l as [| a l]; [destruct Hin |]. simpl.
  destruct Hin as [H | H]; [left; left; exact H |].
  destruct (IH l H) as [H' | H']; [left; right; exact H' | right; lia].
Qed.

Lemma two_distinct_keys {V : Type} (m : list (string * V)) :
  NoDup (map fst m) -> 2 <= length m ->
  exists k1 v1 k2 v2, In (k1, v1) m /\ In (k2, v2) m /\ k1 <> k2.
Proof.
  destruct m as [| [k1 v1] [| [k2 v2] m]]; simpl; intros Hnd Hlen; try lia.
  exists k1, v1, k2, v2. split; [left; reflexivity |].
  split; [right; left; reflexivity |].
  inversion Hnd as [| ? ? Hnotin _]. subst.
  intros ->. apply Hnotin. left. reflexivity.
Qed.

(** X17.  [findProblemOutliers] returns at most five observations,
    no two about the same instance, and each about an instance for
    which the list holds records of two different owners. *)
Theorem outliers_are_few_and_about_contested_instances
    (unifiedData : UnifiedData) (owners : list string) :
  length (findProblemOutliers unifiedData owners) <= 5
  /\ NoDup (map outlierInstance (findProblemOutliers unifiedData owners))
  /\ forall o,
       In o (findProblemOutliers unifiedData owners) ->
       exists a b,
         In a unifiedData /\ In b unifiedData
         /\ instance a = outlierInstance o /\ instance b = outlierInstance o
         /\ entryOwner a <> entryOwner b.
Proof.
  unfold findProblemOutliers. cbv zeta.
  destruct (fold_groupStep_distinctKeys unifiedData [] distinctKeys_nil)
    as [Hnd _].
  split; [apply firstn_le_length |]. split.
  - rewrite <- firstn_map. apply NoDup_firstn.
    apply collect_instances_NoDup. exact Hnd.
  - intros o Hin. apply In_firstn in Hin. apply In_collect in Hin.
    destruct Hin as [inst [ownerMap [Hmem Hobs]]].
    apply observe_some in Hobs. destruct Hobs as [Hlen <-].
    destruct (grouped_entries unifiedData _ ownerMap Hmem)
      as [Hnd' [_ Hentries]].
    destruct (two_distinct_keys ownerMap Hnd' Hlen)
      as [k1 [a [k2 [b [Ha [Hb Hne]]]]]].
    destruct (Hentries k1 a Ha) as [_ [Ha1 [Ha2 Ha3]]].
    destruct (Hentries k2 b Hb) as [_ [Hb1 [Hb2 Hb3]]].
    exists a, b. repeat split; try assumption. congruence.
Qed.

Lemma solvedScore_test (item : UnifiedDataItem) :
  (if isUnsolved item then None else score item) = solvedScore item.
Proof. unfold solvedScore. destruct (isUnsolved item); reflexivity. Qed.

Lemma splitOwners_fold (ownerMap : list (string * UnifiedDataItem)) :
  forall acc : list (string * JSNumber) * list string,
    let result :=
      fold_left
        (fun (acc : list (string * JSNumber) * list string)
             (entry : string * UnifiedDataItem) =>
           let '(solvedScores, unsolvedOwners) := acc in
           let '(owner, data) := entry in
           match (if isUnsolved data then None else score data) with
           | None => (solvedScores, unsolvedOwners ++ [owner])
           | Some itemScore =>
               (map_set String.eqb owner itemScore solvedScores, unsolvedOwners)
           end)
        ownerMap acc in
    ((fst acc <> []
      \/ exists owner item, In (owner, item) ownerMap
                            /\ solvedScore item <> None) ->
     fst result <> [])
    /\ ((snd acc <> []
         \/ exists owner item, In (owner, item) ownerMap
                               /\ solvedScore item = None) ->
        snd result <> []).
Proof.
  induction ownerMap as [| [owner item] rest IH]; intros [solved unsolved].
  - simpl. split; (intros [H | [? [? [[] _]]]]; exact H).
  - cbn [fold_left]. cbv zeta. rewrite solvedScore_test.
    destruct (solvedScore item) as [s |] eqn:Hs.
    + destruct (IH (map_set String.eqb owner s solved, unsolved)) as [H1 H2].
      cbv zeta in H1, H2. cbn [fst snd] in *. split.
      * intros _. apply H1. left.
        destruct solved as [| [k v] l]; simpl; [discriminate |].
        destruct (String.eqb k owner); discriminate.
      * intros [H | [o [i [[H | H] Hi]]]].
        -- apply H2. left. exact H.
        -- injection H as <- <-. congruence.
        -- apply H2. right. exists o, i. split; assumption.
    + destruct (IH (solved, unsolved ++ [owner])) as [H1 H2].
      cbv zeta in H1, H2. cbn [fst snd] in *. split.
      * intros [H | [o [i [[H | H] Hi]]]].
        -- apply H1. left. exact H.
        -- injection H as <- <-. congruence.
        -- apply H1. right. exists o, i. split; assumption.
      * intros _. apply H2. left. destruct unsolved; discriminate.
Qed.

Lemma length_two_elements {A : Type} (l : list A) (x y : A) :
  In x l -> In y l -> x <> y -> 2 <= length l.
Proof.
  destruct l as [| e1 [| e2 l]]; simpl; intros H1 H2 Hne;
    [destruct H1 | | lia].
  destruct H1 as [H1 | []]. destruct H2 as [H2 | []]. congruence.
Qed.

(** An instance that some owner solved and another did not. *)
Lemma observe_mixed (inst : string) (ownerMap : list (string * UnifiedDataItem))
    (oa ob : string) (a b : UnifiedDataItem) :
  In (oa, a) ownerMap -> In (ob, b) ownerMap ->
  solvedScore a <> None -> solvedScore b = None ->
  exists rest,
    observe inst ownerMap
    = Some {| outlierInstance := inst;
              observation := ("Solved by: " ++ rest)%string |}.
Proof.
  intros Ha Hb Hsa Hsb.
  assert (Hlen : 2 <= length ownerMap).
  { apply (length_two_elements ownerMap (oa, a) (ob, b) Ha Hb).
    intros H. injection H as _ ->. contradiction. }
  unfold observe. apply Nat.ltb_ge in Hlen. rewrite Hlen.
  destruct (splitOwners_fold ownerMap ([], [])) as [H1 H2].
  cbv zeta in H1, H2. fold (splitOwners ownerMap) in H1, H2.
  destruct (splitOwners ownerMap) as [solvedScores unsolvedOwners].
  cbn [fst snd] in H1, H2.
  assert (Hs : solvedScores <> [])
    by (apply H1; right; exists oa, a; split; assumption).
  assert (Hu : unsolvedOwners <> [])
    by (apply H2; right; exists ob, b; split; assumption).
  destruct solvedScores as [| s ss]; [contradiction |].
  destruct unsolvedOwners as [| u us]; [contradiction |].
  cbn [length Nat.ltb Nat.leb andb]. eexists. reflexivity.
Qed.

(** X18.  An instance whose last record of one owner is solved and
    whose last record of another owner is not is reported by
    [findProblemOutliers] with a "Solved by" observation, unless five
    observations are already made. *)
Theorem instance_solved_by_some_only_is_reported (unifiedData : UnifiedData)
    (owners : list string) (inst oa ob : string) (a b : UnifiedDataItem) :
  lastRecordFor unifiedData inst oa = Some a -> solvedScore a <> None ->
  lastRecordFor unifiedData inst ob = Some b -> solvedScore b = None ->
  length (findProblemOutliers unifiedData owners) = 5
  \/ exists o,
       In o (findProblemOutliers unifiedData owners)
       /\ outlierInstance o = inst
       /\ exists rest, observation o = ("Solved by: " ++ rest)%string.
Proof.
  intros Ha Hsa Hb Hsb. unfold findProblemOutliers. cbv zeta.
  rewrite <- lastRecord_grouped in Ha, Hb. unfold recordOf in Ha, Hb.
  destruct (map_get String.eqb inst (fold_left groupStep unifiedData []))
    as [ownerMap |] eqn:G; [| discriminate].
  apply map_get_In in G, Ha, Hb.
  destruct (observe_mixed inst ownerMap oa ob a b Ha Hb Hsa Hsb) as [rest Hobs].
  assert (Hin : In {| outlierInstance := inst;
                      observation := ("Solved by: " ++ rest)%string |}
                   (collect (fold_left groupStep unifiedData []))).
  { apply In_collect. exists inst, ownerMap. split; assumption. }
  destruct (firstn_In_or_full 5 _ _ Hin) as [H | H]; [right | left; exact H].
  eexists. split; [exact H |]. split; [reflexivity |].
  exists rest. reflexivity.
Qed.

Lemma instance_solved_by_some_only_is_reported_witness :
  lastRecordFor Samples.tieData "1_1_1.vrp" "Ann"
  = Some (Samples.solvedRecord "lb.html" "Ann" "1_1_1.vrp" 5)
  /\ lastRecordFor Samples.tieData "1_1_1.vrp" "Cy"
     = Some (Samples.unsolvedRecord "lb.html" "Cy" "1_1_1.vrp")
  /\ (length (findProblemOutliers Samples.tieData []) = 5
      \/ exists o,
           In o (findProblemOutliers Samples.tieData [])
           /\ outlierInstance o = "1_1_1.vrp"
           /\ exists rest, observation o = ("Solved by: " ++ rest)%string).
Proof.
  split; [reflexivity |]. split; [reflexivity |].
  apply (instance_solved_by_some_only_is_reported Samples.tieData []
           "1_1_1.vrp" "Ann" "Cy"
           (Samples.solvedRecord "lb.html" "Ann" "1_1_1.vrp" 5)
           (Samples.unsolvedRecord "lb.html" "Cy" "1_1_1.vrp"));
    try reflexivity; discriminate.
Defined.

(** The observation that the sample of a tie gives. *)
Example outliers_of_tie_sample :
  findProblemOutliers Samples.tieData []
  = [{| outlierInstance := "1_1_1.vrp";
        observation := "Solved by: Ann, Bob. Unsolved by: Cy." |}].
Proof. reflexivity. Qed.

End OutlierFacts.


(** ** The insights *)

Module SelectionFacts.
Import UnifiedAnalysis Insights NumFacts MetricsMore Shapes.







(** The insights for the sample of a tie. *)
Example insights_of_tie_sample :
  map description (insights Samples.tieData)
  = ["Ann has the lowest average score (5.00).";
     "Bob found the most best solutions (2).";
     "No data available for large problems.";
     "No data available for small problems."].
Proof. vm_compute. reflexivity. Qed.

End SelectionFacts.


(** ** The page: owners, visibility and what is shown *)

Module ViewFacts.
Import Page PageView ListFacts MapFacts MetricsMore Shapes UnifiedAnalysis.

(** *** The owners *)
Lemma In_setAdd (s : list string) (x y : string) :
  In y (setAdd s x) <-> In y s \/ y = x.
Proof.
  unfold setAdd. destruct (existsb (String.eqb x) s) eqn:E.
  - split; [intros H; left; exact H |].
    intros [H | ->]; [exact H |].
    apply existsb_exists in E. destruct E as [z [Hz Heq]].
    apply String.eqb_eq in Heq. subst z. exact Hz.
  - rewrite in_app_iff. simpl. split.
    + intros [H | [H | []]]; [left; exact H | right; symmetry; exact H].
    + intros [H | ->]; [left; exact H | right; left; reflexivity].
Qed.

Lemma NoDup_setAdd (s : list string) (x : string) :
  NoDup s -> NoDup (setAdd s x).
Proof.
  intros Hnd. unfold setAdd. destruct (existsb (String.eqb x) s) eqn:E;
    [exact Hnd |].
  apply NoDup_app; [exact Hnd | constructor; [intros [] | constructor] |].
  intros y Hy [<- | []].
  assert (existsb (String.eqb x) s = true)
    by (apply existsb_exists; exists x; split;
        [exact Hy | apply String.eqb_refl]).
  congruence.
Qed.

Lemma arrayFromSet_spec (xs : list string) :
  forall s, NoDup s ->
    NoDup (fold_left setAdd xs s)
    /\ forall y, In y (fold_left setAdd xs s) <-> In y s \/ In y xs.
Proof.
  induction xs as [| x xs IH]; intros s Hnd; simpl.
  - split; [exact Hnd |]. intros y. tauto.
  - destruct (IH (setAdd s x) (NoDup_setAdd s x Hnd)) as [H1 H2].
    split; [exact H1 |]. intros y. rewrite H2, In_setAdd.
    split; [intros [[H | ->] | H] | intros [H | [<- | H]]]; auto.
Qed.

Lemma In_insertSorted (x y : string) (l : list string) :
  In y (insertSorted x l) <-> y = x \/ In y l.
Proof.
  induction l as [| z l IH]; simpl.
  - split; [intros [H | []]; left; symmetry; exact H
           | intros [-> | []]; left; reflexivity].
  - destruct (String.leb x z); simpl.
    + split; [intros [H | H]; [left; symmetry; exact H | right; exact H]
             | intros [-> | H]; [left; reflexivity | right; exact H]].
    + rewrite IH. split.
      * intros [H | [H | H]]; auto.
      * intros [H | [H | H]]; auto.
Qed.

Lemma In_sort (y : string) (l : list string) : In y (sort l) <-> In y l.
Proof.
  induction l as [| x l IH]; simpl; [tauto |].
  rewrite In_insertSorted, IH. split; intros [H | H]; auto.
Qed.

Lemma insertSorted_sorted (x : string) (l : list string) :
  ~ In x l -> Sorted below l -> Sorted below (insertSorted x l).
Proof.
  induction l as [| y l IH]; intros Hnotin Hs; simpl.
  - constructor; constructor.
  - destruct (String.leb x y) eqn:E.
    + constructor; [exact Hs |]. constructor. split; [exact E |].
      intros ->. apply Hnotin. left. reflexivity.
    + apply Sorted_inv in Hs. destruct Hs as [Hs Hhd].
      assert (Hyx : below y x).
      { split.
        - destruct (String.leb_total x y) as [H | H]; [congruence | exact H].
        - intros ->. apply Hnotin. left. reflexivity. }
      constructor.
      * apply IH; [intros H; apply Hnotin; right; exact H | exact Hs].
      * destruct l as [| z l]; simpl.
        -- constructor. exact Hyx.
        -- destruct (String.leb x z); constructor;
             [exact Hyx | inversion Hhd; assumption].
Qed.

Lemma sort_sorted (l : list string) : NoDup l -> Sorted below (sort l).
Proof.
  induction l as [| x l IH]; intros Hnd; simpl; [constructor |].
  inversion Hnd as [| ? ? Hnotin Hnd']. subst.
  apply insertSorted_sorted; [| apply IH; exact Hnd'].
  rewrite In_sort. exact Hnotin.
Qed.

Lemma uniqueOwners_members (masterData : list UnifiedDataItem) :
  NoDup (arrayFromSet (map entryOwner masterData))
  /\ forall owner,
       In owner (uniqueOwners masterData)
       <-> exists item, In item masterData /\ entryOwner item = owner.
Proof.
  unfold uniqueOwners, arrayFromSet.
  destruct (arrayFromSet_spec (map entryOwner masterData) [] (NoDup_nil _))
    as [Hnd Hmem].
  split; [exact Hnd |].
  intros owner. rewrite In_sort, Hmem, in_map_iff. simpl.
  split; [intros [[] | [item [Ho Hin]]] | intros [item [Hin Ho]]].
  - exists item. split; assumption.
  - right. exists item. split; assumption.
Qed.

(** X20.  [uniqueOwners] lists exactly the owners that have a record
    in [masterData], in strictly increasing order of code units (so
    each owner once). *)
Theorem uniqueOwners_sorted_and_complete (masterData : list UnifiedDataItem) :
  Sorted below (uniqueOwners masterData)
  /\ forall owner,
       In owner (uniqueOwners masterData)
       <-> exists item, In item masterData /\ entryOwner item = owner.
Proof.
  destruct (uniqueOwners_members masterData) as [Hnd Hmem].
  split; [apply sort_sorted; exact Hnd | exact Hmem].
Qed.

(** *** The effect *)
Lemma map_get_addNewOwners (owners : list string) :
  forall (prev : list (string * bool)) (owner : string),
    map_get String.eqb owner (addNewOwners owners prev)
    = match map_get String.eqb owner prev with
      | Some flag => Some flag
      | None => if existsb (String.eqb owner) owners then Some true else None
      end.
Proof.
  unfold addNewOwners.
  induction owners as [| o owners IH]; intros prev owner; cbn [fold_left existsb].
  - destruct (map_get String.eqb owner prev); reflexivity.
  - rewrite IH. unfold map_has.
    destruct (map_get String.eqb o prev) as [b |] eqn:G; cbn [negb].
    + destruct (map_get String.eqb owner prev) eqn:G'; [reflexivity |].
      destruct (String.eqb owner o) eqn:E; [| reflexivity].
      apply String.eqb_eq in E. subst o. congruence.
    + rewrite map_get_set.
      destruct (String.eqb o owner) eqn:E.
      * apply String.eqb_eq in E. subst o. rewrite G, String.eqb_refl.
        reflexivity.
      * rewrite String.eqb_sym, E. reflexivity.
Qed.

Lemma visibleData_filter (masterData : list UnifiedDataItem)
    (ownerVisibility : list (string * bool)) (owners : list string) :
  visibleData masterData ownerVisibility owners
  = filter (fun item => notHidden ownerVisibility (entryOwner item)) masterData.
Proof.
  unfold visibleData.
  destruct ((length ownerVisibility =? 0) && (0 <? length owners)) eqn:C;
    [| reflexivity].
  apply andb_true_iff in C. destruct C as [C _]. apply Nat.eqb_eq in C.
  destruct ownerVisibility; [| discriminate].
  symmetry. apply filter_keeps_all. intros item _. reflexivity.
Qed.

(** X21.  [visibleData] is [masterData] without the records of the
    owners whose flag is [false], in the same order; an owner without
    flag is shown.  The early return for an empty visibility map gives
    the same list as the filter. *)
Theorem visibleData_drops_exactly_the_hidden_owners
    (masterData : list UnifiedDataItem)
    (ownerVisibility : list (string * bool)) (owners : list string) :
  visibleData masterData ownerVisibility owners
  = filter (fun item =>
              match map_get String.eqb (entryOwner item) ownerVisibility with
              | Some false => false
              | _ => true
              end) masterData
  /\ forall item,
       In item (visibleData masterData ownerVisibility owners)
       <-> In item masterData
           /\ map_get String.eqb (entryOwner item) ownerVisibility
              <> Some false.
Proof.
  rewrite visibleData_filter. split; [reflexivity |].
  intros item. rewrite filter_In. unfold notHidden.
  destruct (map_get String.eqb (entryOwner item) ownerVisibility) as [[|] |];
    split; intros [H1 H2]; split; try assumption; try discriminate;
    try reflexivity.
  exfalso. apply H2. reflexivity.
Qed.

Lemma owner_has_flag_after_effect (st : State) (item : UnifiedDataItem) :
  In item (masterData st) ->
  exists flag,
    map_get String.eqb (entryOwner item) (ownerVisibility (afterEffect st))
    = Some flag.
Proof.
  intros Hin. unfold afterEffect. cbn [ownerVisibility].
  rewrite map_get_addNewOwners.
  destruct (map_get String.eqb (entryOwner item) (ownerVisibility st)) as [b |];
    [exists b; reflexivity |].
  assert (Hex : existsb (String.eqb (entryOwner item))
                  (uniqueOwners (masterData st)) = true).
  { apply existsb_exists. exists (entryOwner item).
    split; [| apply String.eqb_refl].
    apply (proj2 (uniqueOwners_members (masterData st)) (entryOwner item)).
    exists item. split; [exact Hin | reflexivity]. }
  rewrite Hex. exists true. reflexivity.
Qed.

Lemma notHidden_toggle (owner o : string) (vis : list (string * bool)) :
  notHidden (toggleFlag o vis) owner
  = if String.eqb o owner
    then notFlag (map_get String.eqb o vis)
    else notHidden vis owner.
Proof.
  unfold notHidden, toggleFlag. rewrite map_get_set.
  destruct (String.eqb o owner); [| reflexivity].
  destruct (notFlag (map_get String.eqb o vis)); reflexivity.
Qed.

(** X22.  Once the effect has given every owner a flag, toggling an
    owner twice shows the same records as before; toggling a visible
    owner once hides the records of that owner and no other; toggling a
    hidden owner once brings back its records and no other. *)
Theorem toggle_hides_one_owner_and_back (st : State) (owner : string) :
  let settled := afterEffect st in
  shown (toggleOwnerVisibility owner (toggleOwnerVisibility owner settled))
  = shown settled
  /\ (map_get String.eqb owner (ownerVisibility settled) = Some true ->
      shown (toggleOwnerVisibility owner settled)
      = filter (fun item => negb (String.eqb (entryOwner item) owner))
               (shown settled))
  /\ (map_get String.eqb owner (ownerVisibility settled) = Some false ->
      forall item,
        In item (shown (toggleOwnerVisibility owner settled))
        <-> In item (shown settled)
            \/ (In item (masterData st) /\ entryOwner item = owner)).
Proof.
  cbv zeta. unfold shown, toggleOwnerVisibility. cbn [masterData ownerVisibility].
  rewrite !visibleData_filter.
  set (vis := ownerVisibility (afterEffect st)).
  split; [| split].
  - apply filter_ext_in. intros item Hin.
    rewrite !notHidden_toggle.
    destruct (String.eqb owner (entryOwner item)) eqn:E; [| reflexivity].
    apply String.eqb_eq in E. subst owner.
    destruct (owner_has_flag_after_effect st item Hin) as [flag Hflag].
    fold vis in Hflag. unfold toggleFlag. rewrite map_get_set_same.
    unfold notHidden. rewrite Hflag. destruct flag; reflexivity.
  - intros Hflag. rewrite filter_filter.
    apply filter_ext. intros item. rewrite notHidden_toggle.
    rewrite (String.eqb_sym (entryOwner item) owner).
    destruct (String.eqb owner (entryOwner item)) eqn:E.
    + rewrite Hflag. simpl. rewrite andb_false_r. reflexivity.
    + simpl. rewrite andb_true_r. reflexivity.
  - intros Hflag item. rewrite !filter_In, notHidden_toggle.
    destruct (String.eqb owner (entryOwner item)) eqn:E.
    + apply String.eqb_eq in E. rewrite Hflag. simpl.
      split; [intros [H _]; right; split; [exact H | symmetry; exact E] |].
      intros [[H _] | [H _]]; split; try exact H; reflexivity.
    + apply String.eqb_neq in E.
      split; [intros H; left; exact H |].
      intros [H | [_ H]]; [exact H | symmetry in H; contradiction].
Qed.

(** X23.  The flag of a hidden owner outlives its data: after a
    source is removed by name and records are added again, the owner is
    still hidden and none of its records is shown.  After a clear-all
    every added record is shown. *)
Theorem hidden_owner_stays_hidden_until_clear_all (st : State)
    (sourceNameToClear owner : string) (newData : list UnifiedDataItem) :
  sourceNameToClear <> "" ->
  map_get String.eqb owner (ownerVisibility st) = Some false ->
  (let st' :=
     afterEffect
       (handleDataUpdate newData
          (afterEffect (handleDataCleared (Some sourceNameToClear) st))) in
   map_get String.eqb owner (ownerVisibility st') = Some false
   /\ forall item, In item (shown st') -> entryOwner item <> owner)
  /\ (let st' :=
        afterEffect
          (handleDataUpdate newData (afterEffect (handleDataCleared None st))) in
      shown st' = newData).
Proof.
  intros Hname Hflag. cbv zeta. split.
  - assert (Hkept : map_get String.eqb owner
                      (ownerVisibility
                         (afterEffect
                            (handleDataUpdate newData
                               (afterEffect
                                  (handleDataCleared (Some sourceNameToClear)
                                     st)))))
                    = Some false).
    { unfold afterEffect, handleDataUpdate, handleDataCleared.
      apply String.eqb_neq in Hname. rewrite Hname.
      cbn [negb ownerVisibility masterData].
      rewrite !map_get_addNewOwners, Hflag. reflexivity. }
    split; [exact Hkept |].
    intros item Hin Ho. unfold shown in Hin.
    rewrite visibleData_filter in Hin. apply filter_In in Hin.
    destruct Hin as [_ Hshown]. unfold notHidden in Hshown.
    rewrite Ho, Hkept in Hshown. discriminate.
  - unfold shown. rewrite visibleData_filter.
    apply filter_keeps_all. intros item Hin.
    unfold afterEffect at 1. unfold handleDataUpdate at 2.
    cbn [ownerVisibility]. unfold notHidden.
    rewrite map_get_addNewOwners.
    unfold afterEffect, handleDataCleared. cbn [ownerVisibility masterData].
    destruct (existsb _ _); reflexivity.
Qed.

Lemma hidden_owner_stays_hidden_until_clear_all_witness :
  let st := toggleOwnerVisibility "Bob"
              (afterEffect (handleDataUpdate Samples.tieData initialState)) in
  let st' := afterEffect
               (handleDataUpdate Samples.tieData
                  (afterEffect (handleDataCleared (Some "lb.html") st))) in
  map_get String.eqb "Bob" (ownerVisibility st) = Some false
  /\ map_get String.eqb "Bob" (ownerVisibility st') = Some false
  /\ (forall item, In item (shown st') -> entryOwner item <> "Bob")
  /\ map entryOwner (shown st') = ["Ann"; "Cy"].
Proof.
  cbv zeta. split; [reflexivity |].
  destruct (hidden_owner_stays_hidden_until_clear_all
              (toggleOwnerVisibility "Bob"
                 (afterEffect (handleDataUpdate Samples.tieData initialState)))
              "lb.html" "Bob" Samples.tieData) as [[H1 H2] _];
    [discriminate | reflexivity |].
  split; [exact H1 |]. split; [exact H2 | reflexivity].
Defined.

(** X24.  The metrics of what the page shows have no entry for a
    hidden owner. *)
Theorem hidden_owner_has_no_metrics (st : State) (owner : string) :
  map_get String.eqb owner (ownerVisibility st) = Some false ->
  map_get String.eqb owner (UnifiedAnalysis.calculateUnifiedMetrics (shown st))
  = None.
Proof.
  intros Hflag.
  destruct (map_get String.eqb owner
              (UnifiedAnalysis.calculateUnifiedMetrics (shown st))) eqn:G;
    [| reflexivity].
  exfalso.
  assert (Hkey : In owner (map fst (UnifiedAnalysis.calculateUnifiedMetrics
                                      (shown st)))).
  { apply map_get_In_keys. congruence. }
  apply metrics_key_iff in Hkey. destruct Hkey as [item [Hin Ho]].
  unfold shown in Hin. rewrite visibleData_filter in Hin.
  apply filter_In in Hin. destruct Hin as [_ Hshown].
  unfold notHidden in Hshown. rewrite Ho, Hflag in Hshown. discriminate.
Qed.

Lemma hidden_owner_has_no_metrics_witness :
  let st := toggleOwnerVisibility "Bob"
              (afterEffect (handleDataUpdate Samples.tieData initialState)) in
  map_get String.eqb "Bob" (ownerVisibility st) = Some false
  /\ map_get String.eqb "Bob"
       (UnifiedAnalysis.calculateUnifiedMetrics (shown st)) = None
  /\ map fst (UnifiedAnalysis.calculateUnifiedMetrics (shown st))
     = ["Ann"; "Cy"].
Proof.
  cbv zeta. split; [reflexivity |].
  split; [apply hidden_owner_has_no_metrics; reflexivity | reflexivity].
Defined.

(** Hiding other owners leaves the totals of an owner as they are; only
    [bestSolutions], which compares with the others, can change. *)
Lemma ownerStep_only_own_records (k : string) (data : UnifiedData) :
  forall acc,
    fold_left (ownerStep k) data acc
    = fold_left (ownerStep k) (recordsOf data k) acc.
Proof.
  induction data as [| item data IH]; intros acc; [reflexivity |].
  rewrite recordsOf_cons. cbn [fold_left]. unfold ownerStep at 2.
  destruct (String.eqb (entryOwner item) k) eqn:E.
  - cbn [fold_left]. unfold ownerStep at 3. rewrite E. apply IH.
  - apply IH.
Qed.

Lemma recordsOf_shown (st : State) (owner : string) :
  map_get String.eqb owner (ownerVisibility st) <> Some false ->
  recordsOf (shown st) owner = recordsOf (masterData st) owner.
Proof.
  intros Hflag. unfold shown, recordsOf. rewrite visibleData_filter.
  rewrite filter_filter. apply filter_ext. intros item.
  destruct (String.eqb (entryOwner item) owner) eqn:E;
    [| apply andb_false_r].
  apply String.eqb_eq in E. rewrite E. unfold notHidden.
  destruct (map_get String.eqb owner (ownerVisibility st)) as [[|] |];
    try reflexivity.
  exfalso. apply Hflag. reflexivity.
Qed.

(** X25.  Hiding other owners leaves the totals of an owner that is
    shown as they are: the metrics of the shown records have the same
    [totalScore], [avgScore], [solvedCount], [totalProblems] and
    [bySize] for it as the metrics of all records.  Only
    [bestSolutions], which compares with the others, can differ. *)
Theorem hiding_others_changes_only_best_counts (st : State) (owner : string)
    (m : UnifiedAnalysis.OwnerMetrics) :
  map_get String.eqb owner (ownerVisibility st) <> Some false ->
  map_get String.eqb owner
    (UnifiedAnalysis.calculateUnifiedMetrics (masterData st)) = Some m ->
  exists m',
    map_get String.eqb owner
      (UnifiedAnalysis.calculateUnifiedMetrics (shown st)) = Some m'
    /\ UnifiedAnalysis.totalScore m' = UnifiedAnalysis.totalScore m
    /\ UnifiedAnalysis.avgScore m' = UnifiedAnalysis.avgScore m
    /\ UnifiedAnalysis.solvedCount m' = UnifiedAnalysis.solvedCount m
    /\ UnifiedAnalysis.totalProblems m' = UnifiedAnalysis.totalProblems m
    /\ UnifiedAnalysis.bySize m' = UnifiedAnalysis.bySize m.
Proof.
  intros Hflag Hm.
  rewrite MetricsFacts.metrics_of_owner in Hm |- *.
  rewrite ownerStep_only_own_records in Hm |- *.
  rewrite (recordsOf_shown st owner Hflag).
  destruct (fold_left (ownerStep owner) (recordsOf (masterData st) owner) None)
    as [p |]; [| discriminate].
  injection Hm as <-. eexists. split; [reflexivity |].
  repeat split.
Qed.

Lemma hiding_others_changes_only_best_counts_witness :
  let st := toggleOwnerVisibility "Ann"
              (afterEffect (handleDataUpdate Samples.tieData initialState)) in
  map_get String.eqb "Cy" (ownerVisibility st) <> Some false
  /\ exists m m',
       map_get String.eqb "Cy"
         (UnifiedAnalysis.calculateUnifiedMetrics (masterData st)) = Some m
       /\ map_get String.eqb "Cy"
            (UnifiedAnalysis.calculateUnifiedMetrics (shown st)) = Some m'
       /\ UnifiedAnalysis.totalProblems m' = UnifiedAnalysis.totalProblems m
       /\ UnifiedAnalysis.avgScore m' = UnifiedAnalysis.avgScore m.
Proof.
  cbv zeta.
  set (st := toggleOwnerVisibility "Ann"
               (afterEffect (handleDataUpdate Samples.tieData initialState))).
  assert (Hflag : map_get String.eqb "Cy" (ownerVisibility st) <> Some false)
    by (vm_compute; discriminate).
  split; [exact Hflag |].
  destruct (map_get String.eqb "Cy"
              (UnifiedAnalysis.calculateUnifiedMetrics (masterData st)))
    as [m |] eqn:E; [| vm_compute in E; discriminate E].
  destruct (hiding_others_changes_only_best_counts st "Cy" m Hflag E)
    as [m' [H1 [_ [H3 [_ [H5 _]]]]]].
  exists m, m'. split; [reflexivity |]. split; [exact H1 |].
  split; [exact H5 | exact H3].
Defined.

End ViewFacts.


(** ** The record store: removals *)

Module StoreAlgebra.
Import Page ListFacts MetricsMore.

Lemma handleDataCleared_named (name : string) (st : State) :
  name <> "" ->
  handleDataCleared (Some name) st
  = {| masterData :=
         filter (fun item => negb (String.eqb (sourceName item) name))
                (masterData st);
       error := None;
       ownerVisibility := ownerVisibility st |}.
Proof.
  intros Hne. unfold handleDataCleared.
  apply String.eqb_neq in Hne. rewrite Hne. reflexivity.
Qed.

(** X26.  Removing sources by (non-empty) name: two removals give
    the same state in either order, a removal done twice is the same as
    once, a removal keeps exactly the records of the other sources, and
    it acts on a store and on a batch appended to it separately. *)
Theorem removing_sources_is_idempotent_and_commutes (st : State)
    (a b : string) :
  a <> "" -> b <> "" ->
  handleDataCleared (Some a) (handleDataCleared (Some b) st)
  = handleDataCleared (Some b) (handleDataCleared (Some a) st)
  /\ handleDataCleared (Some a) (handleDataCleared (Some a) st)
     = handleDataCleared (Some a) st
  /\ (forall item,
        In item (masterData (handleDataCleared (Some a) st))
        <-> In item (masterData st) /\ sourceName item <> a)
  /\ (forall newData,
        masterData (handleDataCleared (Some a) (handleDataUpdate newData st))
        = masterData (handleDataCleared (Some a) st)
          ++ masterData (handleDataCleared (Some a)
                           (handleDataUpdate newData initialState))).
Proof.
  intros Ha Hb.
  rewrite !(handleDataCleared_named a), !(handleDataCleared_named b)
    by assumption.
  cbn [masterData ownerVisibility handleDataUpdate initialState app].
  split; [| split; [| split]].
  - f_equal. rewrite !filter_filter. apply filter_ext. intros item.
    apply andb_comm.
  - f_equal. rewrite filter_filter. apply filter_ext. intros item.
    apply andb_diag.
  - intros item. rewrite filter_In, negb_true_iff, String.eqb_neq. tauto.
  - intros newData. rewrite !(handleDataCleared_named a) by assumption.
    cbn [masterData handleDataUpdate initialState app]. apply filter_app.
Qed.

Lemma removing_sources_is_idempotent_and_commutes_witness :
  let st := handleDataUpdate Samples.tieData initialState in
  handleDataCleared (Some "lb.html") (handleDataCleared (Some "b.log") st)
  = handleDataCleared (Some "b.log") (handleDataCleared (Some "lb.html") st)
  /\ masterData (handleDataCleared (Some "lb.html") st) = [].
Proof.
  cbv zeta. split; [| reflexivity].
  refine (proj1 (removing_sources_is_idempotent_and_commutes _ "lb.html" "b.log"
                   _ _)); discriminate.
Defined.

End StoreAlgebra.


(** ** The uploader *)

Module UploaderFacts.
Import LogParser LeaderboardParser ParserFacts Shapes LogFacts BoardFacts
       ListFacts Uploader.

Lemma extends_ok (P : UnifiedDataItem -> Prop)
    (r : Exc (list UnifiedDataItem) * nat) (items : list UnifiedDataItem)
    (n : nat) :
  Extends P [] r -> r = (Ok items, n) -> Forall P items.
Proof.
  intros Hext ->. unfold Extends in Hext. simpl in Hext.
  destruct Hext as [new [-> Hnew]]. exact Hnew.
Qed.

Section WithHost.
Context `{Host} `{Dom} `{ErrorText}.

(** The outcome of one [try] block: never an exception; either records
    that the parser returned and no message, or no record and a message
    that is not empty. *)
Lemma tryParse_outcome (P : UnifiedDataItem -> Prop)
    (parse : string -> M (list UnifiedDataItem)) (emptyMessage : string)
    (f : File) (n : nat) :
  emptyMessage <> "" ->
  (forall content k, Extends P [] (parse content k)) ->
  exists items message n',
    tryParse parse emptyMessage f n = (Ok (items, message), n')
    /\ Forall P items
    /\ ((items <> [] /\ message = None)
        \/ (items = [] /\ exists t, message = Some t /\ t <> "")).
Proof.
  intros Hne Hparse. unfold tryParse, tryCatch, bind, liftExc, ret.
  destruct (text f) as [content | e].
  - specialize (Hparse content n).
    destruct (parse content n) as [[items | e] n'] eqn:E.
    + exists items, (if length items =? 0 then Some emptyMessage else None), n'.
      split; [reflexivity |].
      split; [apply (extends_ok P _ items n' Hparse eq_refl) |].
      destruct items as [| item rest]; simpl.
      * right. split; [reflexivity |]. exists emptyMessage. split; [reflexivity | exact Hne].
      * left. split; [discriminate | reflexivity].
    + eexists [], _, n'. split; [reflexivity |]. split; [constructor |].
      right. split; [reflexivity |]. eexists. split; [reflexivity | discriminate].
  - eexists [], _, n. split; [reflexivity |]. split; [constructor |].
    right. split; [reflexivity |]. eexists. split; [reflexivity | discriminate].
Qed.

Lemma FromLog_sourceName (logFilename : string) (items : list UnifiedDataItem) :
  Forall (FromLog logFilename) items ->
  Forall (fun item => sourceName item = logFilename) items.
Proof. apply Forall_impl. intros item Hitem. apply Hitem. Qed.

Lemma FromLeaderboard_sourceName (sourceFileName : string)
    (items : list UnifiedDataItem) :
  Forall (FromLeaderboard sourceFileName) items ->
  Forall (fun item => sourceName item = sourceFileName) items.
Proof. apply Forall_impl. intros item Hitem. apply Hitem. Qed.

(** What [processFile] hands back, in every case. *)
Lemma processFile_outcome (f : File) (n : nat) :
  exists src n',
    processFile f n = (Ok src, n')
    /\ file src = f
    /\ Forall (fun item => sourceName item = name f) (data src)
    /\ ((status src = success /\ data src <> [] /\ errorMessage src = None)
        \/ (status src = error /\ data src = []
            /\ exists t, errorMessage src = Some t /\ t <> ""))
    /\ type src
       = (if endsWith ".log" (name f) then kindLog
          else if endsWith ".html" (name f) || endsWith ".htm" (name f)
               then kindHtml else kindUnknown)
    /\ (type src = kindUnknown ->
        n' = n /\ errorMessage src = Some "Unsupported file type").
Proof.
  unfold processFile. cbv zeta.
  destruct (endsWith ".log" (name f)) eqn:Elog.
  - destruct (tryParse_outcome (FromLog (name f))
                (fun content => parseLogEntries content (name f))
                "No valid entries found" f n)
      as [items [message [n' [E [Hall Hcase]]]]];
      [discriminate | intros content k; apply forLines_from_log |].
    unfold bind. rewrite E. unfold ret. eexists _, n'.
    split; [reflexivity |]. cbn [file data status errorMessage type fst snd].
    split; [reflexivity |].
    split; [apply FromLog_sourceName; exact Hall |].
    split; [| split; [reflexivity | discriminate]].
    destruct Hcase as [[Hne ->] | [-> [t [-> Ht]]]].
    + left. repeat split. exact Hne.
    + right. cbn [truthyText]. apply String.eqb_neq in Ht. rewrite Ht.
      repeat split. exists t. split; [reflexivity |].
      apply String.eqb_neq. exact Ht.
  - destruct (endsWith ".html" (name f) || endsWith ".htm" (name f)) eqn:Ehtml.
    + destruct (tryParse_outcome (FromLeaderboard (name f))
                  (fun content =>
                     parseLeaderboardHtmlToUnifiedData content (Some (name f)))
                  "No valid leaderboard data found" f n)
        as [items [message [n' [E [Hall Hcase]]]]];
        [discriminate
        | intros content k;
          apply (parseLeaderboardHtml_from_leaderboard content (Some (name f)))
        |].
      unfold bind. rewrite E. unfold ret. eexists _, n'.
      split; [reflexivity |]. cbn [file data status errorMessage type fst snd].
      split; [reflexivity |].
      split; [apply FromLeaderboard_sourceName; exact Hall |].
      split; [| split; [reflexivity | discriminate]].
      destruct Hcase as [[Hne ->] | [-> [t [-> Ht]]]].
      * left. repeat split. exact Hne.
      * right. cbn [truthyText]. apply String.eqb_neq in Ht. rewrite Ht.
        repeat split. exists t. split; [reflexivity |].
        apply String.eqb_neq. exact Ht.
    + unfold ret. eexists _, n. split; [reflexivity |].
      cbn [file data status errorMessage type].
      split; [reflexivity |]. split; [constructor |].
      split; [| split; [reflexivity | intros _; split; reflexivity]].
      right. repeat split. exists "Unsupported file type".
      split; [reflexivity | discriminate].
Qed.

(** X27.  [processFile] never throws, whatever the file and the
    parsers do.  The source it returns has the status [success] exactly
    when it has records, and then no error message; otherwise the
    status is [error], there is no record and the message is not
    empty.  Every record carries the name of the file as [sourceName].
    The type follows the ending of the name, letter case included
    ([.log], then [.html] or [.htm]); a file of unknown type is not
    read and draws no id. *)
Theorem processFile_succeeds_exactly_with_records (f : File) (n : nat) :
  exists src n',
    processFile f n = (Ok src, n')
    /\ file src = f
    /\ Forall (fun item => sourceName item = name f) (data src)
    /\ (status src = success \/ status src = error)
    /\ (status src = success <-> data src <> [])
    /\ (status src = success <-> errorMessage src = None)
    /\ errorMessage src <> Some ""
    /\ type src
       = (if endsWith ".log" (name f) then kindLog
          else if endsWith ".html" (name f) || endsWith ".htm" (name f)
               then kindHtml else kindUnknown)
    /\ (type src = kindUnknown ->
        status src = error /\ n' = n
        /\ errorMessage src = Some "Unsupported file type").
Proof.
  destruct (processFile_outcome f n)
    as [src [n' [E [Hfile [Hall [Hcase [Htype Hunknown]]]]]]].
  exists src, n'. split; [exact E |]. split; [exact Hfile |].
  split; [exact Hall |].
  destruct Hcase as [[Hs [Hd Hm]] | [Hs [Hd [t [Hm Ht]]]]].
  - split; [left; exact Hs |].
    split; [split; intros _; assumption |].
    split; [split; intros _; assumption |].
    split; [rewrite Hm; discriminate |].
    split; [exact Htype |].
    intros Hu. destruct (Hunknown Hu) as [_ Hmsg]. congruence.
  - split; [right; exact Hs |].
    split; [split; [intros Hx; congruence | intros Hx; contradiction] |].
    split; [split; intros Hx; congruence |].
    split; [rewrite Hm; intros Hx; injection Hx as ->; apply Ht; reflexivity |].
    split; [exact Htype |].
    intros Hu. destruct (Hunknown Hu) as [Hn Hmsg].
    split; [exact Hs |]. split; assumption.
Qed.

Lemma endsWith_not_empty (suffix : string) :
  suffix <> "" -> endsWith suffix "" = false.
Proof.
  intros Hne. unfold endsWith.
  destruct (String.prefix (reverse suffix) (reverse "")) eqn:P; [| reflexivity].
  apply TextFacts.prefix_iff_append in P. destruct P as [r Hr].
  simpl in Hr. destruct (reverse suffix) eqn:E; [| discriminate Hr].
  apply (f_equal reverse) in E. rewrite TextFacts.reverse_involutive in E.
  contradiction.
Qed.

(** X28.  A file that [processFile] accepted has a name that is not
    empty; adding its records to a store that holds none under that
    name and removing by the name gives the store back. *)
Theorem uploaded_file_is_removed_by_its_name (f : File) (n : nat)
    (st : Page.State) (src : UploadedSource) (n' : nat) :
  processFile f n = (Ok src, n') ->
  status src = success ->
  (forall item, In item (Page.masterData st) -> sourceName item <> name f) ->
  name f <> ""
  /\ Page.masterData
       (Page.handleDataCleared (Some (name f))
          (Page.handleDataUpdate (data src) st))
     = Page.masterData st.
Proof.
  intros Hproc Hsucc Hfresh.
  destruct (processFile_outcome f n) as [src0 [n0 [E [_ [Hall [Hcase [Htype _]]]]]]].
  rewrite Hproc in E. injection E as <- <-.
  assert (Hname : name f <> "").
  { intros Hempty. rewrite Hempty in Htype.
    rewrite !endsWith_not_empty in Htype by discriminate.
    simpl in Htype.
    unfold processFile in Hproc. rewrite Hempty in Hproc. cbv zeta in Hproc.
    rewrite !endsWith_not_empty in Hproc by discriminate.
    simpl in Hproc. unfold ret in Hproc. injection Hproc as <- _.
    simpl in Hsucc. discriminate Hsucc. }
  split; [exact Hname |].
  unfold Page.handleDataCleared, Page.handleDataUpdate.
  apply String.eqb_neq in Hname. rewrite Hname. cbn [negb Page.masterData].
  rewrite filter_app, filter_keeps_all, filter_drops_all.
  - apply app_nil_r.
  - intros item Hin. rewrite Forall_forall in Hall.
    rewrite (Hall item Hin), String.eqb_refl. reflexivity.
  - intros item Hin. apply negb_true_iff. apply String.eqb_neq.
    apply Hfresh. exact Hin.
Qed.

End WithHost.

Lemma uploaded_file_is_removed_by_its_name_witness :
  let f := {| name := "solver.log"; text := Ok Samples.repeatedLog |} in
  let st := Page.handleDataUpdate Samples.tieData Page.initialState in
  exists src n',
    @processFile RefHost.host RefPage.propsOnly RefPage.errorNames f 0
    = (Ok src, n')
    /\ status src = success
    /\ length (data src) = 2
    /\ Page.masterData
         (Page.handleDataCleared (Some "solver.log")
            (Page.handleDataUpdate (data src) st))
       = Page.masterData st.
Proof.
  cbv zeta.
  destruct (@processFile RefHost.host RefPage.propsOnly RefPage.errorNames
              {| name := "solver.log"; text := Ok Samples.repeatedLog |} 0)
    as [[src | e] n'] eqn:E; [| vm_compute in E; discriminate E].
  assert (Hs : status src = success)
    by (vm_compute in E; injection E as <- _; reflexivity).
  assert (Hl : length (data src) = 2)
    by (vm_compute in E; injection E as <- _; reflexivity).
  exists src, n'. split; [reflexivity |]. split; [exact Hs |].
  split; [exact Hl |].
  refine (proj2 (@uploaded_file_is_removed_by_its_name
                   RefHost.host RefPage.propsOnly RefPage.errorNames
                   {| name := "solver.log"; text := Ok Samples.repeatedLog |}
                   0 _ src n' E Hs _)).
  intros item Hin. simpl in Hin.
  destruct Hin as [<- | [<- | [<- | [<- | []]]]]; discriminate.
Defined.

(** Five files: a leaderboard page with one cell, a log without a
    readable line, a page with a [null] row, and two names whose ending
    is not one of the three (the test is sensitive to letter case). *)
Example processFile_samples :
  let run := fun name content =>
    match @processFile RefHost.host RefPage.propsOnly RefPage.errorNames
            {| name := name; text := Ok content |} 0 with
    | (Ok src, _) =>
        Some (status src, type src, length (data src), errorMessage src)
    | (Throw _, _) => None
    end in
  run "lb.html"
      (RefHost.q "{'columns':[{'name':'5_4_10.vrp'}],'entries':[{'name':'Ann','5_4_10.vrp':'7 [1]'}]}")
  = Some (success, kindHtml, 1, None)
  /\ run "empty.log" "not json"
     = Some (error, kindLog, 0, Some "No valid entries found")
  /\ run "bad.htm" (RefHost.q "{'columns':[],'entries':[null]}")
     = Some (error, kindHtml, 0, Some "Failed to parse: TypeError")
  /\ run "run.LOG" Samples.logLine
     = Some (error, kindUnknown, 0, Some "Unsupported file type")
  /\ run "notes.txt" Samples.logLine
     = Some (error, kindUnknown, 0, Some "Unsupported file type").
Proof. vm_compute. repeat split. Qed.

End UploaderFacts.


(** ** The record store *)

Module StoreFacts.
Import Page ListFacts Shapes Uploader UploaderFacts.

Lemma readableName_not_empty (sourceName : string) :
  readableName sourceName = true -> sourceName <> "".
Proof.
  intros Hread ->. unfold readableName in Hread.
  rewrite !endsWith_not_empty in Hread by discriminate.
  discriminate Hread.
Qed.

(** Appending under a name and removing by it, for a name that is not
    empty. *)
Lemma append_then_remove_named (st : State) (batch : list UnifiedDataItem)
    (name : string) :
  name <> "" ->
  (forall item, In item (masterData st) -> sourceName item <> name) ->
  (forall item, In item batch -> sourceName item = name) ->
  masterData (handleDataCleared (Some name) (handleDataUpdate batch st))
  = masterData st.
Proof.
  intros Hname Hold Hnew.
  unfold handleDataCleared, handleDataUpdate.
  apply String.eqb_neq in Hname. rewrite Hname. cbn [negb masterData].
  rewrite filter_app, (filter_keeps_all _ (masterData st)),
    (filter_drops_all _ batch).
  - apply app_nil_r.
  - intros x Hx. rewrite (Hnew x Hx), String.eqb_refl. reflexivity.
  - intros x Hx. apply negb_true_iff. apply String.eqb_neq.
    apply Hold. exact Hx.
Qed.

Section WithHost.
Context `{Host} `{LeaderboardParser.Dom} `{ErrorText}.

(** A source that [processFile] returns with the status [success] has
    records, all under the name of the file, and the name is one that
    [processFile] reads. *)
Lemma records_come_under_readable_name (f : File) (n n' : nat)
    (src : UploadedSource) :
  processFile f n = (Ok src, n') ->
  status src = success ->
  readableName (name f) = true
  /\ data src <> []
  /\ (forall item, In item (data src) -> sourceName item = name f).
Proof.
  intros Hproc Hsucc.
  destruct (processFile_outcome f n)
    as [src0 [n0 [E [_ [Hall [Hcase [Htype Hunknown]]]]]]].
  rewrite Hproc in E. injection E as <- <-.
  destruct Hcase as [[_ [Hd Hm]] | [Hs _]]; [| congruence].
  split; [| split].
  - unfold readableName.
    destruct (endsWith ".log" (name f)); [reflexivity |].
    destruct (endsWith ".html" (name f) || endsWith ".htm" (name f));
      [reflexivity |].
    exfalso. destruct (Hunknown Htype) as [_ Hmsg]. congruence.
  - exact Hd.
  - apply Forall_forall. exact Hall.
Qed.

(** C9.  The source names of the store are names of uploaded files:
    the uploader hands over the records of the sources that
    [processFile] returned with the status [success] (lines 92-105), and
    removes by the name of a file (line 129).  Such a source has
    records, its name ends with [.log], [.html] or [.htm], and every
    record carries that name as [sourceName].  For every such source
    name, every store that holds no record of that name and every batch
    of records that all carry it: appending the batch and then removing
    by the name gives back the records of the store as they were, in
    their order, and no record of that name remains; in between, the
    store holds its records followed by the batch. *)
Theorem append_then_remove_restores :
  (forall (f : File) (n n' : nat) (src : UploadedSource),
      processFile f n = (Ok src, n') ->
      status src = success ->
      readableName (name f) = true
      /\ data src <> []
      /\ (forall item, In item (data src) -> sourceName item = name f))
  /\ (forall (st : State) (batch : list UnifiedDataItem) (name : string),
        readableName name = true ->
        (forall item, In item (masterData st) -> sourceName item <> name) ->
        (forall item, In item batch -> sourceName item = name) ->
        let appended := handleDataUpdate batch st in
        let st' := handleDataCleared (Some name) appended in
        masterData appended = masterData st ++ batch
        /\ masterData st' = masterData st
        /\ (forall item, In item (masterData st') -> sourceName item <> name)).
Proof.
  split.
  - intros f n n' src Hproc Hsucc.
    apply records_come_under_readable_name with (1 := Hproc) (2 := Hsucc).
  - intros st batch name Hread Hold Hnew appended st'.
    assert (Hmd : masterData st' = masterData st).
    { apply append_then_remove_named; [| exact Hold | exact Hnew].
      apply readableName_not_empty. exact Hread. }
    split; [reflexivity |].
    split; [exact Hmd |]. rewrite Hmd. exact Hold.
Qed.

End WithHost.

(** A leaderboard page is uploaded to a store that holds the records of
    another page, and removed again. *)
Lemma append_then_remove_restores_witness :
  let f := {| name := "board.html";
              text := Ok (RefHost.q
                "{'columns':[{'name':'5_4_10.vrp'}],'entries':[{'name':'Ann','5_4_10.vrp':'7 [1]'}]}") |} in
  let st := handleDataUpdate Samples.tieData initialState in
  exists src n',
    @processFile RefHost.host RefPage.propsOnly RefPage.errorNames f 0
    = (Ok src, n')
    /\ status src = success
    /\ length (data src) = 1
    /\ readableName "board.html" = true
    /\ (forall item, In item (data src) -> sourceName item = "board.html")
    /\ masterData (handleDataUpdate (data src) st)
       = Samples.tieData ++ data src
    /\ masterData (handleDataCleared (Some "board.html")
                     (handleDataUpdate (data src) st))
       = masterData st
    /\ (forall item,
          In item (masterData (handleDataCleared (Some "board.html")
                                 (handleDataUpdate (data src) st))) ->
          sourceName item <> "board.html").
Proof.
  intros f st.
  destruct (@processFile RefHost.host RefPage.propsOnly RefPage.errorNames f 0)
    as [[src | e] n'] eqn:E; [| vm_compute in E; discriminate E].
  assert (Hl : length (data src) = 1)
    by (vm_compute in E; injection E as <- _; reflexivity).
  assert (Hs : status src = success)
    by (vm_compute in E; injection E as <- _; reflexivity).
  destruct (@append_then_remove_restores
              RefHost.host RefPage.propsOnly RefPage.errorNames)
    as [Hfrom Hrestore].
  destruct (Hfrom f 0 n' src E Hs) as [Hread [_ Hnames]].
  assert (Hfresh : forall item, In item (masterData st) ->
                                sourceName item <> "board.html").
  { intros item Hin. simpl in Hin.
    destruct Hin as [<- | [<- | [<- | [<- | []]]]]; discriminate. }
  destruct (Hrestore st (data src) "board.html" Hread Hfresh Hnames)
    as [Happ [Hmd Hnone]].
  exists src, n'. split; [reflexivity |]. split; [exact Hs |].
  split; [exact Hl |]. split; [exact Hread |]. split; [exact Hnames |].
  split; [exact Happ |]. split; [exact Hmd | exact Hnone].
Defined.

(** The test of [handleDataCleared] is one of truthiness: a removal by
    the empty name clears the whole store.  No file that gives records
    has this name. *)
Lemma remove_by_empty_name_clears_all (st : State) :
  masterData (handleDataCleared (Some "") st) = [].
Proof. reflexivity. Qed.

End StoreFacts.


(** ** The data of the charts *)

Module ChartFacts.
Import UnifiedAnalysis LeaderboardParser MapFacts MetricsFacts MetricsMore
       ViewFacts Shapes.

Lemma percent_bounds (part whole : nat) :
  part <= whole -> isPercentage (Chart.percent part whole).
Proof.
  intros Hle. unfold Chart.percent, isPercentage.
  destruct (0 <? whole) eqn:W.
  2:{ exists 0%Q. split; [reflexivity |]. split; [apply Qle_refl | discriminate]. }
  apply Nat.ltb_lt in W. unfold num_of_nat, num_div.
  assert (Hw : (0 < inject_Z (Z.of_nat whole))%Q).
  { change 0%Q with (inject_Z 0). rewrite <- Zlt_Qlt. lia. }
  assert (Hw0 : Qeq_bool (inject_Z (Z.of_nat whole)) 0 = false).
  { apply not_true_iff_false. intros H. apply Qeq_bool_iff in H.
    rewrite H in Hw. apply (Qlt_irrefl _ Hw). }
  rewrite Hw0. cbn [Chart.num_mul].
  eexists. split; [reflexivity |].
  rewrite !Qred_correct.
  assert (Hp : (0 <= inject_Z (Z.of_nat part))%Q).
  { change 0%Q with (inject_Z 0). rewrite <- Zle_Qle. lia. }
  assert (Hpw : (inject_Z (Z.of_nat part) <= inject_Z (Z.of_nat whole))%Q).
  { rewrite <- Zle_Qle. lia. }
  assert (H0 : (0 <= inject_Z (Z.of_nat part) / inject_Z (Z.of_nat whole))%Q).
  { apply Qle_shift_div_l; [exact Hw |]. rewrite Qmult_0_l. exact Hp. }
  assert (H1 : (inject_Z (Z.of_nat part) / inject_Z (Z.of_nat whole) <= 1)%Q).
  { apply Qle_shift_div_r; [exact Hw |]. rewrite Qmult_1_l. exact Hpw. }
  split.
  - apply Qmult_le_0_compat; [exact H0 | discriminate].
  - setoid_replace (100 : Q) with (1 * 100)%Q at 2 by reflexivity.
    apply Qmult_le_compat_r; [exact H1 | discriminate].
Qed.

Lemma mapExc_ok {A B : Type} (f : A -> Exc B) (g : A -> B) (l : list A) :
  (forall x, In x l -> f x = Ok (g x)) -> mapExc f l = Ok (map g l).
Proof.
  induction l as [| x l IH]; intros Hf; [reflexivity |].
  simpl. rewrite (Hf x (or_introl eq_refl)). simpl.
  rewrite IH; [reflexivity |]. intros y Hy. apply Hf. right. exact Hy.
Qed.

Lemma metricsOf_listed (metricsData : OwnerMap) (owner : string) :
  In owner (Chart.sortedOwners metricsData) ->
  Chart.metricsOf metricsData owner = Ok (metricsOr metricsData owner).
Proof.
  unfold Chart.sortedOwners, Chart.metricsOf, metricsOr.
  rewrite In_sort, map_get_In_keys.
  destruct (map_get String.eqb owner metricsData); [reflexivity |].
  intros H0. exfalso. apply H0. reflexivity.
Qed.

Lemma existsb_keys {V : Type} (k : string) (m : list (string * V)) :
  existsb (String.eqb k) (map fst m) = map_has String.eqb k m.
Proof.
  unfold map_has. induction m as [| [k0 v] m IH]; simpl; [reflexivity |].
  rewrite String.eqb_sym. destruct (String.eqb k0 k); [reflexivity | exact IH].
Qed.

Lemma keys_firstPassStep (om : OwnerMap) (bm : BestMap) (item : UnifiedDataItem) :
  map fst (fst (firstPassStep (om, bm) item))
  = PageView.setAdd (map fst om) (entryOwner item).
Proof.
  unfold firstPassStep, PageView.setAdd. cbn [fst].
  rewrite existsb_keys, map_fst_map_set.
  destruct (map_has String.eqb (entryOwner item) om) eqn:Hhas; cbn [negb].
  - rewrite Hhas. reflexivity.
  - unfold map_has at 1. rewrite map_get_set_same.
    rewrite map_fst_map_set, Hhas. reflexivity.
Qed.

Lemma keys_firstPass (data : UnifiedData) :
  forall om bm,
    map fst (fst (fold_left firstPassStep data (om, bm)))
    = fold_left PageView.setAdd (map entryOwner data) (map fst om).
Proof.
  induction data as [| item data IH]; intros om bm; [reflexivity |].
  cbn [fold_left map].
  destruct (firstPassStep (om, bm) item) as [om' bm'] eqn:S.
  rewrite IH. f_equal.
  replace om' with (fst (firstPassStep (om, bm) item)) by (rewrite S; reflexivity).
  apply keys_firstPassStep.
Qed.

(** The owners of the charts are the owners of the visibility control. *)
Lemma sortedOwners_uniqueOwners (unifiedData : UnifiedData) :
  Chart.sortedOwners (calculateUnifiedMetrics unifiedData)
  = PageView.uniqueOwners unifiedData.
Proof.
  unfold Chart.sortedOwners, PageView.uniqueOwners, PageView.arrayFromSet.
  rewrite metrics_keys. unfold firstPass. rewrite keys_firstPass. reflexivity.
Qed.

(** X29.  The comparison chart never fails on the metrics of a list
    of records.  It has one row per owner, in the order of
    [uniqueOwners]; each row is built from the metrics of its owner;
    [solvedRatio] and [bestSolutionsPercent] are numbers between 0 and
    100; an owner without solved record has the average [null]. *)
Theorem chart_rows_are_percentages (unifiedData : UnifiedData) :
  exists rows,
    Chart.comparison (calculateUnifiedMetrics unifiedData) = Ok rows
    /\ map Chart.owner rows = PageView.uniqueOwners unifiedData
    /\ forall row,
         In row rows ->
         (exists data,
            map_get String.eqb (Chart.owner row)
              (calculateUnifiedMetrics unifiedData) = Some data
            /\ row = Chart.comparisonRow (Chart.owner row) data)
         /\ isPercentage (Chart.solvedRatio row)
         /\ isPercentage (Chart.bestSolutionsPercent row)
         /\ (Chart.solvedCount row = 0 -> Chart.avgScore row = None).
Proof.
  set (metricsData := calculateUnifiedMetrics unifiedData).
  exists (map (fun owner =>
                 Chart.comparisonRow owner (metricsOr metricsData owner))
              (Chart.sortedOwners metricsData)).
  split; [| split].
  - unfold Chart.comparison. apply mapExc_ok. intros owner Hin.
    rewrite (metricsOf_listed metricsData owner Hin). reflexivity.
  - rewrite map_map. cbn [Chart.owner Chart.comparisonRow]. rewrite map_id.
    apply sortedOwners_uniqueOwners.
  - intros row Hin. apply in_map_iff in Hin. destruct Hin as [owner [<- Hin]].
    unfold Chart.sortedOwners in Hin. rewrite In_sort, map_get_In_keys in Hin.
    unfold metricsOr.
    destruct (map_get String.eqb owner metricsData) as [data |] eqn:G;
      [| exfalso; apply Hin; reflexivity].
    destruct (owner_totals unifiedData owner data G) as [_ [_ [_ Havg]]].
    destruct (owner_counts_ordered unifiedData owner data G)
      as [Hbest Hsolved].
    cbn [Chart.owner Chart.comparisonRow Chart.solvedRatio
         Chart.bestSolutionsPercent Chart.solvedCount Chart.avgScore].
    split; [exists data; split; [exact G | reflexivity] |].
    split; [apply percent_bounds; exact Hsolved |].
    split; [apply percent_bounds; exact Hbest |].
    intros Hzero. rewrite Havg, Hzero. reflexivity.
Qed.

(** The rows for the sample of a tie. *)
Example chart_rows_of_tie_sample :
  option_map
    (map (fun row => (Chart.owner row, Chart.solvedRatio row,
                      Chart.bestSolutionsPercent row, Chart.avgScore row)))
    (match Chart.comparison (calculateUnifiedMetrics Samples.tieData) with
     | Ok rows => Some rows
     | Throw _ => None
     end)
  = Some [("Ann", Finite 100, Finite 100, Some (Finite 5));
          ("Bob", Finite 100, Finite 100, Some (Finite 6));
          ("Cy", Finite 0, Finite 0, None)].
Proof. vm_compute. reflexivity. Qed.

Lemma In_combine_seq {A : Type} (l : list A) (x : A) :
  forall start, In x l -> exists i, In (x, i) (combine l (seq start (length l))).
Proof.
  induction l as [| a l IH]; intros start Hin; [destruct Hin |].
  simpl. destruct Hin as [-> | Hin].
  - exists start. left. reflexivity.
  - destruct (IH (S start) Hin) as [i Hi]. exists i. right. exact Hi.
Qed.

Lemma generateColor_listed (index : nat) :
  In (Chart.generateColor index) Chart.colors.
Proof.
  unfold Chart.generateColor. apply nth_In.
  apply Nat.mod_upper_bound. discriminate.
Qed.

(** X30.  The pie of best solutions never fails on the metrics of a
    list of records.  Every slice has a positive value, which is the
    [bestSolutions] of its owner, and one of the ten colours; every
    owner with a best solution has a slice.  The colours repeat inside
    one period: the fourth and the eighth are the same. *)
Theorem pie_shows_owners_with_a_best_solution (unifiedData : UnifiedData) :
  exists slices,
    Chart.bestSolutionsData (calculateUnifiedMetrics unifiedData) = Ok slices
    /\ (forall slice,
          In slice slices ->
          0 < Chart.sliceValue slice
          /\ In (Chart.sliceColor slice) Chart.colors
          /\ exists data,
               map_get String.eqb (Chart.sliceName slice)
                 (calculateUnifiedMetrics unifiedData) = Some data
               /\ bestSolutions data = Chart.sliceValue slice)
    /\ (forall owner data,
          map_get String.eqb owner (calculateUnifiedMetrics unifiedData)
          = Some data ->
          0 < bestSolutions data ->
          exists slice,
            In slice slices /\ Chart.sliceName slice = owner
            /\ Chart.sliceValue slice = bestSolutions data)
    /\ (forall k, Chart.generateColor (10 * k + 3)
                  = Chart.generateColor (10 * k + 7)).
Proof.
  set (metricsData := calculateUnifiedMetrics unifiedData).
  set (owners := Chart.sortedOwners metricsData).
  set (slice := fun indexed : string * nat =>
                  {| Chart.sliceName := fst indexed;
                     Chart.sliceValue :=
                       bestSolutions (metricsOr metricsData (fst indexed));
                     Chart.sliceColor := Chart.generateColor (snd indexed) |}).
  exists (filter (fun d => 0 <? Chart.sliceValue d)
                 (map slice (combine owners (seq 0 (length owners))))).
  split; [| split; [| split]].
  - unfold Chart.bestSolutionsData. fold metricsData. fold owners.
    rewrite (mapExc_ok _ slice); [reflexivity |].
    intros [owner i] Hin. apply in_combine_l in Hin.
    cbn [fst snd]. rewrite (metricsOf_listed metricsData owner Hin).
    reflexivity.
  - intros s Hin. apply filter_In in Hin. destruct Hin as [Hin Hpos].
    apply Nat.ltb_lt in Hpos. split; [exact Hpos |].
    apply in_map_iff in Hin. destruct Hin as [[owner i] [<- Hin]].
    apply in_combine_l in Hin. cbn [slice Chart.sliceColor Chart.sliceName
                                    Chart.sliceValue fst snd].
    split; [apply generateColor_listed |].
    unfold owners, Chart.sortedOwners in Hin.
    rewrite In_sort, map_get_In_keys in Hin. unfold metricsOr.
    destruct (map_get String.eqb owner metricsData) as [data |];
      [| exfalso; apply Hin; reflexivity].
    exists data. split; reflexivity.
  - intros owner data Hget Hpos.
    assert (Hin : In owner owners).
    { unfold owners, Chart.sortedOwners. rewrite In_sort, map_get_In_keys.
      rewrite Hget. discriminate. }
    destruct (In_combine_seq owners owner 0 Hin) as [i Hi].
    exists (slice (owner, i)).
    assert (Hval : Chart.sliceValue (slice (owner, i)) = bestSolutions data).
    { cbn [slice Chart.sliceValue fst]. unfold metricsOr. rewrite Hget.
      reflexivity. }
    split; [| split; [reflexivity | exact Hval]].
    apply filter_In. split; [apply in_map; exact Hi |].
    rewrite Hval. apply Nat.ltb_lt. exact Hpos.
  - intros k. unfold Chart.generateColor.
    replace (length Chart.colors) with 10 by reflexivity.
    replace ((10 * k + 3) mod 10) with 3
      by (rewrite Nat.Div0.add_mod, Nat.Div0.mul_mod, Nat.Div0.mod_same;
          reflexivity).
    replace ((10 * k + 7) mod 10) with 7
      by (rewrite Nat.Div0.add_mod, Nat.Div0.mul_mod, Nat.Div0.mod_same;
          reflexivity).
    reflexivity.
Qed.

End ChartFacts.
